(** * Fontra simple WASM core: outline model, codec, geometry, dispatcher

    A shallow embedding of [src-js/webapp/fontra_wasm_core_simple.py].

    The module is dynamically typed Python working on the output of
    [json.loads], so values are modelled as Python objects ([pyval]):
    integers are unbounded ([Z]), floats are IEEE binary64 (Rocq's
    primitive [float]), dictionaries are insertion-ordered association
    lists.  Exceptions are explicit: every operation that can raise
    returns a [result]. *)

From Stdlib Require Import ZArith QArith Qpower Zpower List String Ascii Bool Lia.
From Stdlib Require Import Floats DecimalString.
Import ListNotations.

Local Open Scope string_scope.
Local Open Scope Z_scope.

(** ** Python values *)

#[warnings="-register-all"]
Inductive pyval : Type :=
| VNone
| VBool (b : bool)
| VInt (z : Z)
| VFloat (f : float)
| VStr (s : string)
| VList (l : list pyval)
| VDict (d : list (string * pyval)).

(** [type(v).__name__] *)
Definition type_name (v : pyval) : string :=
  match v with
  | VNone => "NoneType"
  | VBool _ => "bool"
  | VInt _ => "int"
  | VFloat _ => "float"
  | VStr _ => "str"
  | VList _ => "list"
  | VDict _ => "dict"
  end.

(** ** Exceptions and the result monad *)

(** [json.JSONDecodeError] carries its message and position; every other
    exception raised in this module is a built-in one, kept as its class
    name and message. *)
Inductive exn : Type :=
| JSONDecodeError (msg : string) (lineno colno pos : Z)
| PyErr (cls : string) (msg : string).

Definition dec (z : Z) : string := NilZero.string_of_int (Z.to_int z).

(** [str(e)].  For [JSONDecodeError] this is the format used by
    [json.decoder]: ['%s: line %d column %d (char %d)']. *)
Definition str_exn (e : exn) : string :=
  match e with
  | JSONDecodeError msg lineno colno pos =>
      msg ++ ": line " ++ dec lineno ++ " column " ++ dec colno
          ++ " (char " ++ dec pos ++ ")"
  | PyErr _ msg => msg
  end.

Definition TypeError (msg : string) : exn := PyErr "TypeError" msg.
Definition AttributeError (msg : string) : exn := PyErr "AttributeError" msg.
Definition OverflowError (msg : string) : exn := PyErr "OverflowError" msg.

Inductive result (A : Type) : Type :=
| Ok (a : A)
| Raise (e : exn).
Arguments Ok {A} a.
Arguments Raise {A} e.

Definition bind {A B : Type} (m : result A) (k : A -> result B) : result B :=
  match m with
  | Ok a => k a
  | Raise e => Raise e
  end.

Notation "x <- m ;; k" := (bind m (fun x => k))
  (at level 61, m at next level, right associativity).

(** A list comprehension whose body may raise: elements are evaluated
    left to right and the first exception aborts the comprehension. *)
Fixpoint mapM {A B : Type} (f : A -> result B) (l : list A) : result (list B) :=
  match l with
  | [] => Ok []
  | a :: l' => b <- f a ;; bs <- mapM f l' ;; Ok (b :: bs)
  end.

(** A [for] loop threading local variables [S] through a body that may raise. *)
Fixpoint foldM {A S : Type} (f : S -> A -> result S) (l : list A) (s : S)
  : result S :=
  match l with
  | [] => Ok s
  | a :: l' => s' <- f s a ;; foldM f l' s'
  end.

(** ** Python primitives used by the module *)

(** Dictionary lookup on the association list (first binding of the key). *)
Fixpoint lookup (k : string) (d : list (string * pyval)) : option pyval :=
  match d with
  | [] => None
  | (k', v) :: d' => if String.eqb k k' then Some v else lookup k d'
  end.

(** [data.get(key, default)]: only dictionaries have a [get] attribute among
    the values [json.loads] produces. *)
Definition py_get (data : pyval) (key : string) (default : pyval) : result pyval :=
  match data with
  | VDict d =>
      match lookup key d with
      | Some v => Ok v
      | None => Ok default
      end
  | _ => Raise (AttributeError
                  ("'" ++ type_name data ++ "' object has no attribute 'get'"))
  end.

Fixpoint chars (s : string) : list pyval :=
  match s with
  | EmptyString => []
  | String c s' => VStr (String c EmptyString) :: chars s'
  end.

(** [for item in v]: lists yield their items, strings their characters,
    dictionaries their keys; nothing else is iterable. *)
Definition py_iter (v : pyval) : result (list pyval) :=
  match v with
  | VList l => Ok l
  | VStr s => Ok (chars s)
  | VDict d => Ok (map (fun kv => VStr (fst kv)) d)
  | _ => Raise (TypeError ("'" ++ type_name v ++ "' object is not iterable"))
  end.

(** Truth value of an object ([bool(v)]). *)
Definition truthy (v : pyval) : bool :=
  match v with
  | VNone => false
  | VBool b => b
  | VInt z => negb (z =? 0)
  | VFloat f => negb (PrimFloat.eqb f 0%float)
  | VStr s => negb (String.eqb s "")
  | VList l => match l with [] => false | _ => true end
  | VDict d => match d with [] => false | _ => true end
  end.

(** [v != "line"] *)
Definition ne_line (v : pyval) : bool :=
  match v with
  | VStr s => negb (String.eqb s "line")
  | _ => true
  end.

(** ** Numbers *)

(** The numeric tower reached here: [bool] is a subclass of [int]. *)
Inductive num : Type :=
| NInt (z : Z)
| NFloat (f : float).

Definition as_num (v : pyval) : option num :=
  match v with
  | VBool b => Some (NInt (if b then 1 else 0))
  | VInt z => Some (NInt z)
  | VFloat f => Some (NFloat f)
  | _ => None
  end.

Definition num_type_name (n : num) : string :=
  match n with
  | NInt _ => "int"
  | NFloat _ => "float"
  end.

(** [float(z)] for an [int]: correctly rounded (to nearest, ties to even);
    raises [OverflowError] when the rounded value is out of range. *)
Definition float_of_int (z : Z) : result float :=
  match binary_normalize prec emax z 0 false with
  | S754_infinity _ => Raise (OverflowError "int too large to convert to float")
  | f => Ok (SF2Prim f)
  end.

Definition to_float (n : num) : result float :=
  match n with
  | NInt z => float_of_int z
  | NFloat f => Ok f
  end.

(** Binary arithmetic on numbers: exact on two integers, otherwise both
    operands are converted to float. *)
Definition num_binop (opz : Z -> Z -> Z) (opf : float -> float -> float)
  (a b : num) : result pyval :=
  match a, b with
  | NInt x, NInt y => Ok (VInt (opz x y))
  | _, _ => x <- to_float a ;; y <- to_float b ;; Ok (VFloat (opf x y))
  end.

(** The double-quote character, as it appears in CPython's messages. *)
Definition dquote : string := String (ascii_of_nat 34) EmptyString.

Definition unsupported (op : string) (v : pyval) (d : num) : exn :=
  TypeError ("unsupported operand type(s) for " ++ op ++ ": '"
             ++ type_name v ++ "' and '" ++ num_type_name d ++ "'").

(** [v + d] where [d] is a number. *)
Definition py_add (v : pyval) (d : num) : result pyval :=
  match as_num v with
  | Some a => num_binop Z.add PrimFloat.add a d
  | None =>
      match v with
      | VStr _ | VList _ =>
          Raise (TypeError ("can only concatenate " ++ type_name v ++ " (not "
                            ++ dquote ++ num_type_name d ++ dquote ++ ") to "
                            ++ type_name v))
      | _ => Raise (unsupported "+" v d)
      end
  end.

(** Sequence repetition [s * n]: empty when [n <= 0]. *)
Fixpoint repeat_str (s : string) (n : nat) : string :=
  match n with
  | O => EmptyString
  | S n' => s ++ repeat_str s n'
  end.

Fixpoint repeat_list {A : Type} (l : list A) (n : nat) : list A :=
  match n with
  | O => []
  | S n' => l ++ repeat_list l n'
  end.

(** [v * d] where [d] is a number: numeric product, or repetition of a
    sequence by an integer. *)
Definition py_mul (v : pyval) (d : num) : result pyval :=
  match as_num v with
  | Some a => num_binop Z.mul PrimFloat.mul a d
  | None =>
      match v, d with
      | VStr s, NInt n => Ok (VStr (repeat_str s (Z.to_nat n)))
      | VList l, NInt n => Ok (VList (repeat_list l (Z.to_nat n)))
      | VStr _, NFloat _ | VList _, NFloat _ =>
          Raise (TypeError "can't multiply sequence by non-int of type 'float'")
      | _, _ => Raise (unsupported "*" v d)
      end
  end.

(** [a - b].  In this module both operands are always numbers (the running
    extrema of [get_bounds]); anything else is a [TypeError]. *)
Definition py_sub (a b : pyval) : result pyval :=
  match as_num a, as_num b with
  | Some x, Some y => num_binop Z.sub PrimFloat.sub x y
  | _, _ =>
      Raise (TypeError ("unsupported operand type(s) for -: '"
                        ++ type_name a ++ "' and '" ++ type_name b ++ "'"))
  end.

(** *** Ordering of numbers

    Python orders numbers by their exact mathematical value, also across
    [int] and [float]; NaN is unordered (every comparison with it is false).
    [xval] is that exact value. *)
Inductive xval : Type :=
| XNaN
| XNegInf
| XFin (q : Q)
| XPosInf.

(** The rational [m * 2^e]. *)
Definition dyadic (m e : Z) : Q :=
  if 0 <=? e then inject_Z (m * 2 ^ e) else Qmake m (Z.to_pos (2 ^ (- e))).

Definition xval_of_float (f : float) : xval :=
  match Prim2SF f with
  | S754_zero _ => XFin 0
  | S754_infinity s => if s then XNegInf else XPosInf
  | S754_nan => XNaN
  | S754_finite s m e => XFin (dyadic (cond_Zopp s (Zpos m)) e)
  end.

Definition xval_of (n : num) : xval :=
  match n with
  | NInt z => XFin (inject_Z z)
  | NFloat f => xval_of_float f
  end.

Definition Qltb (p q : Q) : bool := negb (Qle_bool q p).

Definition xlt (a b : xval) : bool :=
  match a, b with
  | XNaN, _ | _, XNaN => false
  | _, XNegInf => false
  | XNegInf, _ => true
  | XPosInf, _ => false
  | _, XPosInf => true
  | XFin p, XFin q => Qltb p q
  end.

(** [a < b] and [a > b] on objects: defined between numbers, a [TypeError]
    otherwise.  (Strings and lists are ordered among themselves in Python,
    but one side of every comparison made here is a number.) *)
Definition py_cmp (op : string) (swap : bool) (a b : pyval) : result bool :=
  match as_num a, as_num b with
  | Some x, Some y =>
      Ok (if swap then xlt (xval_of y) (xval_of x) else xlt (xval_of x) (xval_of y))
  | _, _ =>
      Raise (TypeError ("'" ++ op ++ "' not supported between instances of '"
                        ++ type_name a ++ "' and '" ++ type_name b ++ "'"))
  end.

Definition py_lt : pyval -> pyval -> result bool := py_cmp "<" false.
Definition py_gt : pyval -> pyval -> result bool := py_cmp ">" true.

(** The built-ins [min(a, b)] and [max(a, b)]: the first argument is kept
    unless the second is strictly smaller (resp. greater). *)
Definition py_min (a b : pyval) : result pyval :=
  c <- py_lt b a ;; Ok (if c then b else a).

Definition py_max (a b : pyval) : result pyval :=
  c <- py_gt b a ;; Ok (if c then b else a).

(** ** Outline model and codec *)

Module Point.

Record t : Type := mk {
  x : pyval;
  y : pyval;
  type : pyval;
  smooth : pyval
}.

Definition to_dict (self : t) : pyval :=
  let result := [("x", x self); ("y", y self)] in
  let result :=
    if ne_line (type self) then (result ++ [("type", type self)])%list
    else result in
  let result :=
    if truthy (smooth self) then (result ++ [("smooth", smooth self)])%list
    else result in
  VDict result.

Definition from_dict (data : pyval) : result t :=
  x <- py_get data "x" (VInt 0) ;;
  y <- py_get data "y" (VInt 0) ;;
  type <- py_get data "type" (VStr "line") ;;
  smooth <- py_get data "smooth" (VBool false) ;;
  Ok (mk x y type smooth).

End Point.

Module Contour.

Record t : Type := mk {
  points : list Point.t;
  is_closed : pyval
}.

Definition to_dict (self : t) : pyval :=
  VDict [("points", VList (map Point.to_dict (points self)));
         ("isClosed", is_closed self)].

Definition from_dict (data : pyval) : result t :=
  items <- py_get data "points" (VList []) ;;
  items <- py_iter items ;;
  points <- mapM Point.from_dict items ;;
  is_closed <- py_get data "isClosed" (VBool false) ;;
  Ok (mk points is_closed).

End Contour.

Module Path.

Record t : Type := mk {
  contours : list Contour.t
}.

Definition to_dict (self : t) : pyval :=
  VDict [("contours", VList (map Contour.to_dict (contours self)))].

Definition from_dict (data : pyval) : result t :=
  items <- py_get data "contours" (VList []) ;;
  items <- py_iter items ;;
  contours <- mapM Contour.from_dict items ;;
  Ok (mk contours).

Definition no_points (c : Contour.t) : bool :=
  match Contour.points c with [] => true | _ => false end.

Definition is_empty (self : t) : bool :=
  match contours self with
  | [] => true
  | cs => forallb no_points cs
  end.

(** The four running extrema of [get_bounds]. *)
Record extrema : Type := mk_extrema {
  min_x : pyval;
  max_x : pyval;
  min_y : pyval;
  max_y : pyval
}.

Definition extrema0 : extrema :=
  mk_extrema (VFloat infinity) (VFloat neg_infinity)
             (VFloat infinity) (VFloat neg_infinity).

Definition bounds_point (e : extrema) (point : Point.t) : result extrema :=
  min_x <- py_min (min_x e) (Point.x point) ;;
  max_x <- py_max (max_x e) (Point.x point) ;;
  min_y <- py_min (min_y e) (Point.y point) ;;
  max_y <- py_max (max_y e) (Point.y point) ;;
  Ok (mk_extrema min_x max_x min_y max_y).

Definition bounds_contour (e : extrema) (contour : Contour.t) : result extrema :=
  foldM bounds_point (Contour.points contour) e.

Definition get_bounds (self : t) : result pyval :=
  if is_empty self then Ok VNone
  else
    e <- foldM bounds_contour (contours self) extrema0 ;;
    width <- py_sub (max_x e) (min_x e) ;;
    height <- py_sub (max_y e) (min_y e) ;;
    Ok (VDict [("xMin", min_x e); ("yMin", min_y e);
               ("xMax", max_x e); ("yMax", max_y e);
               ("width", width); ("height", height)]).

Definition translate_point (dx dy : num) (point : Point.t) : result Point.t :=
  x <- py_add (Point.x point) dx ;;
  y <- py_add (Point.y point) dy ;;
  Ok (Point.mk x y (Point.type point) (Point.smooth point)).

Definition translate_contour (dx dy : num) (contour : Contour.t)
  : result Contour.t :=
  new_points <- mapM (translate_point dx dy) (Contour.points contour) ;;
  Ok (Contour.mk new_points (Contour.is_closed contour)).

Definition translate (self : t) (dx dy : num) : result t :=
  new_contours <- mapM (translate_contour dx dy) (contours self) ;;
  Ok (mk new_contours).

Definition scale_point (sx sy : num) (point : Point.t) : result Point.t :=
  x <- py_mul (Point.x point) sx ;;
  y <- py_mul (Point.y point) sy ;;
  Ok (Point.mk x y (Point.type point) (Point.smooth point)).

Definition scale_contour (sx sy : num) (contour : Contour.t)
  : result Contour.t :=
  new_points <- mapM (scale_point sx sy) (Contour.points contour) ;;
  Ok (Contour.mk new_points (Contour.is_closed contour)).

Definition scale (self : t) (sx sy : num) : result t :=
  new_contours <- mapM (scale_contour sx sy) (contours self) ;;
  Ok (mk new_contours).

End Path.

(** ** Request dispatcher *)

(** [try: ... return r / except Exception as e: return failure envelope] *)
Definition try_except (body : result pyval) : pyval :=
  match body with
  | Ok r => r
  | Raise e => VDict [("success", VBool false); ("error", VStr (str_exn e))]
  end.

Definition count_closed (cs : list Contour.t) : Z :=
  Z.of_nat (List.length (filter (fun c => truthy (Contour.is_closed c)) cs)).

Definition count_points (cs : list Contour.t) : Z :=
  fold_right (fun c n => Z.of_nat (List.length (Contour.points c)) + n) 0 cs.

Module SimpleFontraWASMProcessor.
Section Processor.

(** [json.loads] belongs to the Python standard library: it is a parameter
    of the model, returning the parsed object or raising. *)
Variable json_loads : string -> result pyval.

Definition version : string := "1.0.0-simple".

Definition get_info : pyval :=
  VDict [("version", VStr version);
         ("available", VBool true);
         ("mode", VStr "simple");
         ("capabilities",
          VList [VStr "path_bounds"; VStr "path_translate"; VStr "path_scale";
                 VStr "path_validate"; VStr "path_info"])].

(** [if isinstance(path_data, str): path_data = json.loads(path_data)] *)
Definition parse_input (path_data : pyval) : result pyval :=
  match path_data with
  | VStr s => json_loads s
  | _ => Ok path_data
  end.

Definition path_bounds (path_data : pyval) : pyval :=
  try_except (
    path_data <- parse_input path_data ;;
    path <- Path.from_dict path_data ;;
    bounds <- Path.get_bounds path ;;
    Ok (VDict [("success", VBool true); ("bounds", bounds)])).

Definition path_translate (path_data : pyval) (dx dy : num) : pyval :=
  try_except (
    path_data <- parse_input path_data ;;
    path <- Path.from_dict path_data ;;
    result_path <- Path.translate path dx dy ;;
    Ok (VDict [("success", VBool true); ("path", Path.to_dict result_path)])).

Definition path_scale (path_data : pyval) (sx sy : num) : pyval :=
  try_except (
    path_data <- parse_input path_data ;;
    path <- Path.from_dict path_data ;;
    result_path <- Path.scale path sx sy ;;
    Ok (VDict [("success", VBool true); ("path", Path.to_dict result_path)])).

Definition path_validate (path_data : pyval) : pyval :=
  try_except (
    path_data <- parse_input path_data ;;
    path <- Path.from_dict path_data ;;
    let total_points := count_points (Path.contours path) in
    let closed_contours := count_closed (Path.contours path) in
    let open_contours :=
      Z.of_nat (List.length (Path.contours path)) - closed_contours in
    Ok (VDict [("success", VBool true);
               ("valid", VBool true);
               ("stats",
                VDict [("total_contours",
                        VInt (Z.of_nat (List.length (Path.contours path))));
                       ("closed_contours", VInt closed_contours);
                       ("open_contours", VInt open_contours);
                       ("total_points", VInt total_points);
                       ("is_empty", VBool (Path.is_empty path))])])).

Definition path_info (path_data : pyval) : pyval :=
  try_except (
    path_data <- parse_input path_data ;;
    path <- Path.from_dict path_data ;;
    let validation := path_validate path_data in
    bounds <- Path.get_bounds path ;;
    stats <- py_get validation "stats" (VDict []) ;;
    Ok (VDict [("success", VBool true);
               ("info",
                VDict [("bounds", bounds);
                       ("stats", stats);
                       ("version", VStr version)])])).

End Processor.
End SimpleFontraWASMProcessor.

(** The string-in/string-out entry points.  [json.dumps] is the standard
    library's serializer, total on the objects built here. *)
Section Entry.

Variable json_loads : string -> result pyval.
Variable json_dumps : pyval -> string.

Import SimpleFontraWASMProcessor.

Definition wasm_get_info : string := json_dumps get_info.

Definition wasm_path_bounds (path_json : string) : string :=
  json_dumps (path_bounds json_loads (VStr path_json)).

Definition wasm_path_translate (path_json : string) (dx dy : num) : string :=
  json_dumps (path_translate json_loads (VStr path_json) dx dy).

Definition wasm_path_scale (path_json : string) (sx sy : num) : string :=
  json_dumps (path_scale json_loads (VStr path_json) sx sy).

Definition wasm_path_validate (path_json : string) : string :=
  json_dumps (path_validate json_loads (VStr path_json)).

Definition wasm_path_info (path_json : string) : string :=
  json_dumps (path_info json_loads (VStr path_json)).

End Entry.

(** * Vocabulary of the statements

    Everything below is used to state and prove properties; none of it is
    part of the program. *)

(** ** Records and envelopes *)

(** Reading a field of an object that is expected to be a mapping. *)
Definition field (v : pyval) (k : string) : option pyval :=
  match v with
  | VDict d => lookup k d
  | _ => None
  end.

Definition default (o : option pyval) (d : pyval) : pyval :=
  match o with
  | Some v => v
  | None => d
  end.

(** The failure envelope: [success] is false and [error] is the only other
    field. *)
Definition failure (msg : string) : pyval :=
  VDict [("success", VBool false); ("error", VStr msg)].


(** The bounding box record. *)
Definition bounding_box (xMin yMin xMax yMax width height : pyval) : pyval :=
  VDict [("xMin", xMin); ("yMin", yMin); ("xMax", xMax); ("yMax", yMax);
         ("width", width); ("height", height)].

(** ** Decoding *)

(** The point a mapping decodes to: every field read with its default. *)
Definition point_of (d : list (string * pyval)) : Point.t :=
  Point.mk (default (lookup "x" d) (VInt 0))
           (default (lookup "y" d) (VInt 0))
           (default (lookup "type" d) (VStr "line"))
           (default (lookup "smooth" d) (VBool false)).

Definition is_dict (v : pyval) : bool :=
  match v with VDict _ => true | _ => false end.



(** *** Agreement of two inputs on the schema keys

    Two objects agree when they are the same object, or when they are
    mappings that agree on the keys decode reads, level by level. *)
Inductive agree_seq (R : pyval -> pyval -> Prop)
  : option pyval -> option pyval -> Prop :=
| agree_seq_same (o : option pyval) : agree_seq R o o
| agree_seq_list (l1 l2 : list pyval) :
    Forall2 R l1 l2 -> agree_seq R (Some (VList l1)) (Some (VList l2)).

Inductive agree_point : pyval -> pyval -> Prop :=
| agree_point_same (v : pyval) : agree_point v v
| agree_point_dict (d1 d2 : list (string * pyval)) :
    lookup "x" d1 = lookup "x" d2 ->
    lookup "y" d1 = lookup "y" d2 ->
    lookup "type" d1 = lookup "type" d2 ->
    lookup "smooth" d1 = lookup "smooth" d2 ->
    agree_point (VDict d1) (VDict d2).

Inductive agree_contour : pyval -> pyval -> Prop :=
| agree_contour_same (v : pyval) : agree_contour v v
| agree_contour_dict (d1 d2 : list (string * pyval)) :
    lookup "isClosed" d1 = lookup "isClosed" d2 ->
    agree_seq agree_point (lookup "points" d1) (lookup "points" d2) ->
    agree_contour (VDict d1) (VDict d2).

Definition agree_outline (d1 d2 : list (string * pyval)) : Prop :=
  agree_seq agree_contour (lookup "contours" d1) (lookup "contours" d2).

(** ** Structure of an outline *)

(** What [translate] and [scale] must leave alone: per contour its
    [is_closed] flag and, per point, the segment type and the smooth flag. *)
Definition skeleton (o : Path.t) : list (pyval * list (pyval * pyval)) :=
  map (fun c => (Contour.is_closed c,
                 map (fun p => (Point.type p, Point.smooth p)) (Contour.points c)))
      (Path.contours o).

Definition point_counts (o : Path.t) : list nat :=
  map (fun c => List.length (Contour.points c)) (Path.contours o).

(** The coordinates of an outline, in iteration order. *)
Definition x_coords (o : Path.t) : list pyval :=
  flat_map (fun c => map Point.x (Contour.points c)) (Path.contours o).

Definition y_coords (o : Path.t) : list pyval :=
  flat_map (fun c => map Point.y (Contour.points c)) (Path.contours o).

Definition all_coords (P : pyval -> bool) (o : Path.t) : bool :=
  forallb (fun c => forallb (fun p => P (Point.x p) && P (Point.y p))
                            (Contour.points c))
          (Path.contours o).

(** [translate] and [scale] differ only in the operation applied to the
    coordinates: both are instances of these two loops. *)
Definition transform_point (op : pyval -> num -> result pyval) (a b : num)
  (point : Point.t) : result Point.t :=
  x <- op (Point.x point) a ;;
  y <- op (Point.y point) b ;;
  Ok (Point.mk x y (Point.type point) (Point.smooth point)).

Definition transform_contour (op : pyval -> num -> result pyval) (a b : num)
  (contour : Contour.t) : result Contour.t :=
  new_points <- mapM (transform_point op a b) (Contour.points contour) ;;
  Ok (Contour.mk new_points (Contour.is_closed contour)).

(** ** Kinds of numbers *)

Definition numeric (a : pyval) : bool :=
  match as_num a with Some _ => true | None => false end.

Definition is_float (a : pyval) : bool :=
  match a with VFloat _ => true | _ => false end.

(** An integer coordinate ([bool] counts as [int]) and its value. *)
Definition int_like (v : pyval) : bool :=
  match v with
  | VInt _ | VBool _ => true
  | _ => false
  end.

Definition int_of (v : pyval) : Z :=
  match as_num v with
  | Some (NInt z) => z
  | _ => 0
  end.

Definition is_nan (a : pyval) : bool :=
  match as_num a with
  | Some x => match xval_of x with XNaN => true | _ => false end
  | None => false
  end.

(** A finite number: an integer, or a float that is neither NaN nor
    infinite. *)
Definition finite (a : pyval) : bool :=
  match as_num a with
  | Some x => match xval_of x with XFin _ => true | _ => false end
  | None => false
  end.

(** A coordinate that float arithmetic accepts: a float, or an integer
    (or boolean) within the range of floats. *)
Definition float_ready (v : pyval) : bool :=
  match as_num v with
  | Some n => match to_float n with Ok _ => true | Raise _ => false end
  | None => false
  end.




(** ** Comparisons on objects, as booleans

    [vlt a b] is [a < b] when both are numbers ([false] otherwise, where
    Python raises); [vle a b] is [a <= b] and [veq a b] is [a == b] between
    numbers.  All three are false when an operand is NaN. *)
Definition vlt (a b : pyval) : bool :=
  match as_num a, as_num b with
  | Some x, Some y => xlt (xval_of x) (xval_of y)
  | _, _ => false
  end.

Definition vgt (a b : pyval) : bool := vlt b a.

Definition vle (a b : pyval) : bool :=
  numeric a && numeric b && negb (is_nan a) && negb (is_nan b) && negb (vlt b a).

Definition veq (a b : pyval) : bool := vle a b && vle b a.

(** The zero that [v - v] gives for a finite number [v]: a float zero for a
    float, the integer zero otherwise. *)
Definition zero_of (v : pyval) : pyval :=
  if is_float v then VFloat 0 else VInt 0.

(** ** Extrema *)

(** The extremum kept by a loop [m = min(m, x)] (or [max]) for an ordering
    [lt]: the newcomer replaces the current value when strictly before it. *)
Definition pick (lt : pyval -> pyval -> bool) (m x : pyval) : pyval :=
  if lt x m then x else m.

(** [min] and [max] of the running extremum and a coordinate, when the
    comparison does not raise. *)
Definition vmin (m x : pyval) : pyval := if vlt x m then x else m.
Definition vmax (m x : pyval) : pyval := if vlt m x then x else m.

(** One iteration of the loop of [get_bounds] when no comparison raises,
    and the whole loop. *)
Definition extrema_step (e : Path.extrema) (p : Point.t) : Path.extrema :=
  Path.mk_extrema (vmin (Path.min_x e) (Point.x p)) (vmax (Path.max_x e) (Point.x p))
                  (vmin (Path.min_y e) (Point.y p)) (vmax (Path.max_y e) (Point.y p)).

Definition extrema_loop (cs : list Contour.t) (e : Path.extrema) : Path.extrema :=
  fold_left (fun e c => fold_left extrema_step (Contour.points c) e) cs e.

Definition numeric_extrema (e : Path.extrema) : Prop :=
  numeric (Path.min_x e) = true /\ numeric (Path.max_x e) = true /\
  numeric (Path.min_y e) = true /\ numeric (Path.max_y e) = true.

(** [m] is a minimum (maximum) of the values [vs]: it is one of them and
    no value is below (above) it. *)
Definition is_min (m : pyval) (vs : list pyval) : Prop :=
  In m vs /\ forall v, In v vs -> vle m v = true.

Definition is_max (m : pyval) (vs : list pyval) : Prop :=
  In m vs /\ forall v, In v vs -> vle v m = true.

(** The values along one axis for which the subtraction [max - min] is
    defined: all integers, or all usable in float arithmetic. *)
Definition axis_ok (vs : list pyval) : bool :=
  forallb int_like vs || forallb float_ready vs.


(** ** Integer translation *)

(** The outline shifted by integer offsets. *)
Definition shift_point (a b : Z) (p : Point.t) : Point.t :=
  Point.mk (VInt (int_of (Point.x p) + a)) (VInt (int_of (Point.y p) + b))
           (Point.type p) (Point.smooth p).

Definition shift_contour (a b : Z) (c : Contour.t) : Contour.t :=
  Contour.mk (map (shift_point a b) (Contour.points c)) (Contour.is_closed c).

Definition shift (a b : Z) (o : Path.t) : Path.t :=
  Path.mk (map (shift_contour a b) (Path.contours o)).

(** ** Concrete inputs *)

(** A [json.loads] that rejects every string, with the error [json.loads]
    gives for an input that does not start a JSON value.  Callers that pass
    an already parsed mapping never reach it. *)
Definition loads_reject : string -> result pyval :=
  fun _ => Raise (JSONDecodeError "Expecting value" 1 1 0).

(** A [json.loads] known on finitely many texts. *)
Definition loads_table (table : list (string * pyval)) : string -> result pyval :=
  fun s =>
    match lookup s table with
    | Some v => Ok v
    | None => loads_reject s
    end.

(** The square outline of the examples, as a mapping and decoded. *)
Definition pt (a b : Z) : pyval := VDict [("x", VInt a); ("y", VInt b)].

Definition square : pyval :=
  VDict [("contours",
          VList [VDict [("points", VList [pt 0 0; pt 100 0; pt 100 100; pt 0 100]);
                        ("isClosed", VBool true)]])].

Definition square_path : Path.t :=
  Path.mk [Contour.mk [Point.mk (VInt 0) (VInt 0) (VStr "line") (VBool false);
                       Point.mk (VInt 100) (VInt 0) (VStr "line") (VBool false);
                       Point.mk (VInt 100) (VInt 100) (VStr "line") (VBool false);
                       Point.mk (VInt 0) (VInt 100) (VStr "line") (VBool false)]
                      (VBool true)].

(** The outline with the single point [(x, y)]. *)
Definition single_point (x y : pyval) : Path.t :=
  Path.mk [Contour.mk [Point.mk x y (VStr "line") (VBool false)] (VBool false)].

(** An outline mixing float and integer coordinates. *)
Definition mixed_path : Path.t :=
  Path.mk [Contour.mk [Point.mk (VFloat 0.5) (VFloat 1.5) (VStr "line") (VBool false);
                       Point.mk (VInt 2) (VInt (-1)) (VStr "curve") (VBool true)]
                      (VBool false)].

(** An outline whose x coordinates are the integer [2^53 + 1], which no
    float represents, and the float [2^53]. *)
Definition wide_path : Path.t :=
  Path.mk [Contour.mk [Point.mk (VInt 9007199254740993) (VFloat 1.5)
                                (VStr "line") (VBool false);
                       Point.mk (VFloat 9007199254740992) (VInt (-1))
                                (VStr "line") (VBool false)]
                      (VBool true)].

(** Two JSON texts and the mappings they parse to: the second carries an
    unrecognised key at every level. *)
Definition quoted (s : string) : string := dquote ++ s ++ dquote.

Definition text_plain : string :=
  "{" ++ quoted "contours" ++ ":[{" ++ quoted "points" ++ ":[{"
      ++ quoted "x" ++ ":1}]}]}".

Definition text_extra : string :=
  "{" ++ quoted "name" ++ ":7," ++ quoted "contours" ++ ":[{"
      ++ quoted "id" ++ ":null," ++ quoted "points" ++ ":[{"
      ++ quoted "x" ++ ":1," ++ quoted "on" ++ ":true}]}]}".

Definition mapping_plain : list (string * pyval) :=
  [("contours", VList [VDict [("points", VList [VDict [("x", VInt 1)]])]])].

Definition mapping_extra : list (string * pyval) :=
  [("name", VInt 7);
   ("contours",
    VList [VDict [("id", VNone);
                  ("points", VList [VDict [("x", VInt 1); ("on", VBool true)]])]])].

(** * Vocabulary of the further properties *)

(** ** What decode accepts *)

(** A sequence as decode iterates it: a list whose items are all
    acceptable.  The empty text and the empty mapping are iterable too and
    yield nothing; their non-empty forms yield texts, which no item
    accepts. *)
Definition accepts_seq (item : pyval -> bool) (v : pyval) : bool :=
  match v with
  | VList l => forallb item l
  | VStr EmptyString => true
  | VDict [] => true
  | _ => false
  end.

Definition accepts_field (item : pyval -> bool) (o : option pyval) : bool :=
  match o with
  | None => true
  | Some v => accepts_seq item v
  end.

Definition accepts_contour (v : pyval) : bool :=
  match v with
  | VDict d => accepts_field is_dict (lookup "points" d)
  | _ => false
  end.

Definition accepts_outline (v : pyval) : bool :=
  match v with
  | VDict d => accepts_field accepts_contour (lookup "contours" d)
  | _ => false
  end.

(** The two exceptions decode can raise, on the object [v] at fault. *)
Definition no_get (v : pyval) : exn :=
  AttributeError ("'" ++ type_name v ++ "' object has no attribute 'get'").

Definition not_iterable (v : pyval) : exn :=
  TypeError ("'" ++ type_name v ++ "' object is not iterable").

(** [None], booleans and numbers: the objects that cannot be iterated. *)
Definition scalar (v : pyval) : bool :=
  match v with
  | VNone | VBool _ | VInt _ | VFloat _ => true
  | _ => false
  end.

(** ** What the codec normalises *)

(** Encoding drops a falsy [smooth]; decoding reads the absent key as
    [False]. *)
Definition normal_smooth (s : pyval) : pyval :=
  if truthy s then s else VBool false.

Definition normal_point (p : Point.t) : Point.t :=
  Point.mk (Point.x p) (Point.y p) (Point.type p) (normal_smooth (Point.smooth p)).

Definition normal_contour (c : Contour.t) : Contour.t :=
  Contour.mk (map normal_point (Contour.points c)) (Contour.is_closed c).

Definition normal (o : Path.t) : Path.t :=
  Path.mk (map normal_contour (Path.contours o)).

(** A [smooth] value the codec keeps: a truthy one, or [False] itself. *)
Definition kept_smooth (s : pyval) : bool :=
  truthy s || match s with VBool false => true | _ => false end.

Definition all_points (P : Point.t -> bool) (o : Path.t) : bool :=
  forallb (fun c => forallb P (Contour.points c)) (Path.contours o).

(** The exceptions of decode, with the object at fault. *)
Definition decode_fault (e : exn) : Prop :=
  exists u, (is_dict u = false /\ e = no_get u) \/
            (scalar u = true /\ e = not_iterable u).

(** ** Statistics *)

(** The statistics record [path_validate] builds for a decoded outline. *)
Definition statistics (o : Path.t) : pyval :=
  VDict [("total_contours", VInt (Z.of_nat (List.length (Path.contours o))));
         ("closed_contours", VInt (count_closed (Path.contours o)));
         ("open_contours",
          VInt (Z.of_nat (List.length (Path.contours o))
                - count_closed (Path.contours o)));
         ("total_points", VInt (count_points (Path.contours o)));
         ("is_empty", VBool (Path.is_empty o))].

(** The success envelopes of the methods. *)
Definition success (payload : list (string * pyval)) : pyval :=
  VDict (("success", VBool true) :: payload).

(** ** Integer scaling *)

(** The outline stretched by integer factors. *)
Definition stretch_point (a b : Z) (p : Point.t) : Point.t :=
  Point.mk (VInt (int_of (Point.x p) * a)) (VInt (int_of (Point.y p) * b))
           (Point.type p) (Point.smooth p).

Definition stretch_contour (a b : Z) (c : Contour.t) : Contour.t :=
  Contour.mk (map (stretch_point a b) (Contour.points c)) (Contour.is_closed c).

Definition stretch (a b : Z) (o : Path.t) : Path.t :=
  Path.mk (map (stretch_contour a b) (Path.contours o)).

(** An integer coordinate sent through a function on its value. *)
Definition on_int (g : Z -> Z) (v : pyval) : pyval := VInt (g (int_of v)).

(** ** What [get_bounds] can raise *)

(** The [TypeError] of the comparison [v < m] made by [min(m, v)]. *)
Definition not_comparable (v m : pyval) : exn :=
  TypeError ("'<' not supported between instances of '" ++ type_name v
             ++ "' and '" ++ type_name m ++ "'").

Definition int_too_large : exn :=
  OverflowError "int too large to convert to float".

(** ** Kinds of coordinates *)

(** An [int] or a [float] proper (not a [bool]). *)
Definition is_number (v : pyval) : bool :=
  match v with
  | VInt _ | VFloat _ => true
  | _ => false
  end.

(** A text or a list: the sequences [*] repeats. *)
Definition is_sequence (v : pyval) : bool :=
  match v with
  | VStr _ | VList _ => true
  | _ => false
  end.

(** The float [-0.0]. *)
Definition is_neg_zero (v : pyval) : bool :=
  match v with
  | VFloat f => match Prim2SF f with S754_zero true => true | _ => false end
  | _ => false
  end.

(** A number within the range of floats: a float, or an integer (or
    boolean) that does not round to [2^1024] or beyond. *)
Definition in_float_range (v : pyval) : bool :=
  match as_num v with
  | Some (NInt z) => Z.abs z <? 2 ^ 1024 - 2 ^ 970
  | Some (NFloat _) => true
  | None => false
  end.

(** ** What [get_bounds] looks at *)

(** The points of an outline as coordinate pairs, in iteration order. *)
Definition coords (o : Path.t) : list (pyval * pyval) :=
  flat_map (fun c => map (fun p => (Point.x p, Point.y p)) (Contour.points c))
           (Path.contours o).

(** An [int] proper. *)
Definition is_int (v : pyval) : bool :=
  match v with
  | VInt _ => true
  | _ => false
  end.

(** An outline mapping of the right shape whose point has a text for [x]. *)
Definition text_coordinate : pyval :=
  VDict [("contours", VList [VDict [("points", VList [VDict [("x", VStr "a")]])]])].

(** ** Error messages *)



(** * Properties *)

Import SimpleFontraWASMProcessor.

(** ** Generic facts about the result monad *)

Lemma bind_Ok {A B : Type} (m : result A) (k : A -> result B) (b : B) :
  bind m k = Ok b -> exists a, m = Ok a /\ k a = Ok b.
Proof.
  destruct m as [a|e]; simpl; intros H; [exists a; auto | discriminate].
Qed.

Lemma mapM_Ok_Forall2 {A B : Type} (f : A -> result B) :
  forall l l', mapM f l = Ok l' -> Forall2 (fun a b => f a = Ok b) l l'.
Proof.
  induction l as [|a l IH]; simpl; intros l' H.
  - injection H as <-. constructor.
  - apply bind_Ok in H as (b & Hb & H).
    apply bind_Ok in H as (bs & Hbs & H).
    injection H as <-. constructor; auto.
Qed.

Lemma mapM_total {A B : Type} (f : A -> result B) (g : A -> B) :
  forall l, Forall (fun a => f a = Ok (g a)) l -> mapM f l = Ok (map g l).
Proof.
  induction 1 as [|a l Ha _ IH]; simpl; [reflexivity|].
  now rewrite Ha, IH.
Qed.

Lemma py_get_dict (d : list (string * pyval)) (k : string) (v : pyval) :
  py_get (VDict d) k v = Ok (default (lookup k d) v).
Proof. unfold py_get, default. now destruct (lookup k d). Qed.

Lemma ne_line_false (v : pyval) : ne_line v = false <-> v = VStr "line".
Proof.
  split.
  - destruct v; simpl; try discriminate.
    intros H. apply negb_false_iff, String.eqb_eq in H. now subst.
  - intros ->. reflexivity.
Qed.

(** ** Validate *)

(** C1, as stated, fails: the statistics record of [path_validate] on the
    square outline has no field named [totalContours] (nor any other of the
    camelCase names), so it is not the record
    [{totalContours:1, closedContours:1, openContours:0, totalPoints:4,
    isEmpty:false}]. *)
Lemma validate_square_not_camel_case :
  ~ (exists stats,
        field (path_validate loads_reject square) "stats" = Some stats /\
        field stats "totalContours" = Some (VInt 1) /\
        field stats "closedContours" = Some (VInt 1) /\
        field stats "openContours" = Some (VInt 0) /\
        field stats "totalPoints" = Some (VInt 4) /\
        field stats "isEmpty" = Some (VBool false)).
Proof.
  intros (stats & Hs & Ht & _).
  vm_compute in Hs. injection Hs as <-.
  vm_compute in Ht. discriminate.
Qed.

(** C1 (amended): for the single-contour closed square outline,
    [path_validate] returns the success envelope
    [{success: true, valid: true, stats: {total_contours: 1,
    closed_contours: 1, open_contours: 0, total_points: 4, is_empty: false}}]:
    the statistics are the stated ones, under snake_case field names; the
    entry point returns its serialization for any text that parses to the
    outline. *)
Theorem validate_square :
  forall json_loads,
    path_validate json_loads square =
      VDict [("success", VBool true);
             ("valid", VBool true);
             ("stats",
              VDict [("total_contours", VInt 1);
                     ("closed_contours", VInt 1);
                     ("open_contours", VInt 0);
                     ("total_points", VInt 4);
                     ("is_empty", VBool false)])] /\
    forall json_dumps s,
      json_loads s = Ok square ->
      wasm_path_validate json_loads json_dumps s =
        json_dumps (path_validate json_loads square).
Proof.
  intros json_loads. split; [reflexivity|].
  intros json_dumps s H. unfold wasm_path_validate, path_validate. simpl.
  now rewrite H.
Qed.

(** ** Codec *)

Lemma Point_from_dict_dict (d : list (string * pyval)) :
  Point.from_dict (VDict d) = Ok (point_of d).
Proof. unfold Point.from_dict. now rewrite !py_get_dict. Qed.

(** The encoding of a point, spelled out by cases. *)
Lemma Point_to_dict_cases (p : Point.t) :
  Point.to_dict p =
  VDict ([("x", Point.x p); ("y", Point.y p)]
           ++ (if ne_line (Point.type p) then [("type", Point.type p)] else [])
           ++ (if truthy (Point.smooth p) then [("smooth", Point.smooth p)] else [])).
Proof.
  unfold Point.to_dict.
  now destruct (ne_line (Point.type p)), (truthy (Point.smooth p)).
Qed.

(** C6: [encode] is [map]ped over contours and points; in the encoding of a
    point the key [type] is absent exactly when the segment type is the
    default [line] and otherwise carries the point's type; the key [smooth]
    is absent exactly when [smooth] is false (falsy) and otherwise carries
    the point's value.  For a boolean [smooth] that is: absent for [False],
    present for [True]. *)
Theorem encode_omits_defaults :
  forall o : Path.t,
    Path.to_dict o =
      VDict [("contours",
              VList (map (fun c =>
                       VDict [("points",
                               VList (map Point.to_dict (Contour.points c)));
                              ("isClosed", Contour.is_closed c)])
                     (Path.contours o)))] /\
    forall p : Point.t,
      (field (Point.to_dict p) "type" = None <-> Point.type p = VStr "line") /\
      (Point.type p <> VStr "line" ->
         field (Point.to_dict p) "type" = Some (Point.type p)) /\
      (field (Point.to_dict p) "smooth" = None <-> truthy (Point.smooth p) = false) /\
      (truthy (Point.smooth p) = true ->
         field (Point.to_dict p) "smooth" = Some (Point.smooth p)) /\
      (forall b, Point.smooth p = VBool b ->
         field (Point.to_dict p) "smooth" = if b then Some (VBool true) else None).
Proof.
  intros o. split; [reflexivity|].
  intros [x y t s]. rewrite Point_to_dict_cases. simpl.
  destruct (ne_line t) eqn:Ht; destruct (truthy s) eqn:Hs; simpl;
    repeat split; try congruence; intros.
  all: try (apply ne_line_false in Ht); try congruence.
  all: try (exfalso; apply ne_line_false in H; congruence).
  all: try (subst s; simpl in Hs; subst b; reflexivity).
Qed.








(** Decoding the encoding of a point gives back the point, up to a falsy
    [smooth] being normalised to [False]. *)
Lemma Point_decode_encode (p : Point.t) :
  Point.from_dict (Point.to_dict p) =
  Ok (Point.mk (Point.x p) (Point.y p) (Point.type p)
               (if truthy (Point.smooth p) then Point.smooth p else VBool false)).
Proof.
  destruct p as [x y t s]. rewrite Point_to_dict_cases. simpl.
  rewrite Point_from_dict_dict. unfold point_of. simpl.
  destruct (ne_line t) eqn:Ht; destruct (truthy s) eqn:Hs; simpl;
    try reflexivity; apply ne_line_false in Ht; now subst.
Qed.

Lemma Point_roundtrip (p : Point.t) :
  exists p', Point.from_dict (Point.to_dict p) = Ok p' /\
             Point.to_dict p' = Point.to_dict p.
Proof.
  eexists. split; [apply Point_decode_encode|].
  destruct p as [x y t s]. unfold Point.to_dict. simpl.
  destruct (truthy s) eqn:Hs; [now rewrite Hs | reflexivity].
Qed.

Lemma Points_roundtrip (ps : list Point.t) :
  exists ps', mapM Point.from_dict (map Point.to_dict ps) = Ok ps' /\
              map Point.to_dict ps' = map Point.to_dict ps.
Proof.
  induction ps as [|p ps (ps' & H1 & H2)]; simpl.
  - exists []. auto.
  - destruct (Point_roundtrip p) as (p' & Hp1 & Hp2).
    exists (p' :: ps'). rewrite Hp1, H1. simpl. now rewrite Hp2, H2.
Qed.

Lemma Contour_roundtrip (c : Contour.t) :
  exists c', Contour.from_dict (Contour.to_dict c) = Ok c' /\
             Contour.to_dict c' = Contour.to_dict c.
Proof.
  destruct c as [ps ic]. unfold Contour.from_dict, Contour.to_dict. simpl.
  destruct (Points_roundtrip ps) as (ps' & H1 & H2).
  rewrite H1. simpl. eexists. split; [reflexivity|]. simpl. now rewrite H2.
Qed.

Lemma Contours_roundtrip (cs : list Contour.t) :
  exists cs', mapM Contour.from_dict (map Contour.to_dict cs) = Ok cs' /\
              map Contour.to_dict cs' = map Contour.to_dict cs.
Proof.
  induction cs as [|c cs (cs' & H1 & H2)]; simpl.
  - exists []. auto.
  - destruct (Contour_roundtrip c) as (c' & Hc1 & Hc2).
    exists (c' :: cs'). rewrite Hc1, H1. simpl. now rewrite Hc2, H2.
Qed.

(** Encoding is stable under one more decode/encode, for every outline. *)
Lemma Path_roundtrip (o : Path.t) :
  exists o', Path.from_dict (Path.to_dict o) = Ok o' /\
             Path.to_dict o' = Path.to_dict o.
Proof.
  destruct o as [cs]. unfold Path.from_dict, Path.to_dict. simpl.
  destruct (Contours_roundtrip cs) as (cs' & H1 & H2).
  rewrite H1. simpl. eexists. split; [reflexivity|]. simpl. now rewrite H2.
Qed.

(** C5: for any outline [o] produced by [decode], decoding [encode o]
    succeeds and encoding the result gives [encode o] again:
    [encode (decode (encode o)) = encode o]. *)
Theorem codec_roundtrip :
  forall (m : pyval) (o : Path.t),
    Path.from_dict m = Ok o ->
    exists o', Path.from_dict (Path.to_dict o) = Ok o' /\
               Path.to_dict o' = Path.to_dict o.
Proof. intros m o _. apply Path_roundtrip. Qed.

Lemma codec_roundtrip_witness :
  Path.from_dict square = Ok square_path /\
  exists o', Path.from_dict (Path.to_dict square_path) = Ok o' /\
             Path.to_dict o' = Path.to_dict square_path.
Proof.
  split; [reflexivity|].
  apply (codec_roundtrip square). reflexivity.
Defined.

(** ** Translate and scale *)

Section Transform.

Variable op : pyval -> num -> result pyval.

Lemma transform_points_attrs (a b : num) (ps ps' : list Point.t) :
  mapM (transform_point op a b) ps = Ok ps' ->
  map (fun p => (Point.type p, Point.smooth p)) ps' =
  map (fun p => (Point.type p, Point.smooth p)) ps.
Proof.
  intros H. apply mapM_Ok_Forall2 in H.
  induction H as [|p p' ps ps' Hp _ IH]; simpl; [reflexivity|].
  unfold transform_point in Hp.
  apply bind_Ok in Hp as (x & _ & Hp). apply bind_Ok in Hp as (y & _ & Hp).
  injection Hp as <-. simpl. now rewrite IH.
Qed.

Lemma transform_skeleton (a b : num) (cs cs' : list Contour.t) :
  mapM (transform_contour op a b) cs = Ok cs' ->
  skeleton (Path.mk cs') = skeleton (Path.mk cs).
Proof.
  intros H. apply mapM_Ok_Forall2 in H. unfold skeleton. simpl.
  induction H as [|c c' cs cs' Hc _ IH]; simpl; [reflexivity|].
  unfold transform_contour in Hc. apply bind_Ok in Hc as (ps' & Hps & Hc).
  injection Hc as <-. simpl.
  now rewrite (transform_points_attrs _ _ _ _ Hps), IH.
Qed.

Hypothesis op_float_ready :
  forall v f, float_ready v = true -> exists w, op v (NFloat f) = Ok w.

Lemma transform_total (f g : float) (cs : list Contour.t) :
  all_coords float_ready (Path.mk cs) = true ->
  exists cs', mapM (transform_contour op (NFloat f) (NFloat g)) cs = Ok cs'.
Proof.
  unfold all_coords. simpl.
  induction cs as [|c cs IH]; simpl; intros H; [now exists []|].
  apply andb_true_iff in H as [Hc Hcs].
  destruct (IH Hcs) as (cs' & Hcs').
  assert (exists ps', mapM (transform_point op (NFloat f) (NFloat g))
                           (Contour.points c) = Ok ps') as (ps' & Hps').
  { clear -Hc op_float_ready. induction (Contour.points c) as [|p ps IHp];
      simpl in *; [now exists []|].
    apply andb_true_iff in Hc as [Hp Hps].
    apply andb_true_iff in Hp as [Hx Hy].
    destruct (IHp Hps) as (ps' & ->).
    unfold transform_point at 1.
    destruct (op_float_ready _ f Hx) as (x & ->).
    destruct (op_float_ready _ g Hy) as (y & ->). simpl. eauto. }
  unfold transform_contour at 1. rewrite Hps'. simpl. rewrite Hcs'. simpl. eauto.
Qed.

End Transform.

Lemma skeleton_counts (o o' : Path.t) :
  skeleton o' = skeleton o ->
  List.length (Path.contours o') = List.length (Path.contours o) /\
  point_counts o' = point_counts o.
Proof.
  unfold skeleton, point_counts. intros H. split.
  - apply (f_equal (@List.length _)) in H. now rewrite !length_map in H.
  - revert H. generalize (Path.contours o). generalize (Path.contours o').
    induction l as [|c' l IH]; intros [|c l0]; simpl; intros H;
      try discriminate; [reflexivity|].
    injection H as _ Hps Hl. f_equal; [|now apply IH].
    apply (f_equal (@List.length _)) in Hps. now rewrite !length_map in Hps.
Qed.

Lemma num_binop_float_ready opz opf (v : pyval) (f : float) :
  float_ready v = true ->
  exists w, match as_num v with
            | Some a => num_binop opz opf a (NFloat f)
            | None => Raise (TypeError EmptyString)
            end = Ok w.
Proof.
  unfold float_ready. destruct (as_num v) as [a|]; [|discriminate].
  destruct (to_float a) as [x|e] eqn:Ha; [|discriminate]. intros _.
  unfold num_binop. destruct a; rewrite Ha; simpl; eauto.
Qed.

Lemma py_add_float_ready (v : pyval) (f : float) :
  float_ready v = true -> exists w, py_add v (NFloat f) = Ok w.
Proof.
  intros H. destruct (num_binop_float_ready Z.add PrimFloat.add v f H) as (w & Hw).
  exists w. unfold py_add. destruct (as_num v); [exact Hw | discriminate].
Qed.

Lemma py_mul_float_ready (v : pyval) (f : float) :
  float_ready v = true -> exists w, py_mul v (NFloat f) = Ok w.
Proof.
  intros H. destruct (num_binop_float_ready Z.mul PrimFloat.mul v f H) as (w & Hw).
  exists w. unfold py_mul. destruct (as_num v); [exact Hw | discriminate].
Qed.

(** C8: [translate] and [scale] are structure-preserving.  Whatever outline
    they return has the same contour count, the same point count in each
    contour, the same [is_closed] flag on each contour and the same segment
    type and smooth value on each point as the input; and on an outline
    with float (or float-convertible) coordinates they do return an
    outline, for all float parameters. *)
Theorem translate_scale_preserve_structure :
  forall (o : Path.t) (a b : num),
    (forall o', Path.translate o a b = Ok o' \/ Path.scale o a b = Ok o' ->
       skeleton o' = skeleton o /\
       List.length (Path.contours o') = List.length (Path.contours o) /\
       point_counts o' = point_counts o) /\
    (all_coords float_ready o = true ->
     forall f g : float,
       (exists o', Path.translate o (NFloat f) (NFloat g) = Ok o') /\
       (exists o', Path.scale o (NFloat f) (NFloat g) = Ok o')).
Proof.
  intros [cs] a b. split.
  - intros [cs'] H.
    assert (skeleton (Path.mk cs') = skeleton (Path.mk cs)) as Hs.
    { destruct H as [H|H].
      - unfold Path.translate in H. apply bind_Ok in H as (l & Hl & H).
        injection H as <-. exact (transform_skeleton py_add a b cs l Hl).
      - unfold Path.scale in H. apply bind_Ok in H as (l & Hl & H).
        injection H as <-. exact (transform_skeleton py_mul a b cs l Hl). }
    split; [exact Hs | now apply skeleton_counts].
  - intros H f g. split.
    + destruct (transform_total py_add py_add_float_ready f g cs H) as (cs' & Hcs').
      exists (Path.mk cs'). unfold Path.translate. simpl.
      change (mapM (Path.translate_contour (NFloat f) (NFloat g)) cs)
        with (mapM (transform_contour py_add (NFloat f) (NFloat g)) cs).
      now rewrite Hcs'.
    + destruct (transform_total py_mul py_mul_float_ready f g cs H) as (cs' & Hcs').
      exists (Path.mk cs'). unfold Path.scale. simpl.
      change (mapM (Path.scale_contour (NFloat f) (NFloat g)) cs)
        with (mapM (transform_contour py_mul (NFloat f) (NFloat g)) cs).
      now rewrite Hcs'.
Qed.

Lemma translate_scale_preserve_structure_witness :
  exists o1 o2,
    Path.translate mixed_path (NFloat 1.5) (NFloat 2) = Ok o1 /\
    Path.scale mixed_path (NFloat 1.5) (NFloat 2) = Ok o2 /\
    skeleton o1 = skeleton mixed_path /\ skeleton o2 = skeleton mixed_path /\
    point_counts o1 = [2%nat] /\ point_counts o2 = [2%nat].
Proof.
  destruct (translate_scale_preserve_structure mixed_path (NFloat 1.5) (NFloat 2))
    as (S & T).
  destruct (T eq_refl 1.5%float 2%float) as ((o1 & H1) & (o2 & H2)).
  exists o1, o2.
  destruct (S o1 (or_introl H1)) as (S1 & _ & C1).
  destruct (S o2 (or_intror H2)) as (S2 & _ & C2).
  repeat split; auto.
Defined.

(** ** Decode reads the schema keys only *)

Lemma mapM_Forall2 {A B : Type} (f : A -> result B) (R : A -> A -> Prop) :
  (forall a a', R a a' -> f a = f a') ->
  forall l l', Forall2 R l l' -> mapM f l = mapM f l'.
Proof.
  intros HR l l' H. induction H as [|a a' l l' Ha _ IH]; simpl; [reflexivity|].
  now rewrite (HR _ _ Ha), IH.
Qed.

Lemma Point_from_dict_agree (v1 v2 : pyval) :
  agree_point v1 v2 -> Point.from_dict v1 = Point.from_dict v2.
Proof.
  intros [v|d1 d2 Hx Hy Ht Hs]; [reflexivity|].
  rewrite !Point_from_dict_dict. unfold point_of. now rewrite Hx, Hy, Ht, Hs.
Qed.

Lemma Contour_from_dict_agree (v1 v2 : pyval) :
  agree_contour v1 v2 -> Contour.from_dict v1 = Contour.from_dict v2.
Proof.
  intros [v|d1 d2 Hc Hp]; [reflexivity|].
  unfold Contour.from_dict. rewrite !py_get_dict, Hc.
  inversion Hp as [o Ho1 Ho2|l1 l2 Hl Ho1 Ho2]; [reflexivity|]. simpl.
  now rewrite (mapM_Forall2 _ _ Point_from_dict_agree _ _ Hl).
Qed.

Lemma Path_from_dict_agree (d1 d2 : list (string * pyval)) :
  agree_outline d1 d2 -> Path.from_dict (VDict d1) = Path.from_dict (VDict d2).
Proof.
  unfold agree_outline, Path.from_dict. intros H. rewrite !py_get_dict.
  inversion H as [o Ho1 Ho2|l1 l2 Hl Ho1 Ho2]; [reflexivity|]. simpl.
  now rewrite (mapM_Forall2 _ _ Contour_from_dict_agree _ _ Hl).
Qed.

(** Each method of the processor looks at a mapping through [from_dict] only. *)
Lemma processor_from_dict_only (json_loads : string -> result pyval)
      (d1 d2 : list (string * pyval)) (a b : num) :
  Path.from_dict (VDict d1) = Path.from_dict (VDict d2) ->
  path_bounds json_loads (VDict d1) = path_bounds json_loads (VDict d2) /\
  path_translate json_loads (VDict d1) a b = path_translate json_loads (VDict d2) a b /\
  path_scale json_loads (VDict d1) a b = path_scale json_loads (VDict d2) a b /\
  path_validate json_loads (VDict d1) = path_validate json_loads (VDict d2) /\
  path_info json_loads (VDict d1) = path_info json_loads (VDict d2).
Proof.
  intros H.
  assert (path_validate json_loads (VDict d1) = path_validate json_loads (VDict d2))
    as Hv by (unfold path_validate; simpl; now rewrite H).
  unfold path_bounds, path_translate, path_scale, path_info. simpl.
  rewrite Hv, H. auto.
Qed.

(** A string is handled as the object it parses to. *)
Lemma processor_parsed (json_loads : string -> result pyval)
      (s : string) (d : list (string * pyval)) (a b : num) :
  json_loads s = Ok (VDict d) ->
  path_bounds json_loads (VStr s) = path_bounds json_loads (VDict d) /\
  path_translate json_loads (VStr s) a b = path_translate json_loads (VDict d) a b /\
  path_scale json_loads (VStr s) a b = path_scale json_loads (VDict d) a b /\
  path_validate json_loads (VStr s) = path_validate json_loads (VDict d) /\
  path_info json_loads (VStr s) = path_info json_loads (VDict d).
Proof.
  intros H.
  unfold path_bounds, path_translate, path_scale, path_validate, path_info.
  simpl. rewrite H. simpl. auto.
Qed.

(** C10: decode depends on the schema keys only.  Two input mappings that
    agree, level by level, on [contours], [points], [isClosed], [x], [y],
    [type] and [smooth] decode to the same outline (or fail alike), whatever
    other keys they carry; so every entry point returns the same string for
    two texts that parse to such mappings. *)
Theorem decode_ignores_unknown_keys :
  forall d1 d2 : list (string * pyval),
    agree_outline d1 d2 ->
    Path.from_dict (VDict d1) = Path.from_dict (VDict d2) /\
    forall json_loads json_dumps s1 s2 a b,
      json_loads s1 = Ok (VDict d1) ->
      json_loads s2 = Ok (VDict d2) ->
      wasm_path_bounds json_loads json_dumps s1
        = wasm_path_bounds json_loads json_dumps s2 /\
      wasm_path_translate json_loads json_dumps s1 a b
        = wasm_path_translate json_loads json_dumps s2 a b /\
      wasm_path_scale json_loads json_dumps s1 a b
        = wasm_path_scale json_loads json_dumps s2 a b /\
      wasm_path_validate json_loads json_dumps s1
        = wasm_path_validate json_loads json_dumps s2 /\
      wasm_path_info json_loads json_dumps s1
        = wasm_path_info json_loads json_dumps s2.
Proof.
  intros d1 d2 H. apply Path_from_dict_agree in H. split; [exact H|].
  intros json_loads json_dumps s1 s2 a b H1 H2.
  destruct (processor_parsed json_loads s1 d1 a b H1) as (B1 & T1 & S1 & V1 & I1).
  destruct (processor_parsed json_loads s2 d2 a b H2) as (B2 & T2 & S2 & V2 & I2).
  destruct (processor_from_dict_only json_loads d1 d2 a b H) as (B & T & S & V & I).
  unfold wasm_path_bounds, wasm_path_translate, wasm_path_scale,
    wasm_path_validate, wasm_path_info.
  rewrite B1, B2, B, T1, T2, T, S1, S2, S, V1, V2, V, I1, I2, I. auto.
Qed.

Lemma decode_ignores_unknown_keys_witness :
  agree_outline mapping_plain mapping_extra /\
  Path.from_dict (VDict mapping_plain) = Path.from_dict (VDict mapping_extra) /\
  forall json_dumps a b,
    wasm_path_info
      (loads_table [(text_plain, VDict mapping_plain);
                    (text_extra, VDict mapping_extra)]) json_dumps text_plain
    = wasm_path_info
      (loads_table [(text_plain, VDict mapping_plain);
                    (text_extra, VDict mapping_extra)]) json_dumps text_extra /\
    wasm_path_translate
      (loads_table [(text_plain, VDict mapping_plain);
                    (text_extra, VDict mapping_extra)]) json_dumps text_plain a b
    = wasm_path_translate
      (loads_table [(text_plain, VDict mapping_plain);
                    (text_extra, VDict mapping_extra)]) json_dumps text_extra a b.
Proof.
  assert (agree_outline mapping_plain mapping_extra) as H.
  { apply agree_seq_list. repeat constructor. }
  split; [exact H|].
  split; [exact (proj1 (decode_ignores_unknown_keys _ _ H))|].
  intros json_dumps a b.
  destruct (proj2 (decode_ignores_unknown_keys _ _ H)
              (loads_table [(text_plain, VDict mapping_plain);
                            (text_extra, VDict mapping_extra)])
              json_dumps text_plain text_extra a b eq_refl eq_refl)
    as (_ & T & _ & _ & I).
  split; [exact I | exact T].
Defined.

(** ** Envelopes *)






(** ** Composition of translations *)

(** C4, as stated, fails: float addition is not associative.  Translating
    the point [(1e16, 0)] by [(1.0, 0.0)] twice leaves [x = 1e16] (each sum
    rounds back), while translating once by [(1.0 + 1.0, 0.0 + 0.0)] gives
    [x = 10000000000000002]. *)
Lemma translate_twice_differs :
  (o1 <- Path.translate (single_point (VFloat 1e16) (VFloat 0))
                        (NFloat 1) (NFloat 0) ;;
   Path.translate o1 (NFloat 1) (NFloat 0))
    = Ok (single_point (VFloat 1e16) (VFloat 0)) /\
  Path.translate (single_point (VFloat 1e16) (VFloat 0))
                 (NFloat (1 + 1)) (NFloat (0 + 0))
    = Ok (single_point (VFloat 10000000000000002) (VFloat 0)) /\
  (o1 <- Path.translate (single_point (VFloat 1e16) (VFloat 0))
                        (NFloat 1) (NFloat 0) ;;
   Path.translate o1 (NFloat 1) (NFloat 0))
    <> Path.translate (single_point (VFloat 1e16) (VFloat 0))
                      (NFloat (1 + 1)) (NFloat (0 + 0)).
Proof.
  split; [vm_compute; reflexivity|]. split; [vm_compute; reflexivity|].
  intros H.
  apply (f_equal (fun r =>
           match r with
           | Ok (Path.mk (Contour.mk (Point.mk (VFloat f) _ _ _ :: _) _ :: _)) =>
               PrimFloat.eqb f 1e16
           | _ => false
           end)) in H.
  vm_compute in H. discriminate.
Qed.

Lemma translate_point_int (a b : Z) (p : Point.t) :
  int_like (Point.x p) && int_like (Point.y p) = true ->
  Path.translate_point (NInt a) (NInt b) p = Ok (shift_point a b p).
Proof.
  destruct p as [x y t s]. simpl. intros H.
  apply andb_true_iff in H as [Hx Hy].
  destruct x; try discriminate; destruct y; try discriminate; reflexivity.
Qed.

Lemma translate_int (a b : Z) (o : Path.t) :
  all_coords int_like o = true ->
  Path.translate o (NInt a) (NInt b) = Ok (shift a b o).
Proof.
  destruct o as [cs]. unfold all_coords, Path.translate, shift. simpl.
  intros H. rewrite (mapM_total _ (shift_contour a b)); [reflexivity|].
  apply Forall_forall. intros c Hc.
  rewrite forallb_forall in H. specialize (H c Hc).
  unfold Path.translate_contour, shift_contour.
  rewrite (mapM_total _ (shift_point a b)); [reflexivity|].
  apply Forall_forall. intros p Hp.
  rewrite forallb_forall in H. apply translate_point_int, H, Hp.
Qed.

Lemma shift_int_like (a b : Z) (o : Path.t) :
  all_coords int_like (shift a b o) = true.
Proof.
  unfold all_coords, shift. simpl.
  apply forallb_forall. intros c Hc.
  apply in_map_iff in Hc as (c0 & <- & _). simpl.
  apply forallb_forall. intros p Hp.
  apply in_map_iff in Hp as (p0 & <- & _). reflexivity.
Qed.

Lemma shift_shift (a b c d : Z) (o : Path.t) :
  shift c d (shift a b o) = shift (a + c) (b + d) o.
Proof.
  unfold shift. simpl. f_equal. rewrite map_map. apply map_ext. intros k.
  unfold shift_contour. simpl. f_equal. rewrite map_map. apply map_ext.
  intros p. unfold shift_point. simpl. unfold int_of. simpl.
  now rewrite <- !Z.add_assoc.
Qed.

(** C4 (amended): on an outline with integer coordinates and for integer
    offsets, where Python's arithmetic is exact, translating twice equals
    translating once by the summed offsets:
    [translate (translate o a b) c d = translate o (a + c) (b + d)]. *)
Theorem translate_twice_int :
  forall (o : Path.t) (a b c d : Z),
    all_coords int_like o = true ->
    exists o1 o2,
      Path.translate o (NInt a) (NInt b) = Ok o1 /\
      Path.translate o1 (NInt c) (NInt d) = Ok o2 /\
      Path.translate o (NInt (a + c)) (NInt (b + d)) = Ok o2.
Proof.
  intros o a b c d H.
  exists (shift a b o), (shift c d (shift a b o)). repeat split.
  - now apply translate_int.
  - apply translate_int, shift_int_like.
  - rewrite shift_shift. now apply translate_int.
Qed.

Lemma translate_twice_int_witness :
  all_coords int_like square_path = true /\
  exists o1 o2,
    Path.translate square_path (NInt 50) (NInt 25) = Ok o1 /\
    Path.translate o1 (NInt (-50)) (NInt 75) = Ok o2 /\
    Path.translate square_path (NInt (50 + -50)) (NInt (25 + 75)) = Ok o2.
Proof.
  split; [reflexivity|].
  apply (translate_twice_int square_path 50 25 (-50) 75). reflexivity.
Defined.

(** ** Ordering of numbers *)

Lemma Qltb_lt (p q : Q) : Qltb p q = true <-> (p < q)%Q.
Proof.
  unfold Qltb. rewrite negb_true_iff. split.
  - intros H. apply Qnot_le_lt. intros Hle.
    apply Qle_bool_iff in Hle. congruence.
  - intros H. destruct (Qle_bool q p) eqn:E; [|reflexivity].
    apply Qle_bool_iff in E. exfalso. exact (Qlt_not_le _ _ H E).
Qed.

Lemma xlt_irrefl (a : xval) : xlt a a = false.
Proof.
  destruct a; simpl; try reflexivity.
  destruct (Qltb q q) eqn:E; [|reflexivity].
  apply Qltb_lt in E. exfalso. exact (Qlt_irrefl _ E).
Qed.

Lemma xlt_trans (a b c : xval) :
  xlt a b = true -> xlt b c = true -> xlt a c = true.
Proof.
  destruct a, b, c; simpl; try discriminate; try reflexivity.
  rewrite !Qltb_lt. apply Qlt_trans.
Qed.

Lemma vlt_irrefl (a : pyval) : vlt a a = false.
Proof. unfold vlt. destruct (as_num a); [apply xlt_irrefl | reflexivity]. Qed.

Lemma vlt_trans (a b c : pyval) :
  vlt a b = true -> vlt b c = true -> vlt a c = true.
Proof.
  unfold vlt. destruct (as_num a), (as_num b), (as_num c); try discriminate.
  apply xlt_trans.
Qed.

Lemma vle_intro (a b : pyval) :
  numeric a = true -> numeric b = true ->
  is_nan a = false -> is_nan b = false ->
  vlt b a = false -> vle a b = true.
Proof. unfold vle. now intros -> -> -> -> ->. Qed.

Lemma py_lt_Ok (a b : pyval) (c : bool) :
  py_lt a b = Ok c -> c = vlt a b /\ numeric a = true /\ numeric b = true.
Proof.
  unfold py_lt, py_cmp, vlt, numeric.
  destruct (as_num a), (as_num b); try discriminate.
  intros H. injection H as <-. auto.
Qed.

Lemma py_gt_Ok (a b : pyval) (c : bool) :
  py_gt a b = Ok c -> c = vlt b a /\ numeric a = true /\ numeric b = true.
Proof.
  unfold py_gt, py_cmp, vlt, numeric.
  destruct (as_num a), (as_num b); try discriminate.
  intros H. injection H as <-. auto.
Qed.

Lemma py_min_numeric (m x : pyval) :
  numeric m = true -> numeric x = true -> py_min m x = Ok (vmin m x).
Proof.
  unfold py_min, py_lt, py_cmp, vmin, vlt, numeric.
  destruct (as_num m), (as_num x); try discriminate. reflexivity.
Qed.

Lemma py_max_numeric (m x : pyval) :
  numeric m = true -> numeric x = true -> py_max m x = Ok (vmax m x).
Proof.
  unfold py_max, py_gt, py_cmp, vmax, vlt, numeric.
  destruct (as_num m), (as_num x); try discriminate. reflexivity.
Qed.

Lemma py_min_Ok (m x r : pyval) :
  py_min m x = Ok r -> r = vmin m x /\ numeric m = true /\ numeric x = true.
Proof.
  unfold py_min. intros H. apply bind_Ok in H as (c & Hc & H).
  injection H as <-. apply py_lt_Ok in Hc as (-> & Hx & Hm). auto.
Qed.

Lemma py_max_Ok (m x r : pyval) :
  py_max m x = Ok r -> r = vmax m x /\ numeric m = true /\ numeric x = true.
Proof.
  unfold py_max. intros H. apply bind_Ok in H as (c & Hc & H).
  injection H as <-. apply py_gt_Ok in Hc as (-> & Hx & Hm). auto.
Qed.

Lemma vmin_numeric (m x : pyval) :
  numeric m = true -> numeric x = true -> numeric (vmin m x) = true.
Proof. unfold vmin. now destruct (vlt x m). Qed.

Lemma vmax_numeric (m x : pyval) :
  numeric m = true -> numeric x = true -> numeric (vmax m x) = true.
Proof. unfold vmax. now destruct (vlt m x). Qed.

(** ** Running extrema *)

Section Extremum.

Variable lt : pyval -> pyval -> bool.
Hypothesis lt_irrefl : forall a, lt a a = false.
Hypothesis lt_trans : forall a b c, lt a b = true -> lt b c = true -> lt a c = true.

Lemma fold_pick_In (vs : list pyval) (m0 : pyval) :
  In (fold_left (pick lt) vs m0) (m0 :: vs).
Proof.
  revert m0. induction vs as [|x vs IH]; intros m0; simpl; [auto|].
  destruct (IH (pick lt m0 x)) as [H|H]; [|auto].
  rewrite <- H. unfold pick. destruct (lt x m0); auto.
Qed.

Lemma fold_pick_bound (vs : list pyval) (m0 : pyval) :
  forall v, In v (m0 :: vs) -> lt v (fold_left (pick lt) vs m0) = false.
Proof.
  induction vs as [|x vs IH] using rev_ind; intros v Hv.
  - simpl in *. destruct Hv as [<-|[]]. apply lt_irrefl.
  - rewrite fold_left_app. simpl. unfold pick at 1.
    destruct (lt x (fold_left (pick lt) vs m0)) eqn:Hx.
    + destruct (lt v x) eqn:Hvx; [|reflexivity].
      assert (In v (m0 :: vs) \/ v = x) as [Hin| ->].
      { simpl in Hv. rewrite in_app_iff in Hv. simpl in Hv. simpl.
        intuition auto. }
      * rewrite <- (IH v Hin). symmetry. eapply lt_trans; eauto.
      * now rewrite lt_irrefl in Hvx.
    + assert (In v (m0 :: vs) \/ v = x) as [Hin| ->]; auto.
      simpl in Hv. rewrite in_app_iff in Hv. simpl in Hv. simpl. intuition auto.
Qed.

End Extremum.

Lemma vgt_irrefl (a : pyval) : vgt a a = false.
Proof. apply vlt_irrefl. Qed.

Lemma vgt_trans (a b c : pyval) :
  vgt a b = true -> vgt b c = true -> vgt a c = true.
Proof. unfold vgt. intros H1 H2. exact (vlt_trans _ _ _ H2 H1). Qed.

(** ** The loop of [get_bounds] *)

Lemma bounds_point_Ok (e e' : Path.extrema) (p : Point.t) :
  Path.bounds_point e p = Ok e' ->
  e' = extrema_step e p /\
  numeric (Point.x p) = true /\ numeric (Point.y p) = true.
Proof.
  unfold Path.bounds_point. intros H.
  apply bind_Ok in H as (a & Ha & H). apply bind_Ok in H as (b & Hb & H).
  apply bind_Ok in H as (c & Hc & H). apply bind_Ok in H as (d & Hd & H).
  injection H as <-.
  apply py_min_Ok in Ha as (-> & _ & Hx). apply py_max_Ok in Hb as (-> & _ & _).
  apply py_min_Ok in Hc as (-> & _ & Hy). apply py_max_Ok in Hd as (-> & _ & _).
  auto.
Qed.

Lemma extrema_step_numeric (e : Path.extrema) (p : Point.t) :
  numeric_extrema e ->
  numeric (Point.x p) = true -> numeric (Point.y p) = true ->
  Path.bounds_point e p = Ok (extrema_step e p) /\
  numeric_extrema (extrema_step e p).
Proof.
  intros (H1 & H2 & H3 & H4) Hx Hy. split.
  - unfold Path.bounds_point.
    rewrite (py_min_numeric _ _ H1 Hx). simpl.
    rewrite (py_max_numeric _ _ H2 Hx). simpl.
    rewrite (py_min_numeric _ _ H3 Hy). simpl.
    rewrite (py_max_numeric _ _ H4 Hy). reflexivity.
  - repeat split; simpl; auto using vmin_numeric, vmax_numeric.
Qed.

Lemma bounds_points_Ok (ps : list Point.t) (e e' : Path.extrema) :
  foldM Path.bounds_point ps e = Ok e' ->
  e' = fold_left extrema_step ps e /\
  Forall (fun p => numeric (Point.x p) = true /\ numeric (Point.y p) = true) ps.
Proof.
  revert e. induction ps as [|p ps IH]; simpl; intros e H.
  - injection H as <-. auto.
  - apply bind_Ok in H as (e1 & H1 & H).
    apply bounds_point_Ok in H1 as (-> & Hx & Hy).
    apply IH in H as (-> & Hps). auto.
Qed.

Lemma bounds_points_numeric (ps : list Point.t) (e : Path.extrema) :
  numeric_extrema e ->
  Forall (fun p => numeric (Point.x p) = true /\ numeric (Point.y p) = true) ps ->
  foldM Path.bounds_point ps e = Ok (fold_left extrema_step ps e) /\
  numeric_extrema (fold_left extrema_step ps e).
Proof.
  intros He Hps. revert e He.
  induction Hps as [|p ps [Hx Hy] _ IH]; simpl; intros e He; [auto|].
  destruct (extrema_step_numeric e p He Hx Hy) as (-> & He'). simpl. auto.
Qed.

Lemma bounds_contours_Ok (cs : list Contour.t) (e e' : Path.extrema) :
  foldM Path.bounds_contour cs e = Ok e' ->
  e' = extrema_loop cs e /\
  Forall (fun v => numeric v = true) (x_coords (Path.mk cs)) /\
  Forall (fun v => numeric v = true) (y_coords (Path.mk cs)).
Proof.
  unfold extrema_loop, x_coords, y_coords. simpl.
  revert e. induction cs as [|c cs IH]; simpl; intros e H.
  - injection H as <-. auto.
  - apply bind_Ok in H as (e1 & H1 & H).
    apply bounds_points_Ok in H1 as (-> & Hps).
    apply IH in H as (-> & Hxs & Hys).
    split; [reflexivity|].
    split; apply Forall_app; split; auto; apply Forall_map;
      (eapply Forall_impl; [|exact Hps]); simpl; tauto.
Qed.

Lemma bounds_contours_numeric (cs : list Contour.t) (e : Path.extrema) :
  numeric_extrema e ->
  Forall (fun v => numeric v = true) (x_coords (Path.mk cs)) ->
  Forall (fun v => numeric v = true) (y_coords (Path.mk cs)) ->
  foldM Path.bounds_contour cs e = Ok (extrema_loop cs e) /\
  numeric_extrema (extrema_loop cs e).
Proof.
  unfold extrema_loop, x_coords, y_coords. simpl.
  revert e. induction cs as [|c cs IH]; simpl; intros e He Hxs Hys; [auto|].
  apply Forall_app in Hxs as [Hx Hxs]. apply Forall_app in Hys as [Hy Hys].
  assert (Forall (fun p => numeric (Point.x p) = true /\ numeric (Point.y p) = true)
                 (Contour.points c)) as Hps.
  { rewrite Forall_map in Hx, Hy. rewrite Forall_forall in *. auto. }
  unfold Path.bounds_contour at 1.
  destruct (bounds_points_numeric _ e He Hps) as (-> & He'). simpl. auto.
Qed.

(** Each extremum depends on its own axis only. *)
Lemma extrema_points_axes (ps : list Point.t) (e : Path.extrema) :
  Path.min_x (fold_left extrema_step ps e)
    = fold_left vmin (map Point.x ps) (Path.min_x e) /\
  Path.max_x (fold_left extrema_step ps e)
    = fold_left vmax (map Point.x ps) (Path.max_x e) /\
  Path.min_y (fold_left extrema_step ps e)
    = fold_left vmin (map Point.y ps) (Path.min_y e) /\
  Path.max_y (fold_left extrema_step ps e)
    = fold_left vmax (map Point.y ps) (Path.max_y e).
Proof.
  revert e. induction ps as [|p ps IH]; simpl; intros e; [auto|].
  destruct (IH (extrema_step e p)) as (-> & -> & -> & ->). auto.
Qed.

Lemma extrema_loop_axes (cs : list Contour.t) (e : Path.extrema) :
  Path.min_x (extrema_loop cs e) = fold_left vmin (x_coords (Path.mk cs)) (Path.min_x e) /\
  Path.max_x (extrema_loop cs e) = fold_left vmax (x_coords (Path.mk cs)) (Path.max_x e) /\
  Path.min_y (extrema_loop cs e) = fold_left vmin (y_coords (Path.mk cs)) (Path.min_y e) /\
  Path.max_y (extrema_loop cs e) = fold_left vmax (y_coords (Path.mk cs)) (Path.max_y e).
Proof.
  unfold extrema_loop, x_coords, y_coords. simpl.
  revert e. induction cs as [|c cs IH]; simpl; intros e; [auto|].
  rewrite !fold_left_app.
  destruct (IH (fold_left extrema_step (Contour.points c) e)) as (-> & -> & -> & ->).
  destruct (extrema_points_axes (Contour.points c) e) as (-> & -> & -> & ->). auto.
Qed.

(** ** The extrema are attained *)

Lemma Prim2SF_inj (f g : float) : Prim2SF f = Prim2SF g -> f = g.
Proof.
  intros H. rewrite <- (SF2Prim_Prim2SF f), <- (SF2Prim_Prim2SF g). now rewrite H.
Qed.

Lemma xval_PosInf (f : float) : xval_of_float f = XPosInf -> f = infinity.
Proof.
  unfold xval_of_float. intros H. apply Prim2SF_inj.
  destruct (Prim2SF f) as [s|[|]| |s m e]; try discriminate. reflexivity.
Qed.

Lemma xval_NegInf (f : float) : xval_of_float f = XNegInf -> f = neg_infinity.
Proof.
  unfold xval_of_float. intros H. apply Prim2SF_inj.
  destruct (Prim2SF f) as [s|[|]| |s m e]; try discriminate. reflexivity.
Qed.

(** A number that is not below [inf] is [inf]; one that is not above
    [-inf] is [-inf]. *)
Lemma not_below_infinity (v : pyval) :
  numeric v = true -> is_nan v = false ->
  vlt v (VFloat infinity) = false -> v = VFloat infinity.
Proof.
  unfold numeric, is_nan, vlt.
  destruct v as [|b|z|f|s|l|d]; simpl; try discriminate.
  intros _ Hn H. f_equal. apply xval_PosInf.
  change (xval_of_float infinity) with XPosInf in H.
  destruct (xval_of_float f); simpl in *; congruence.
Qed.

Lemma not_above_neg_infinity (v : pyval) :
  numeric v = true -> is_nan v = false ->
  vgt v (VFloat neg_infinity) = false -> v = VFloat neg_infinity.
Proof.
  unfold numeric, is_nan, vgt, vlt.
  destruct v as [|b|z|f|s|l|d]; simpl; try discriminate.
  intros _ Hn H. f_equal. apply xval_NegInf.
  change (xval_of_float neg_infinity) with XNegInf in H.
  destruct (xval_of_float f); simpl in *; congruence.
Qed.

Section Attained.

Variable lt : pyval -> pyval -> bool.
Variable top : pyval.
Hypothesis lt_irrefl : forall a, lt a a = false.
Hypothesis lt_trans : forall a b c, lt a b = true -> lt b c = true -> lt a c = true.
Hypothesis top_only :
  forall v, numeric v = true -> is_nan v = false -> lt v top = false -> v = top.

Lemma fold_pick_attained (vs : list pyval) :
  vs <> [] ->
  Forall (fun v => numeric v = true) vs ->
  Forall (fun v => is_nan v = false) vs ->
  In (fold_left (pick lt) vs top) vs.
Proof.
  intros Hne Hnum Hnan.
  destruct (fold_pick_In lt vs top) as [H|H]; [|exact H].
  destruct vs as [|v vs]; [contradiction|].
  assert (lt v (fold_left (pick lt) (v :: vs) top) = false) as Hv
      by (apply fold_pick_bound; simpl; auto).
  rewrite <- H in Hv |- *.
  inversion Hnum; inversion Hnan; subst.
  left. now apply top_only.
Qed.

End Attained.

Lemma vmin_attained (vs : list pyval) :
  vs <> [] ->
  Forall (fun v => numeric v = true) vs ->
  Forall (fun v => is_nan v = false) vs ->
  is_min (fold_left vmin vs (VFloat infinity)) vs.
Proof.
  intros Hne Hnum Hnan.
  assert (In (fold_left vmin vs (VFloat infinity)) vs) as Hin
      by exact (fold_pick_attained vlt (VFloat infinity) vlt_irrefl vlt_trans
                  not_below_infinity vs Hne Hnum Hnan).
  split; [exact Hin|]. intros v Hv.
  rewrite Forall_forall in Hnum, Hnan.
  apply vle_intro; auto.
  apply (fold_pick_bound vlt vlt_irrefl vlt_trans). simpl. auto.
Qed.

Lemma vmax_attained (vs : list pyval) :
  vs <> [] ->
  Forall (fun v => numeric v = true) vs ->
  Forall (fun v => is_nan v = false) vs ->
  is_max (fold_left vmax vs (VFloat neg_infinity)) vs.
Proof.
  intros Hne Hnum Hnan.
  assert (In (fold_left vmax vs (VFloat neg_infinity)) vs) as Hin
      by exact (fold_pick_attained vgt (VFloat neg_infinity) vgt_irrefl vgt_trans
                  not_above_neg_infinity vs Hne Hnum Hnan).
  split; [exact Hin|]. intros v Hv.
  rewrite Forall_forall in Hnum, Hnan.
  apply vle_intro; auto.
  apply (fold_pick_bound vgt vgt_irrefl vgt_trans) with (v := v). simpl. auto.
Qed.

(** ** [get_bounds] *)

Lemma is_empty_forallb (o : Path.t) :
  Path.is_empty o = forallb Path.no_points (Path.contours o).
Proof. unfold Path.is_empty. now destruct (Path.contours o). Qed.

Lemma is_empty_iff (o : Path.t) :
  Path.is_empty o = true <->
  Forall (fun c => Contour.points c = []) (Path.contours o).
Proof.
  rewrite is_empty_forallb, forallb_forall, Forall_forall.
  split; intros H c Hc; specialize (H c Hc); unfold Path.no_points in *;
    destruct (Contour.points c); congruence.
Qed.

Lemma not_empty_coords (o : Path.t) :
  Path.is_empty o = false -> x_coords o <> [] /\ y_coords o <> [].
Proof.
  rewrite is_empty_forallb. unfold x_coords, y_coords.
  induction (Path.contours o) as [|c cs IH]; simpl; [discriminate|].
  unfold Path.no_points at 1. destruct (Contour.points c) as [|p ps]; simpl.
  - exact IH.
  - intros _. split; discriminate.
Qed.

Lemma get_bounds_inv (o : Path.t) (r : pyval) :
  Path.get_bounds o = Ok r ->
  (Path.is_empty o = true /\ r = VNone) \/
  (Path.is_empty o = false /\
   Forall (fun v => numeric v = true) (x_coords o) /\
   Forall (fun v => numeric v = true) (y_coords o) /\
   exists width height,
     py_sub (fold_left vmax (x_coords o) (VFloat neg_infinity))
            (fold_left vmin (x_coords o) (VFloat infinity)) = Ok width /\
     py_sub (fold_left vmax (y_coords o) (VFloat neg_infinity))
            (fold_left vmin (y_coords o) (VFloat infinity)) = Ok height /\
     r = bounding_box (fold_left vmin (x_coords o) (VFloat infinity))
                      (fold_left vmin (y_coords o) (VFloat infinity))
                      (fold_left vmax (x_coords o) (VFloat neg_infinity))
                      (fold_left vmax (y_coords o) (VFloat neg_infinity))
                      width height).
Proof.
  unfold Path.get_bounds. destruct (Path.is_empty o); intros H.
  - injection H as <-. auto.
  - right. split; [reflexivity|].
    apply bind_Ok in H as (e & He & H).
    apply bind_Ok in H as (w & Hw & H). apply bind_Ok in H as (h & Hh & H).
    injection H as <-.
    destruct o as [cs]. simpl in He.
    apply bounds_contours_Ok in He as (-> & Hxs & Hys).
    destruct (extrema_loop_axes cs Path.extrema0) as (E1 & E2 & E3 & E4).
    rewrite E1, E2 in Hw. rewrite E3, E4 in Hh. rewrite E1, E2, E3, E4.
    split; [exact Hxs|]. split; [exact Hys|]. exists w, h. auto.
Qed.

Lemma get_bounds_numeric (o : Path.t) (width height : pyval) :
  Path.is_empty o = false ->
  Forall (fun v => numeric v = true) (x_coords o) ->
  Forall (fun v => numeric v = true) (y_coords o) ->
  py_sub (fold_left vmax (x_coords o) (VFloat neg_infinity))
         (fold_left vmin (x_coords o) (VFloat infinity)) = Ok width ->
  py_sub (fold_left vmax (y_coords o) (VFloat neg_infinity))
         (fold_left vmin (y_coords o) (VFloat infinity)) = Ok height ->
  Path.get_bounds o =
    Ok (bounding_box (fold_left vmin (x_coords o) (VFloat infinity))
                     (fold_left vmin (y_coords o) (VFloat infinity))
                     (fold_left vmax (x_coords o) (VFloat neg_infinity))
                     (fold_left vmax (y_coords o) (VFloat neg_infinity))
                     width height).
Proof.
  intros He Hxs Hys Hw Hh. unfold Path.get_bounds. rewrite He.
  destruct o as [cs]. simpl.
  destruct (bounds_contours_numeric cs Path.extrema0) as (-> & _); auto.
  { repeat split; reflexivity. }
  simpl.
  destruct (extrema_loop_axes cs Path.extrema0) as (E1 & E2 & E3 & E4).
  rewrite E1, E2, E3, E4. simpl.
  rewrite Hw. simpl. rewrite Hh. reflexivity.
Qed.

(** *** The subtraction [max - min] *)

Lemma py_sub_int_like (a b : pyval) :
  int_like a = true -> int_like b = true ->
  py_sub a b = Ok (VInt (int_of a - int_of b)).
Proof.
  destruct a; try discriminate; destruct b; try discriminate; reflexivity.
Qed.

Lemma py_sub_float_ready (a b : pyval) :
  float_ready a = true -> float_ready b = true -> exists w, py_sub a b = Ok w.
Proof.
  unfold float_ready, py_sub.
  destruct (as_num a) as [x|]; [|discriminate].
  destruct (as_num b) as [y|]; [|discriminate].
  destruct (to_float x) as [fx|] eqn:Hx; [|discriminate].
  destruct (to_float y) as [fy|] eqn:Hy; [|discriminate]. intros _ _.
  unfold num_binop. destruct x, y; try rewrite Hx; try rewrite Hy; simpl; eauto.
Qed.

Lemma int_like_numeric (v : pyval) : int_like v = true -> numeric v = true.
Proof. now destruct v. Qed.

Lemma float_ready_numeric (v : pyval) : float_ready v = true -> numeric v = true.
Proof. unfold float_ready, numeric. now destruct (as_num v). Qed.

Lemma axis_ok_numeric (vs : list pyval) :
  axis_ok vs = true -> Forall (fun v => numeric v = true) vs.
Proof.
  unfold axis_ok. intros H. apply orb_true_iff in H as [H|H];
    rewrite forallb_forall in H; apply Forall_forall; intros v Hv;
    auto using int_like_numeric, float_ready_numeric.
Qed.

Lemma int_like_below_infinity (v : pyval) :
  int_like v = true ->
  vlt v (VFloat infinity) = true /\ vgt v (VFloat neg_infinity) = true.
Proof. destruct v; try discriminate; intros _; split; reflexivity. Qed.

(** On an axis accepted by [axis_ok] the subtraction does not raise. *)
Lemma axis_ok_sub (vs : list pyval) :
  vs <> [] -> axis_ok vs = true ->
  exists w, py_sub (fold_left vmax vs (VFloat neg_infinity))
                   (fold_left vmin vs (VFloat infinity)) = Ok w.
Proof.
  intros Hne H. unfold axis_ok in H. apply orb_true_iff in H as [H|H];
    rewrite forallb_forall in H.
  - (* all integers: both extrema are coordinates *)
    assert (In (fold_left vmax vs (VFloat neg_infinity)) vs) as HM.
    { destruct (fold_pick_In vgt vs (VFloat neg_infinity)) as [E|E]; [|exact E].
      destruct vs as [|v vs]; [contradiction|]. exfalso.
      assert (vgt v (fold_left (pick vgt) (v :: vs) (VFloat neg_infinity)) = false)
        as Hv by (apply (fold_pick_bound vgt vgt_irrefl vgt_trans); simpl; auto).
      rewrite <- E in Hv.
      destruct (int_like_below_infinity v (H v (or_introl eq_refl))). congruence. }
    assert (In (fold_left vmin vs (VFloat infinity)) vs) as Hm.
    { destruct (fold_pick_In vlt vs (VFloat infinity)) as [E|E]; [|exact E].
      destruct vs as [|v vs]; [contradiction|]. exfalso.
      assert (vlt v (fold_left (pick vlt) (v :: vs) (VFloat infinity)) = false)
        as Hv by (apply (fold_pick_bound vlt vlt_irrefl vlt_trans); simpl; auto).
      rewrite <- E in Hv.
      destruct (int_like_below_infinity v (H v (or_introl eq_refl))). congruence. }
    rewrite (py_sub_int_like _ _ (H _ HM) (H _ Hm)). eauto.
  - apply py_sub_float_ready.
    + change vmax with (pick vgt).
      destruct (fold_pick_In vgt vs (VFloat neg_infinity)) as [E|E];
        [rewrite <- E; reflexivity | exact (H _ E)].
    + change vmin with (pick vlt).
      destruct (fold_pick_In vlt vs (VFloat infinity)) as [E|E];
        [rewrite <- E; reflexivity | exact (H _ E)].
Qed.

(** A non-empty outline with numeric coordinates has a bounding box. *)
Lemma get_bounds_total (o : Path.t) :
  Path.is_empty o = false ->
  axis_ok (x_coords o) = true -> axis_ok (y_coords o) = true ->
  exists width height,
    py_sub (fold_left vmax (x_coords o) (VFloat neg_infinity))
           (fold_left vmin (x_coords o) (VFloat infinity)) = Ok width /\
    py_sub (fold_left vmax (y_coords o) (VFloat neg_infinity))
           (fold_left vmin (y_coords o) (VFloat infinity)) = Ok height /\
    Path.get_bounds o =
      Ok (bounding_box (fold_left vmin (x_coords o) (VFloat infinity))
                       (fold_left vmin (y_coords o) (VFloat infinity))
                       (fold_left vmax (x_coords o) (VFloat neg_infinity))
                       (fold_left vmax (y_coords o) (VFloat neg_infinity))
                       width height).
Proof.
  intros He Hx Hy. destruct (not_empty_coords o He) as (Nx & Ny).
  destruct (axis_ok_sub _ Nx Hx) as (w & Hw).
  destruct (axis_ok_sub _ Ny Hy) as (h & Hh).
  exists w, h. split; [exact Hw|]. split; [exact Hh|].
  apply get_bounds_numeric; auto using axis_ok_numeric.
Qed.

Lemma float_sub_self (f : float) :
  finite (VFloat f) = true -> PrimFloat.sub f f = 0%float.
Proof.
  unfold finite. simpl. unfold xval_of_float. intros H.
  apply Prim2SF_inj. rewrite sub_spec. unfold SF64sub, SFsub.
  destruct (Prim2SF f) as [[|]|[|]| |s m e]; try discriminate; try reflexivity.
  now rewrite Z.sub_diag.
Qed.

Lemma py_sub_self (v : pyval) :
  finite v = true -> py_sub v v = Ok (zero_of v).
Proof.
  destruct v as [|b|z|f|s|l|d]; try discriminate; intros H.
  - unfold py_sub. simpl. now rewrite Z.sub_diag.
  - unfold py_sub. simpl. now rewrite Z.sub_diag.
  - unfold py_sub. simpl. now rewrite (float_sub_self f H).
Qed.

Lemma finite_between (v : pyval) :
  finite v = true ->
  numeric v = true /\
  vlt v (VFloat infinity) = true /\ vlt (VFloat neg_infinity) v = true.
Proof.
  unfold finite, numeric, vlt. destruct (as_num v) as [n|]; [|discriminate].
  change (xval_of (NFloat infinity)) with XPosInf.
  change (xval_of (NFloat neg_infinity)) with XNegInf.
  destruct (xval_of n); try discriminate. auto.
Qed.

Lemma veq_zero_of (v : pyval) : veq (zero_of v) (VInt 0) = true.
Proof. unfold zero_of. destruct (is_float v); reflexivity. Qed.

Lemma get_bounds_single (x y t s ic : pyval) :
  finite x = true -> finite y = true ->
  Path.get_bounds (Path.mk [Contour.mk [Point.mk x y t s] ic]) =
    Ok (bounding_box x y x y (zero_of x) (zero_of y)).
Proof.
  intros Hx Hy.
  destruct (finite_between x Hx) as (Nx & Lx & Gx).
  destruct (finite_between y Hy) as (Ny & Ly & Gy).
  assert (fold_left vmin [x] (VFloat infinity) = x) as Ex1
      by (simpl; unfold vmin; now rewrite Lx).
  assert (fold_left vmax [x] (VFloat neg_infinity) = x) as Ex2
      by (simpl; unfold vmax; now rewrite Gx).
  assert (fold_left vmin [y] (VFloat infinity) = y) as Ey1
      by (simpl; unfold vmin; now rewrite Ly).
  assert (fold_left vmax [y] (VFloat neg_infinity) = y) as Ey2
      by (simpl; unfold vmax; now rewrite Gy).
  pose proof (get_bounds_numeric (Path.mk [Contour.mk [Point.mk x y t s] ic])
                (zero_of x) (zero_of y)) as H.
  change (x_coords (Path.mk [Contour.mk [Point.mk x y t s] ic])) with [x] in H.
  change (y_coords (Path.mk [Contour.mk [Point.mk x y t s] ic])) with [y] in H.
  rewrite Ex1, Ex2, Ey1, Ey2 in H.
  apply H; auto using py_sub_self.
Qed.

(** C3, as stated, fails on a single-point outline whose coordinate is
    infinite (the JSON number [1e999] is read as [inf]): the box is not
    null, but its width is [inf - inf], which is NaN and not [0]. *)
Lemma single_point_infinite_width :
  Path.get_bounds (single_point (VFloat infinity) (VFloat 0)) =
    Ok (bounding_box (VFloat infinity) (VFloat 0) (VFloat infinity) (VFloat 0)
                     (VFloat nan) (VFloat 0)) /\
  veq (VFloat nan) (VInt 0) = false.
Proof. split; vm_compute; reflexivity. Qed.

(** C3 (amended): [get_bounds] returns null exactly when the outline is
    empty (no contours, or every contour has no points).  A non-empty
    outline whose coordinates are numbers (per axis all integers, or all
    floats or float-convertible) has a box; whenever a box is returned and
    no coordinate is NaN, [xMin]/[yMin] is a minimum and [xMax]/[yMax] a
    maximum of the x/y over all points of all contours, and
    [width = xMax - xMin], [height = yMax - yMin].  A single-point outline
    with finite coordinates yields the box of that point with width and
    height zero, not null. *)
Theorem bounds_spec :
  (forall o : Path.t,
     (Path.get_bounds o = Ok VNone <-> Path.is_empty o = true) /\
     (Path.is_empty o = true <->
      Forall (fun c => Contour.points c = []) (Path.contours o))) /\
  (forall o : Path.t,
     Path.is_empty o = false ->
     axis_ok (x_coords o) = true -> axis_ok (y_coords o) = true ->
     exists xMin yMin xMax yMax width height,
       Path.get_bounds o = Ok (bounding_box xMin yMin xMax yMax width height)) /\
  (forall (o : Path.t) (r : pyval),
     Path.get_bounds o = Ok r -> r <> VNone ->
     Forall (fun v => is_nan v = false) (x_coords o) ->
     Forall (fun v => is_nan v = false) (y_coords o) ->
     exists xMin yMin xMax yMax width height,
       r = bounding_box xMin yMin xMax yMax width height /\
       is_min xMin (x_coords o) /\ is_min yMin (y_coords o) /\
       is_max xMax (x_coords o) /\ is_max yMax (y_coords o) /\
       py_sub xMax xMin = Ok width /\ py_sub yMax yMin = Ok height) /\
  (forall x y t s ic : pyval,
     finite x = true -> finite y = true ->
     Path.get_bounds (Path.mk [Contour.mk [Point.mk x y t s] ic]) =
       Ok (bounding_box x y x y (zero_of x) (zero_of y)) /\
     veq (zero_of x) (VInt 0) = true /\ veq (zero_of y) (VInt 0) = true).
Proof.
  repeat split.
  - intros H. apply get_bounds_inv in H as [[He _]|(_ & _ & _ & w & h & _ & _ & H)];
      [exact He | discriminate].
  - intros H. unfold Path.get_bounds. now rewrite H.
  - apply is_empty_iff.
  - apply is_empty_iff.
  - intros o He Hx Hy.
    destruct (get_bounds_total o He Hx Hy) as (w & h & _ & _ & H). eauto 10.
  - intros o r H Hr Nx Ny.
    apply get_bounds_inv in H as [[_ ->]|(He & Hxs & Hys & w & h & Hw & Hh & ->)];
      [contradiction|].
    destruct (not_empty_coords o He) as (Ex & Ey).
    do 6 eexists. split; [reflexivity|].
    auto 10 using vmin_attained, vmax_attained.
  - now apply get_bounds_single.
  - apply veq_zero_of.
  - apply veq_zero_of.
Qed.

Lemma bounds_spec_witness :
  (Path.get_bounds (Path.mk [Contour.mk [] (VBool true)]) = Ok VNone) /\
  (exists xMin yMin xMax yMax width height,
     Path.get_bounds mixed_path = Ok (bounding_box xMin yMin xMax yMax width height) /\
     is_min xMin (x_coords mixed_path) /\ is_max xMax (x_coords mixed_path)) /\
  Path.get_bounds (single_point (VFloat 1.5) (VInt 7)) =
    Ok (bounding_box (VFloat 1.5) (VInt 7) (VFloat 1.5) (VInt 7) (VFloat 0) (VInt 0)).
Proof.
  destruct bounds_spec as (N & T & M & S).
  split; [apply (N (Path.mk [Contour.mk [] (VBool true)])); reflexivity|].
  split.
  - destruct (T mixed_path eq_refl eq_refl eq_refl)
      as (a & b & c & d & w & h & H).
    assert (bounding_box a b c d w h <> VNone) as Hr by discriminate.
    destruct (M mixed_path _ H Hr) as (a' & b' & c' & d' & w' & h' & E & Hm & _ & HM & _).
    { repeat constructor. }
    { repeat constructor. }
    unfold bounding_box in E. injection E as -> -> -> -> -> ->.
    exists a', b', c', d', w', h'. auto.
  - exact (proj1 (S (VFloat 1.5) (VInt 7) (VStr "line") (VBool false) (VBool false)
                    eq_refl eq_refl)).
Defined.

(** ** Float subtraction keeps the order

    The exact value of a float is a dyadic rational; subtraction rounds the
    exact difference, and rounding does not change its sign. *)














Lemma shl_align_fst (m : positive) (e ez : Z) :
  ez <= e -> Zpos (fst (shl_align m e ez)) = Zpos m * 2 ^ (e - ez).
Proof.
  intros H. unfold shl_align.
  destruct (ez - e) as [|d|d] eqn:E; cbn [fst].
  - replace (e - ez) with 0 by lia. lia.
  - lia.
  - replace (e - ez) with (Zpos d) by lia.
    change (Pos.iter xO m d) with (shift_pos d m).
    rewrite shift_pos_correct. change (2 ^ Zpos d) with (Z.pow_pos 2 d). lia.
Qed.





Lemma vle_not_lt (a b : pyval) : vle a b = true -> vlt b a = false.
Proof.
  unfold vle. intros H. apply andb_true_iff in H as [_ H].
  now apply negb_true_iff in H.
Qed.


Lemma int_like_not_nan (v : pyval) : int_like v = true -> is_nan v = false.
Proof. now destruct v. Qed.

(** *** Conversion of small integers to float is exact *)

Lemma digits2_pos_iter (p k : positive) :
  digits2_pos (Pos.iter xO p k) = (digits2_pos p + k)%positive.
Proof.
  induction k as [|k IH] using Pos.peano_ind.
  - simpl. lia.
  - rewrite Pos.iter_succ. simpl. rewrite IH. lia.
Qed.

Lemma digits2_pos_bounds (p : positive) :
  2 ^ (Zpos (digits2_pos p) - 1) <= Zpos p < 2 ^ Zpos (digits2_pos p).
Proof.
  induction p as [p IH|p IH|]; simpl digits2_pos.
  - rewrite Pos2Z.inj_succ.
    replace (Z.succ (Zpos (digits2_pos p)) - 1) with (Z.succ (Zpos (digits2_pos p) - 1)) by lia.
    rewrite !Z.pow_succ_r by lia. lia.
  - rewrite Pos2Z.inj_succ.
    replace (Z.succ (Zpos (digits2_pos p)) - 1) with (Z.succ (Zpos (digits2_pos p) - 1)) by lia.
    rewrite !Z.pow_succ_r by lia. lia.
  - simpl. lia.
Qed.

Lemma digits2_pos_small (p : positive) :
  Zpos p < 2 ^ 53 -> Zpos (digits2_pos p) <= 53.
Proof.
  intros H. destruct (digits2_pos_bounds p) as [Hl _].
  destruct (Z_le_gt_dec (Zpos (digits2_pos p)) 53) as [|Hgt]; [assumption|].
  exfalso. assert (2 ^ 53 <= 2 ^ (Zpos (digits2_pos p) - 1))
    by (apply Z.pow_le_mono_r; lia). lia.
Qed.

(** A 53-bit mantissa at an exponent in range is left alone by rounding. *)
Lemma binary_round_aux_exact (s : bool) (m : positive) (e : Z) :
  Zpos (digits2_pos m) = 53 -> -1074 <= e <= 971 ->
  binary_round_aux prec emax s (Zpos m) e loc_Exact = S754_finite s m e.
Proof.
  intros Hd He.
  assert (fexp prec emax (Zpos (digits2_pos m) + e) - e = 0) as Hn.
  { rewrite Hd. unfold fexp, emin, prec, emax. lia. }
  unfold binary_round_aux, shr_fexp. cbn [Zdigits2 shr_record_of_loc].
  rewrite Hn. cbn [shr shr_m loc_of_shr_record round_nearest_even].
  cbn [Zdigits2 shr_record_of_loc]. rewrite Hn. cbn [shr shr_m].
  replace (e <=? emax - prec) with true; [reflexivity|].
  symmetry. apply Z.leb_le. unfold emax, prec. lia.
Qed.

Lemma binary_round_small (s : bool) (p : positive) :
  Zpos p < 2 ^ 53 ->
  exists m e,
    binary_round prec emax s p 0 = S754_finite s m e /\
    valid_binary (S754_finite s m e) = true /\
    e <= 0 /\ Zpos m = Zpos p * 2 ^ (0 - e).
Proof.
  intros H. pose proof (digits2_pos_small p H) as Hd.
  assert (fexp prec emax (Zpos (digits2_pos p) + 0) = Zpos (digits2_pos p) - 53) as Hf.
  { unfold fexp, emin, prec, emax. lia. }
  unfold binary_round. rewrite Hf.
  pose proof (shl_align_fst p 0 (Zpos (digits2_pos p) - 53)) as Hm.
  assert (Zpos (digits2_pos (fst (shl_align p 0 (Zpos (digits2_pos p) - 53)))) = 53
          /\ snd (shl_align p 0 (Zpos (digits2_pos p) - 53)) = Zpos (digits2_pos p) - 53)
    as [Hd' He'].
  { unfold shl_align.
    destruct (Zpos (digits2_pos p) - 53 - 0) as [|k|k] eqn:E; cbn [fst snd].
    - split; lia.
    - lia.
    - rewrite digits2_pos_iter. split; lia. }
  destruct (shl_align p 0 (Zpos (digits2_pos p) - 53)) as [mz ez]. cbn [fst snd] in *.
  subst ez. exists mz, (Zpos (digits2_pos p) - 53).
  rewrite binary_round_aux_exact by lia.
  split; [reflexivity|]. split.
  - unfold valid_binary, bounded, canonical_mantissa. rewrite Hd'.
    apply andb_true_iff. split.
    + apply Z.eqb_eq. unfold fexp, emin, prec, emax. lia.
    + apply Z.leb_le. unfold emax, prec. lia.
  - split; [lia|]. apply Hm. lia.
Qed.



(** *** Conversion of large integers to float rounds *)

Lemma iter_pos_iter {A : Type} (f : A -> A) (n : positive) :
  forall x, iter_pos f n x = Pos.iter f x n.
Proof.
  induction n as [n IH|n IH|]; intros x; simpl.
  - rewrite !IH. now rewrite !Pos.iter_swap.
  - now rewrite !IH.
  - reflexivity.
Qed.

Lemma shr_1_spec (m : Z) (r s : bool) :
  0 <= m ->
  shr_1 (Build_shr_record m r s) = Build_shr_record (Z.div2 m) (Z.odd m) (r || s).
Proof. destruct m as [|[p|p|]|p]; intros H; try reflexivity; lia. Qed.

(** Shifting [k] bits out of a non-negative mantissa divides it by [2^k]. *)
Lemma iter_shr_1_m (k : positive) (mrs : shr_record) :
  0 <= shr_m mrs ->
  shr_m (Pos.iter shr_1 mrs k) = shr_m mrs / 2 ^ Zpos k.
Proof.
  intros H. induction k as [|k IH] using Pos.peano_ind.
  - cbn [Pos.iter]. destruct mrs as [m r s]. cbn [shr_m] in *.
    rewrite shr_1_spec by exact H. cbn [shr_m]. rewrite Z.div2_div. reflexivity.
  - rewrite Pos.iter_succ.
    assert (0 <= shr_m (Pos.iter shr_1 mrs k)) as Hk.
    { rewrite IH. apply Z.div_pos; [exact H | apply Z.pow_pos_nonneg; lia]. }
    destruct (Pos.iter shr_1 mrs k) as [m r s]. cbn [shr_m] in IH, Hk.
    rewrite shr_1_spec by exact Hk. cbn [shr_m]. rewrite Z.div2_div, IH.
    rewrite Pos2Z.inj_succ, Z.pow_succ_r by lia.
    rewrite Z.div_div by (try apply Z.pow_pos_nonneg; lia).
    f_equal. lia.
Qed.

(** When the bits shifted out are all zero, the result is flagged exact. *)
Lemma iter_shr_1_exact (k : positive) (m : Z) :
  0 <= m -> m mod 2 ^ Zpos k = 0 ->
  Pos.iter shr_1 (Build_shr_record m false false) k =
  Build_shr_record (m / 2 ^ Zpos k) false false.
Proof.
  intros H. induction k as [|k IH] using Pos.peano_ind; intros Hmod.
  - cbn [Pos.iter]. rewrite shr_1_spec by exact H. rewrite Z.div2_div. f_equal.
    change (2 ^ 1) with 2 in Hmod. rewrite Zodd_mod, Hmod. reflexivity.
  - rewrite Pos.iter_succ.
    rewrite Pos2Z.inj_succ, Z.pow_succ_r in Hmod |- * by lia.
    assert (0 < 2 ^ Zpos k) as Hp by (apply Z.pow_pos_nonneg; lia).
    apply Z.mod_divide in Hmod; [|lia]. destruct Hmod as [q Hq].
    rewrite IH.
    2:{ apply Z.mod_divide; [lia|]. exists (2 * q). lia. }
    assert (m / 2 ^ Zpos k = 2 * q) as E.
    { subst m. replace (q * (2 * 2 ^ Zpos k)) with ((2 * q) * 2 ^ Zpos k) by lia.
      apply Z.div_mul. lia. }
    rewrite shr_1_spec by (rewrite E; nia).
    rewrite Z.div2_div, E. f_equal.
    + rewrite Z.mul_comm, Z.div_mul by lia. subst m.
      symmetry. apply Z.div_mul. lia.
    + rewrite Z.odd_mul. reflexivity.
Qed.

Lemma digits2_pos_unique (q : positive) (k : Z) :
  2 ^ (k - 1) <= Zpos q < 2 ^ k -> Zpos (digits2_pos q) = k.
Proof.
  intros [Hl Hu]. destruct (digits2_pos_bounds q) as [Hl' Hu'].
  assert (0 <= k).
  { destruct (Z_lt_le_dec k 0) as [Hk|]; [|assumption].
    rewrite (Z.pow_neg_r 2 k Hk) in Hu. lia. }
  destruct (Z.lt_trichotomy (Zpos (digits2_pos q)) k) as [Hlt|[Heq|Hgt]];
    [exfalso| exact Heq | exfalso].
  - assert (2 ^ Zpos (digits2_pos q) <= 2 ^ (k - 1)) by (apply Z.pow_le_mono_r; lia).
    lia.
  - assert (2 ^ k <= 2 ^ (Zpos (digits2_pos q) - 1)) by (apply Z.pow_le_mono_r; lia).
    lia.
Qed.

Lemma round_nearest_even_range (m : Z) (l : location) :
  m <= round_nearest_even m l <= m + 1.
Proof.
  unfold round_nearest_even. destruct l as [|[| |]]; try destruct (Z.even m); lia.
Qed.

(** The quotient of a [d]-digit number by [2^(d-53)] has 53 digits. *)
Lemma quotient_53 (p : positive) :
  53 < Zpos (digits2_pos p) ->
  2 ^ 52 <= Zpos p / 2 ^ (Zpos (digits2_pos p) - 53) < 2 ^ 53.
Proof.
  intros Hd. destruct (digits2_pos_bounds p) as [Hl Hu].
  set (d := Zpos (digits2_pos p)) in *.
  assert (0 < 2 ^ (d - 53)) as Hp by (apply Z.pow_pos_nonneg; lia).
  assert (2 ^ (d - 1) = 2 ^ 52 * 2 ^ (d - 53)) as E1
      by (rewrite <- Z.pow_add_r by lia; f_equal; lia).
  assert (2 ^ d = 2 ^ 53 * 2 ^ (d - 53)) as E2
      by (rewrite <- Z.pow_add_r by lia; f_equal; lia).
  split.
  - apply Z.div_le_lower_bound; [exact Hp|]. lia.
  - apply Z.div_lt_upper_bound; [exact Hp|]. lia.
Qed.

Lemma fexp_53 (e : Z) : -1074 <= e -> fexp prec emax (53 + e) = e.
Proof. unfold fexp, emin, prec, emax. lia. Qed.



(** ** Rounding is monotone with respect to floats *)








Lemma big_digits (p : positive) : 2 ^ 53 <= Zpos p -> 53 < Zpos (digits2_pos p).
Proof.
  intros H. destruct (digits2_pos_bounds p) as [_ Hu].
  destruct (Z_lt_le_dec 53 (Zpos (digits2_pos p))) as [|Hle]; [assumption|exfalso].
  assert (2 ^ Zpos (digits2_pos p) <= 2 ^ 53) by (apply Z.pow_le_mono_r; lia). lia.
Qed.









(** With a NaN coordinate (Python's [json.loads] reads the literal [NaN])
    even the extrema are out of order: [xMin = inf] and [xMax = -inf]. *)
Lemma nan_point_extrema_unordered :
  Path.get_bounds (single_point (VFloat nan) (VFloat 0)) =
    Ok (bounding_box (VFloat infinity) (VFloat 0) (VFloat neg_infinity) (VFloat 0)
                     (VFloat neg_infinity) (VFloat 0)) /\
  vle (VFloat infinity) (VFloat neg_infinity) = false.
Proof. split; vm_compute; reflexivity. Qed.



(** ** Worked examples *)

(** The examples of the specification, on the square outline. *)
Example bounds_square :
  forall json_loads,
    path_bounds json_loads square =
    VDict [("success", VBool true);
           ("bounds", bounding_box (VInt 0) (VInt 0) (VInt 100) (VInt 100)
                                   (VInt 100) (VInt 100))].
Proof. reflexivity. Qed.

Example translate_square :
  Path.translate square_path (NInt 50) (NInt 25) = Ok (shift 50 25 square_path) /\
  map (fun p => (Point.x p, Point.y p))
      (flat_map Contour.points (Path.contours (shift 50 25 square_path))) =
    [(VInt 50, VInt 25); (VInt 150, VInt 25); (VInt 150, VInt 125); (VInt 50, VInt 125)].
Proof. split; reflexivity. Qed.

Example scale_square :
  exists o, Path.scale square_path (NFloat 2) (NFloat 1.5) = Ok o /\
    map (fun p => (Point.x p, Point.y p)) (flat_map Contour.points (Path.contours o)) =
      [(VFloat 0, VFloat 0); (VFloat 200, VFloat 0);
       (VFloat 200, VFloat 150); (VFloat 0, VFloat 150)].
Proof. eexists. split; vm_compute; reflexivity. Qed.

Example malformed_input :
  path_info loads_reject (VStr "not json") =
    failure "Expecting value: line 1 column 1 (char 0)" /\
  path_bounds loads_reject (VDict [("contours", VInt 3)]) =
    failure "'int' object is not iterable" /\
  path_translate loads_reject (VDict [("contours", VStr "ab")]) (NFloat 1) (NFloat 1) =
    failure "'str' object has no attribute 'get'".
Proof. repeat split. Qed.

(** * Further properties *)

Lemma mapM_Ok_iff {A B : Type} (f : A -> result B) (l : list A) :
  (exists l', mapM f l = Ok l') <-> Forall (fun a => exists b, f a = Ok b) l.
Proof.
  split.
  - intros (l' & H). apply mapM_Ok_Forall2 in H.
    induction H as [|a b l l' Hab _ IH]; constructor; eauto.
  - induction 1 as [|a l (b & Hb) _ (l' & IH)]; simpl; [eauto|].
    rewrite Hb, IH. simpl. eauto.
Qed.

Lemma mapM_Raise {A B : Type} (f : A -> result B) (l : list A) (e : exn) :
  mapM f l = Raise e -> exists a, In a l /\ f a = Raise e.
Proof.
  induction l as [|a l IH]; simpl; [discriminate|].
  destruct (f a) as [b|e'] eqn:Ha; simpl.
  - destruct (mapM f l) as [bs|e'']; simpl; [discriminate|].
    intros H. injection H as <-. destruct (IH eq_refl) as (a' & Hin & Ha'). eauto.
  - intros H. injection H as <-. eauto.
Qed.

Lemma Forall_forallb {A : Type} (P : A -> Prop) (p : A -> bool) (l : list A) :
  (forall a, P a <-> p a = true) -> Forall P l <-> forallb p l = true.
Proof.
  intros H. rewrite forallb_forall, Forall_forall.
  split; intros Hl a Ha; apply H; auto.
Qed.

Lemma chars_not_dict (s : string) : forallb is_dict (chars s) = true -> s = EmptyString.
Proof. destruct s; simpl; [reflexivity | discriminate]. Qed.

Lemma Point_from_dict_iff (v : pyval) :
  (exists p, Point.from_dict v = Ok p) <-> is_dict v = true.
Proof.
  destruct v; simpl; split; try discriminate; try (intros (p & H); discriminate).
  - reflexivity.
  - intros _. rewrite Point_from_dict_dict. eauto.
Qed.

(** Iterating a field and decoding its items succeeds exactly on an
    accepted sequence, for an item decoder that accepts no text. *)
Lemma decode_seq_iff {B : Type} (f : pyval -> result B) (item : pyval -> bool)
      (v : pyval) :
  (forall u, (exists b, f u = Ok b) <-> item u = true) ->
  (forall s, item (VStr s) = false) ->
  (exists bs, (items <- py_iter v ;; mapM f items) = Ok bs) <->
  accepts_seq item v = true.
Proof.
  intros Hf Hstr.
  assert (forall l, (exists bs, mapM f l = Ok bs) <-> forallb item l = true) as Hl.
  { intros l. rewrite mapM_Ok_iff. now apply Forall_forallb. }
  destruct v as [| | | |s|l|d]; simpl;
    try (split; [intros (bs & H); discriminate | discriminate]).
  - rewrite Hl. destruct s as [|c s]; simpl; [tauto|].
    rewrite Hstr. simpl. tauto.
  - apply Hl.
  - rewrite Hl. destruct d as [|[k w] d]; simpl; [tauto|].
    rewrite Hstr. simpl. tauto.
Qed.

Lemma Contour_from_dict_iff (v : pyval) :
  (exists c, Contour.from_dict v = Ok c) <-> accepts_contour v = true.
Proof.
  destruct v as [| | | | | |d]; simpl;
    try (split; [intros (c & H); discriminate | discriminate]).
  unfold Contour.from_dict. rewrite !py_get_dict.
  destruct (lookup "points" d) as [v|]; simpl.
  - rewrite <- (decode_seq_iff Point.from_dict is_dict v Point_from_dict_iff)
      by reflexivity.
    simpl. destruct (py_iter v) as [items|e]; simpl.
    + destruct (mapM Point.from_dict items) as [ps|e]; simpl.
      * split; eauto.
      * split; intros (c & H); discriminate.
    + split; intros (c & H); discriminate.
  - split; eauto.
Qed.

Lemma Path_from_dict_iff (v : pyval) :
  (exists o, Path.from_dict v = Ok o) <-> accepts_outline v = true.
Proof.
  destruct v as [| | | | | |d]; simpl;
    try (split; [intros (c & H); discriminate | discriminate]).
  unfold Path.from_dict. rewrite !py_get_dict.
  destruct (lookup "contours" d) as [v|]; simpl.
  - rewrite <- (decode_seq_iff Contour.from_dict accepts_contour v Contour_from_dict_iff)
      by reflexivity.
    simpl. destruct (py_iter v) as [items|e]; simpl.
    + destruct (mapM Contour.from_dict items) as [ps|e]; simpl.
      * split; eauto.
      * split; intros (c & H); discriminate.
    + split; intros (c & H); discriminate.
  - split; eauto.
Qed.

(** X1: decoding succeeds exactly on the accepted shapes.  A point is any
    mapping; a contour is a mapping whose [points], when present, is a
    list of mappings, the empty text or the empty mapping; an outline is a
    mapping whose [contours], when present, is a list of such contours,
    the empty text or the empty mapping.  In particular an explicit
    [null] for [points] or [contours] is rejected, although the missing
    key is accepted. *)
Theorem decode_accepts :
  forall v : pyval,
    ((exists p, Point.from_dict v = Ok p) <-> is_dict v = true) /\
    ((exists c, Contour.from_dict v = Ok c) <-> accepts_contour v = true) /\
    ((exists o, Path.from_dict v = Ok o) <-> accepts_outline v = true).
Proof.
  intros v. split; [apply Point_from_dict_iff|].
  split; [apply Contour_from_dict_iff | apply Path_from_dict_iff].
Qed.

Lemma py_get_Raise (v : pyval) (k : string) (d : pyval) (e : exn) :
  py_get v k d = Raise e -> is_dict v = false /\ e = no_get v.
Proof.
  destruct v; simpl; intros H; try (injection H as <-; auto).
  destruct (lookup k d0); discriminate.
Qed.

Lemma py_iter_Raise (v : pyval) (e : exn) :
  py_iter v = Raise e -> scalar v = true /\ e = not_iterable v.
Proof. destruct v; simpl; intros H; try discriminate; injection H as <-; auto. Qed.

Lemma bind_Raise {A B : Type} (m : result A) (k : A -> result B) (e : exn) :
  bind m k = Raise e -> m = Raise e \/ exists a, m = Ok a /\ k a = Raise e.
Proof.
  destruct m as [a|e']; simpl; intros H.
  - right. exists a. split; [reflexivity | exact H].
  - left. now injection H as ->.
Qed.


Lemma Point_from_dict_Raise (v : pyval) (e : exn) :
  Point.from_dict v = Raise e -> is_dict v = false /\ e = no_get v.
Proof.
  destruct v; simpl; intros H; try (injection H as <-; auto).
  rewrite Point_from_dict_dict in H. discriminate.
Qed.

Lemma Contour_from_dict_Raise (v : pyval) (e : exn) :
  Contour.from_dict v = Raise e -> decode_fault e.
Proof.
  unfold Contour.from_dict. intros H.
  apply bind_Raise in H as [H|(items & _ & H)].
  { apply py_get_Raise in H. exists v. auto. }
  apply bind_Raise in H as [H|(l & _ & H)].
  { apply py_iter_Raise in H. exists items. auto. }
  apply bind_Raise in H as [H|(ps & _ & H)].
  { apply mapM_Raise in H as (u & _ & H).
    apply Point_from_dict_Raise in H. exists u. auto. }
  apply bind_Raise in H as [H|(c & _ & H)]; [|discriminate].
  apply py_get_Raise in H. exists v. auto.
Qed.

(** X2: decoding raises only two exceptions, each about one object [u] of
    the input: [AttributeError] with the message
    ['T' object has no attribute 'get'] when [u] stands where a mapping is
    expected and is not one, and [TypeError] with the message
    ['T' object is not iterable] when [u] is the value of [points] or
    [contours] and is [None], a boolean or a number.  [T] is the type
    name of [u]. *)
Theorem decode_raises :
  forall (v : pyval) (e : exn),
    Path.from_dict v = Raise e ->
    exists u,
      (is_dict u = false /\
       e = AttributeError ("'" ++ type_name u ++ "' object has no attribute 'get'")) \/
      (scalar u = true /\
       e = TypeError ("'" ++ type_name u ++ "' object is not iterable")).
Proof.
  intros v e H. unfold Path.from_dict in H.
  apply bind_Raise in H as [H|(items & _ & H)].
  { apply py_get_Raise in H. exists v. auto. }
  apply bind_Raise in H as [H|(l & _ & H)].
  { apply py_iter_Raise in H. exists items. auto. }
  apply bind_Raise in H as [H|(cs & _ & H)]; [|discriminate].
  apply mapM_Raise in H as (u & _ & H).
  exact (Contour_from_dict_Raise u e H).
Qed.

Lemma decode_raises_witness :
  Path.from_dict (VDict [("contours", VNone)]) =
    Raise (TypeError "'NoneType' object is not iterable") /\
  exists u,
    (is_dict u = false /\
     TypeError "'NoneType' object is not iterable" =
       AttributeError ("'" ++ type_name u ++ "' object has no attribute 'get'")) \/
    (scalar u = true /\
     TypeError "'NoneType' object is not iterable" =
       TypeError ("'" ++ type_name u ++ "' object is not iterable")).
Proof.
  split; [reflexivity|].
  exact (decode_raises (VDict [("contours", VNone)]) _ eq_refl).
Defined.

Lemma parse_input_not_str (json_loads : string -> result pyval) (v : pyval) :
  (forall s, v <> VStr s) -> parse_input json_loads v = Ok v.
Proof. destruct v; intros H; try reflexivity. now destruct (H s). Qed.

(** X3: an input that is not a mapping is refused by every method with the
    same message.  Whatever the object [u] handed to decode (the argument
    itself, or what its text parses to), if [u] is not a mapping the five
    methods return the failure envelope with the error
    ['T' object has no attribute 'get'], [T] the type name of [u]. *)
Theorem processor_rejects_non_mapping :
  forall (json_loads : string -> result pyval) (v u : pyval) (a b : num),
    parse_input json_loads v = Ok u ->
    is_dict u = false ->
    let msg := "'" ++ type_name u ++ "' object has no attribute 'get'" in
    path_bounds json_loads v = failure msg /\
    path_translate json_loads v a b = failure msg /\
    path_scale json_loads v a b = failure msg /\
    path_validate json_loads v = failure msg /\
    path_info json_loads v = failure msg.
Proof.
  intros json_loads v u a b Hp Hu msg.
  assert (Path.from_dict u = Raise (no_get u)) as Hd.
  { destruct u; try discriminate; reflexivity. }
  unfold path_bounds, path_translate, path_scale, path_validate, path_info.
  rewrite Hp. simpl. rewrite Hd. simpl. repeat split.
Qed.

Lemma processor_rejects_non_mapping_witness :
  path_bounds (loads_table [("[]", VList [])]) (VStr "[]") =
    failure "'list' object has no attribute 'get'" /\
  path_info (loads_table [("[]", VList [])]) (VInt 3) =
    failure "'int' object has no attribute 'get'".
Proof.
  split.
  - exact (proj1 (processor_rejects_non_mapping
                    (loads_table [("[]", VList [])]) (VStr "[]") (VList [])
                    (NInt 0) (NInt 0) eq_refl eq_refl)).
  - exact (proj2 (proj2 (proj2 (proj2 (processor_rejects_non_mapping
                    (loads_table [("[]", VList [])]) (VInt 3) (VInt 3)
                    (NInt 0) (NInt 0) eq_refl eq_refl))))).
Defined.

(** ** The codec, exactly *)

Lemma Point_decode_normal (p : Point.t) :
  Point.from_dict (Point.to_dict p) = Ok (normal_point p).
Proof. apply Point_decode_encode. Qed.

Lemma mapM_map {A B C : Type} (f : B -> result C) (h : A -> B) (g : A -> C) :
  (forall a, f (h a) = Ok (g a)) ->
  forall l, mapM f (map h l) = Ok (map g l).
Proof.
  intros H. induction l as [|a l IH]; simpl; [reflexivity|].
  now rewrite H, IH.
Qed.

Lemma Contour_decode_normal (c : Contour.t) :
  Contour.from_dict (Contour.to_dict c) = Ok (normal_contour c).
Proof.
  destruct c as [ps ic]. unfold Contour.from_dict, Contour.to_dict. simpl.
  now rewrite (mapM_map _ _ normal_point Point_decode_normal).
Qed.

Lemma Path_decode_normal (o : Path.t) :
  Path.from_dict (Path.to_dict o) = Ok (normal o).
Proof.
  destruct o as [cs]. unfold Path.from_dict, Path.to_dict. simpl.
  now rewrite (mapM_map _ _ normal_contour Contour_decode_normal).
Qed.

Lemma normal_smooth_kept (s : pyval) : kept_smooth s = true <-> normal_smooth s = s.
Proof.
  unfold kept_smooth, normal_smooth. destruct (truthy s) eqn:E; simpl.
  - tauto.
  - split.
    + destruct s as [|[|]| | | | |]; try discriminate; reflexivity.
    + intros <-. reflexivity.
Qed.

Lemma kept_normal_smooth (s : pyval) : kept_smooth (normal_smooth s) = true.
Proof.
  unfold kept_smooth, normal_smooth. destruct (truthy s) eqn:E; simpl; [|reflexivity].
  now rewrite E.
Qed.

Lemma map_id_iff {A : Type} (f : A -> A) (l : list A) :
  map f l = l <-> Forall (fun a => f a = a) l.
Proof.
  induction l as [|a l IH]; simpl.
  - split; auto.
  - split.
    + intros H. injection H as Ha Hl. constructor; [exact Ha | now apply IH].
    + intros H. inversion H as [|? ? Ha Hl]; subst. rewrite Ha. f_equal. now apply IH.
Qed.

Lemma normal_point_id (p : Point.t) :
  normal_point p = p <-> kept_smooth (Point.smooth p) = true.
Proof.
  rewrite normal_smooth_kept. destruct p as [x y t s]. unfold normal_point. simpl.
  split; [intros H; now injection H | intros ->; reflexivity].
Qed.

Lemma normal_contour_id (c : Contour.t) :
  normal_contour c = c <->
  forallb (fun p => kept_smooth (Point.smooth p)) (Contour.points c) = true.
Proof.
  destruct c as [ps ic]. unfold normal_contour. simpl.
  rewrite <- (Forall_forallb (fun p => normal_point p = p) _ ps normal_point_id).
  rewrite <- map_id_iff.
  split; [intros H; now injection H | intros ->; reflexivity].
Qed.

Lemma normal_id (o : Path.t) :
  normal o = o <-> all_points (fun p => kept_smooth (Point.smooth p)) o = true.
Proof.
  destruct o as [cs]. unfold normal, all_points. simpl.
  rewrite <- (Forall_forallb (fun c => normal_contour c = c) _ cs normal_contour_id).
  rewrite <- map_id_iff.
  split; [intros H; now injection H | intros ->; reflexivity].
Qed.

(** X4: decoding the encoding of an outline gives the outline back, with
    every falsy [smooth] (such as [0], [None] or the empty text) replaced
    by [False]: nothing else is lost, and the result is returned
    unchanged by a further round.  So an outline whose [smooth] values are
    all truthy or [False] is recovered exactly. *)
Theorem decode_encode :
  forall o : Path.t,
    Path.from_dict (Path.to_dict o) = Ok (normal o) /\
    Path.from_dict (Path.to_dict (normal o)) = Ok (normal o) /\
    (normal o = o <->
     all_points (fun p => kept_smooth (Point.smooth p)) o = true).
Proof.
  intros o. split; [apply Path_decode_normal|]. split; [|apply normal_id].
  rewrite Path_decode_normal. f_equal. apply normal_id.
  destruct o as [cs]. unfold all_points, normal. simpl.
  rewrite forallb_forall. intros c Hc. apply in_map_iff in Hc as (c0 & <- & _).
  simpl. rewrite forallb_forall. intros p Hp. apply in_map_iff in Hp as (p0 & <- & _).
  simpl. apply kept_normal_smooth.
Qed.

(** ** Statistics *)

Lemma count_points_nonneg (cs : list Contour.t) : 0 <= count_points cs.
Proof. induction cs as [|c cs IH]; simpl; lia. Qed.

Lemma count_closed_range (cs : list Contour.t) :
  0 <= count_closed cs <= Z.of_nat (List.length cs).
Proof.
  unfold count_closed. split; [lia|]. apply inj_le.
  induction cs as [|c cs IH]; simpl; [lia|].
  destruct (truthy (Contour.is_closed c)); simpl; lia.
Qed.

Lemma is_empty_count (o : Path.t) :
  Path.is_empty o = (count_points (Path.contours o) =? 0).
Proof.
  rewrite is_empty_forallb. induction (Path.contours o) as [|c cs IH]; simpl;
    [reflexivity|].
  pose proof (count_points_nonneg cs) as Hn. rewrite IH.
  unfold Path.no_points. destruct (Contour.points c) as [|p ps].
  - reflexivity.
  - change (List.length (p :: ps)) with (S (List.length ps)).
    symmetry. apply Z.eqb_neq. lia.
Qed.

(** What a method returns once its input is parsed and decoded. *)
Lemma path_validate_decoded (json_loads : string -> result pyval)
      (v u : pyval) (o : Path.t) :
  parse_input json_loads v = Ok u -> Path.from_dict u = Ok o ->
  path_validate json_loads v =
    success [("valid", VBool true); ("stats", statistics o)].
Proof. intros Hp Hd. unfold path_validate. rewrite Hp. simpl. now rewrite Hd. Qed.

Lemma path_validate_failed (json_loads : string -> result pyval)
      (v : pyval) (e : exn) :
  (u <- parse_input json_loads v ;; Path.from_dict u) = Raise e ->
  path_validate json_loads v = failure (str_exn e).
Proof.
  unfold path_validate. destruct (parse_input json_loads v) as [u|e']; simpl.
  - now intros ->.
  - intros H. now injection H as ->.
Qed.

(** X5: the statistics of [path_validate] are consistent.  Whenever it
    does not fail, [valid] is true and the record holds the number [n] of
    contours, the number [c] of closed ones with [0 <= c <= n], the number
    [n - c] of open ones, the number [p >= 0] of points, and [is_empty],
    which is true exactly when [p = 0]. *)
Theorem validate_statistics :
  forall (json_loads : string -> result pyval) (v : pyval),
    (exists msg, path_validate json_loads v = failure msg) \/
    (exists n c p : Z,
       path_validate json_loads v =
         VDict [("success", VBool true);
                ("valid", VBool true);
                ("stats",
                 VDict [("total_contours", VInt n);
                        ("closed_contours", VInt c);
                        ("open_contours", VInt (n - c));
                        ("total_points", VInt p);
                        ("is_empty", VBool (p =? 0))])] /\
       0 <= c <= n /\ 0 <= p).
Proof.
  intros json_loads v.
  destruct (u <- parse_input json_loads v ;; Path.from_dict u) as [o|e] eqn:E.
  - right. apply bind_Ok in E as (u & Hp & Hd).
    exists (Z.of_nat (List.length (Path.contours o))),
           (count_closed (Path.contours o)), (count_points (Path.contours o)).
    rewrite (path_validate_decoded _ _ _ _ Hp Hd).
    unfold success, statistics. rewrite is_empty_count.
    split; [reflexivity|].
    split; [apply count_closed_range | apply count_points_nonneg].
  - left. exists (str_exn e). now apply path_validate_failed.
Qed.

(** ** [path_info] *)

Lemma decoded_not_str (u : pyval) (o : Path.t) :
  Path.from_dict u = Ok o -> forall s, u <> VStr s.
Proof. intros H s ->. discriminate. Qed.

Lemma get_bounds_null (o : Path.t) (b : pyval) :
  Path.get_bounds o = Ok b -> (b = VNone <-> Path.is_empty o = true).
Proof.
  intros H. apply get_bounds_inv in H as [[He ->]|(He & _ & _ & w & h & _ & _ & ->)].
  - tauto.
  - rewrite He. split; discriminate.
Qed.

(** X6: [path_info] is [path_bounds] and [path_validate] put together.
    On every input it fails exactly when [path_bounds] fails, with the
    same error; otherwise its [info] record carries the [bounds] that
    [path_bounds] returns, the [stats] that [path_validate] returns (never
    the empty default) and the version [1.0.0-simple], and [bounds] is
    null exactly when [stats.is_empty] is true. *)
Theorem info_combines_bounds_and_stats :
  forall (json_loads : string -> result pyval) (v : pyval),
    (exists msg,
       path_bounds json_loads v = failure msg /\
       path_info json_loads v = failure msg) \/
    (exists bounds stats,
       path_bounds json_loads v =
         VDict [("success", VBool true); ("bounds", bounds)] /\
       path_validate json_loads v =
         VDict [("success", VBool true); ("valid", VBool true); ("stats", stats)] /\
       path_info json_loads v =
         VDict [("success", VBool true);
                ("info", VDict [("bounds", bounds);
                                ("stats", stats);
                                ("version", VStr "1.0.0-simple")])] /\
       (bounds = VNone <-> field stats "is_empty" = Some (VBool true))).
Proof.
  intros json_loads v. unfold path_bounds, path_info.
  destruct (parse_input json_loads v) as [u|e] eqn:Hp; simpl;
    [|left; exists (str_exn e); split; reflexivity].
  destruct (Path.from_dict u) as [o|e] eqn:Hd; simpl; [|left; exists (str_exn e); split; reflexivity].
  destruct (Path.get_bounds o) as [b|e] eqn:Hb; simpl; [|left; exists (str_exn e); split; reflexivity].
  right. exists b, (statistics o).
  rewrite (path_validate_decoded _ _ _ _ Hp Hd).
  rewrite (path_validate_decoded json_loads u u o
             (parse_input_not_str _ _ (decoded_not_str _ _ Hd)) Hd).
  repeat split; try reflexivity.
  - intros ->. simpl. do 2 f_equal. now apply (get_bounds_null o VNone Hb).
  - simpl. intros H. apply (get_bounds_null o b Hb). congruence.
Qed.

(** ** Statistics survive [translate] and [scale] *)

(** The statistics look at the contours through their [is_closed] flag
    and their number of points only. *)
Lemma statistics_ext (o o' : Path.t) :
  map (fun c => (Contour.is_closed c, List.length (Contour.points c))) (Path.contours o')
  = map (fun c => (Contour.is_closed c, List.length (Contour.points c))) (Path.contours o) ->
  statistics o' = statistics o.
Proof.
  intros H.
  assert (List.length (Path.contours o') = List.length (Path.contours o) /\
          count_closed (Path.contours o') = count_closed (Path.contours o) /\
          count_points (Path.contours o') = count_points (Path.contours o))
    as (H1 & H2 & H3).
  { unfold count_closed in *.
    revert H. generalize (Path.contours o). generalize (Path.contours o').
    induction l as [|c' l IH]; intros [|c l0]; simpl; intros H;
      try discriminate; [auto|].
    injection H as Hc Hps Hl. destruct (IH _ Hl) as (E1 & E2 & E3).
    rewrite Hc, Hps, E1, E3.
    repeat split. destruct (truthy (Contour.is_closed c)); simpl; lia. }
  unfold statistics. now rewrite !is_empty_count, H1, H2, H3.
Qed.

Lemma skeleton_statistics (o o' : Path.t) :
  skeleton o' = skeleton o -> statistics o' = statistics o.
Proof.
  intros H. apply statistics_ext.
  apply (f_equal (map (fun s : pyval * list (pyval * pyval) =>
                         (fst s, List.length (snd s))))) in H.
  unfold skeleton in H. rewrite !map_map in H. simpl in H.
  assert (forall cs : list Contour.t,
            map (fun c => (Contour.is_closed c, List.length (Contour.points c))) cs
            = map (fun c => (Contour.is_closed c,
                             List.length (map (fun p => (Point.type p, Point.smooth p))
                                              (Contour.points c)))) cs) as E
      by (intros cs; apply map_ext; intros c; now rewrite length_map).
  rewrite !E. exact H.
Qed.

Lemma normal_statistics (o : Path.t) : statistics (normal o) = statistics o.
Proof.
  apply statistics_ext. unfold normal. simpl. rewrite map_map.
  apply map_ext. intros c. simpl. now rewrite length_map.
Qed.

Lemma transform_statistics (o o' : Path.t) (a b : num) :
  Path.translate o a b = Ok o' \/ Path.scale o a b = Ok o' ->
  statistics o' = statistics o.
Proof.
  intros H. apply skeleton_statistics. destruct o as [cs].
  destruct H as [H|H]; [unfold Path.translate in H | unfold Path.scale in H];
    simpl in H; apply bind_Ok in H as (cs' & Hcs & H); injection H as <-.
  - exact (transform_skeleton py_add a b cs cs' Hcs).
  - exact (transform_skeleton py_mul a b cs cs' Hcs).
Qed.

Lemma try_except_success (body : result pyval) (payload : list (string * pyval)) :
  try_except body = VDict (("success", VBool true) :: payload) ->
  body = Ok (VDict (("success", VBool true) :: payload)).
Proof. destruct body as [r|e]; simpl; [now intros -> | discriminate]. Qed.

(** X7: [translate] and [scale] never change the statistics.  When
    [path_translate] or [path_scale] succeeds on an input, validating the
    [path] it returns gives exactly what validating the input gives: the
    same counts of contours, closed and open contours and points, and the
    same [is_empty]. *)
Theorem transform_keeps_statistics :
  forall (json_loads : string -> result pyval) (v path : pyval) (a b : num),
    path_translate json_loads v a b =
      VDict [("success", VBool true); ("path", path)] \/
    path_scale json_loads v a b =
      VDict [("success", VBool true); ("path", path)] ->
    path_validate json_loads path = path_validate json_loads v.
Proof.
  intros json_loads v path a b H.
  assert (exists u o o',
            parse_input json_loads v = Ok u /\ Path.from_dict u = Ok o /\
            (Path.translate o a b = Ok o' \/ Path.scale o a b = Ok o') /\
            path = Path.to_dict o') as (u & o & o' & Hp & Hd & Ht & ->).
  { destruct H as [H|H]; apply try_except_success in H;
      apply bind_Ok in H as (u & Hp & H); apply bind_Ok in H as (o & Hd & H);
      apply bind_Ok in H as (o' & Ht & H); injection H as <-;
      exists u, o, o'; auto. }
  rewrite (path_validate_decoded _ _ _ _ Hp Hd).
  rewrite (path_validate_decoded json_loads (Path.to_dict o') (Path.to_dict o')
             (normal o') eq_refl (Path_decode_normal o')).
  now rewrite normal_statistics, (transform_statistics _ _ _ _ Ht).
Qed.

Lemma transform_keeps_statistics_witness :
  path_translate loads_reject square (NInt 50) (NFloat 0.5) =
    VDict [("success", VBool true);
           ("path", Path.to_dict (Path.mk
              [Contour.mk [Point.mk (VInt 50) (VFloat 0.5) (VStr "line") (VBool false);
                           Point.mk (VInt 150) (VFloat 0.5) (VStr "line") (VBool false);
                           Point.mk (VInt 150) (VFloat 100.5) (VStr "line") (VBool false);
                           Point.mk (VInt 50) (VFloat 100.5) (VStr "line") (VBool false)]
                          (VBool true)]))] /\
  path_validate loads_reject (Path.to_dict (Path.mk
              [Contour.mk [Point.mk (VInt 50) (VFloat 0.5) (VStr "line") (VBool false);
                           Point.mk (VInt 150) (VFloat 0.5) (VStr "line") (VBool false);
                           Point.mk (VInt 150) (VFloat 100.5) (VStr "line") (VBool false);
                           Point.mk (VInt 50) (VFloat 100.5) (VStr "line") (VBool false)]
                          (VBool true)]))
    = path_validate loads_reject square.
Proof.
  assert (path_translate loads_reject square (NInt 50) (NFloat 0.5) =
    VDict [("success", VBool true);
           ("path", Path.to_dict (Path.mk
              [Contour.mk [Point.mk (VInt 50) (VFloat 0.5) (VStr "line") (VBool false);
                           Point.mk (VInt 150) (VFloat 0.5) (VStr "line") (VBool false);
                           Point.mk (VInt 150) (VFloat 100.5) (VStr "line") (VBool false);
                           Point.mk (VInt 50) (VFloat 100.5) (VStr "line") (VBool false)]
                          (VBool true)]))]) as H by (vm_compute; reflexivity).
  split; [exact H|].
  exact (transform_keeps_statistics loads_reject square _ (NInt 50) (NFloat 0.5)
           (or_introl H)).
Defined.

(** ** Integer scaling *)

Lemma scale_point_int (a b : Z) (p : Point.t) :
  int_like (Point.x p) && int_like (Point.y p) = true ->
  Path.scale_point (NInt a) (NInt b) p = Ok (stretch_point a b p).
Proof.
  destruct p as [x y t s]. simpl. intros H.
  apply andb_true_iff in H as [Hx Hy].
  destruct x; try discriminate; destruct y; try discriminate; reflexivity.
Qed.

Lemma scale_int (a b : Z) (o : Path.t) :
  all_coords int_like o = true ->
  Path.scale o (NInt a) (NInt b) = Ok (stretch a b o).
Proof.
  destruct o as [cs]. unfold all_coords, Path.scale, stretch. simpl.
  intros H. rewrite (mapM_total _ (stretch_contour a b)); [reflexivity|].
  apply Forall_forall. intros c Hc.
  rewrite forallb_forall in H. specialize (H c Hc).
  unfold Path.scale_contour, stretch_contour.
  rewrite (mapM_total _ (stretch_point a b)); [reflexivity|].
  apply Forall_forall. intros p Hp.
  rewrite forallb_forall in H. apply scale_point_int, H, Hp.
Qed.

Lemma stretch_int_like (a b : Z) (o : Path.t) :
  all_coords int_like (stretch a b o) = true.
Proof.
  unfold all_coords, stretch. simpl.
  apply forallb_forall. intros c Hc.
  apply in_map_iff in Hc as (c0 & <- & _). simpl.
  apply forallb_forall. intros p Hp.
  apply in_map_iff in Hp as (p0 & <- & _). reflexivity.
Qed.

Lemma stretch_stretch (a b c d : Z) (o : Path.t) :
  stretch c d (stretch a b o) = stretch (a * c) (b * d) o.
Proof.
  unfold stretch. simpl. f_equal. rewrite map_map. apply map_ext. intros k.
  unfold stretch_contour. simpl. f_equal. rewrite map_map. apply map_ext.
  intros p. unfold stretch_point. simpl. unfold int_of. simpl.
  now rewrite <- !Z.mul_assoc.
Qed.

Lemma stretch_shift (a b c d : Z) (o : Path.t) :
  stretch c d (shift a b o) = shift (a * c) (b * d) (stretch c d o).
Proof.
  unfold stretch, shift. simpl. f_equal. rewrite !map_map. apply map_ext. intros k.
  unfold stretch_contour, shift_contour. simpl. f_equal. rewrite !map_map.
  apply map_ext. intros p. unfold stretch_point, shift_point. simpl.
  unfold int_of. simpl. now rewrite !Z.mul_add_distr_r.
Qed.

(** X8: on an outline with integer coordinates and for integer factors,
    where Python's arithmetic is exact, scaling twice equals scaling once
    by the products of the factors:
    [scale (scale o a b) c d = scale o (a * c) (b * d)]. *)
Theorem scale_twice_int :
  forall (o : Path.t) (a b c d : Z),
    all_coords int_like o = true ->
    exists o1 o2,
      Path.scale o (NInt a) (NInt b) = Ok o1 /\
      Path.scale o1 (NInt c) (NInt d) = Ok o2 /\
      Path.scale o (NInt (a * c)) (NInt (b * d)) = Ok o2.
Proof.
  intros o a b c d H.
  exists (stretch a b o), (stretch c d (stretch a b o)). repeat split.
  - now apply scale_int.
  - apply scale_int, stretch_int_like.
  - rewrite stretch_stretch. now apply scale_int.
Qed.

Lemma scale_twice_int_witness :
  all_coords int_like square_path = true /\
  exists o1 o2,
    Path.scale square_path (NInt 2) (NInt (-3)) = Ok o1 /\
    Path.scale o1 (NInt 5) (NInt 7) = Ok o2 /\
    Path.scale square_path (NInt (2 * 5)) (NInt (-3 * 7)) = Ok o2.
Proof.
  split; [reflexivity|].
  apply (scale_twice_int square_path 2 (-3) 5 7). reflexivity.
Defined.

(** X9: scaling distributes over translation on integers.  On an outline
    with integer coordinates, translating by [(a, b)] and then scaling by
    [(c, d)] gives the same outline as scaling by [(c, d)] and then
    translating by [(a * c, b * d)]. *)
Theorem scale_of_translate_int :
  forall (o : Path.t) (a b c d : Z),
    all_coords int_like o = true ->
    exists o1 o2 o3,
      Path.translate o (NInt a) (NInt b) = Ok o1 /\
      Path.scale o1 (NInt c) (NInt d) = Ok o3 /\
      Path.scale o (NInt c) (NInt d) = Ok o2 /\
      Path.translate o2 (NInt (a * c)) (NInt (b * d)) = Ok o3.
Proof.
  intros o a b c d H.
  exists (shift a b o), (stretch c d o), (stretch c d (shift a b o)).
  repeat split.
  - now apply translate_int.
  - apply scale_int, shift_int_like.
  - now apply scale_int.
  - rewrite stretch_shift. apply translate_int, stretch_int_like.
Qed.

Lemma scale_of_translate_int_witness :
  all_coords int_like square_path = true /\
  exists o1 o2 o3,
    Path.translate square_path (NInt 10) (NInt (-20)) = Ok o1 /\
    Path.scale o1 (NInt 3) (NInt (-2)) = Ok o3 /\
    Path.scale square_path (NInt 3) (NInt (-2)) = Ok o2 /\
    Path.translate o2 (NInt (10 * 3)) (NInt (-20 * -2)) = Ok o3.
Proof.
  split; [reflexivity|].
  apply (scale_of_translate_int square_path 10 (-20) 3 (-2)). reflexivity.
Defined.

(** ** The box of a shifted or stretched outline *)

Lemma vlt_int_like (a b : pyval) :
  int_like a = true -> int_like b = true -> vlt a b = (int_of a <? int_of b).
Proof.
  intros Ha Hb.
  assert (vlt a b = Qltb (inject_Z (int_of a)) (inject_Z (int_of b))) as ->
      by (destruct a; try discriminate; destruct b; try discriminate; reflexivity).
  destruct (Z.ltb_spec (int_of a) (int_of b)) as [H|H].
  - apply Qltb_lt. now rewrite <- Zlt_Qlt.
  - destruct (Qltb _ _) eqn:E; [|reflexivity].
    apply Qltb_lt in E. rewrite <- Zlt_Qlt in E. lia.
Qed.

Lemma int_of_VInt (z : Z) : int_of (VInt z) = z.
Proof. reflexivity. Qed.

Lemma on_int_int_like (g : Z -> Z) (v : pyval) : int_like (on_int g v) = true.
Proof. reflexivity. Qed.

Lemma int_of_on_int (g : Z -> Z) (v : pyval) : int_of (on_int g v) = g (int_of v).
Proof. reflexivity. Qed.

Lemma vmin_int_like (m x : pyval) :
  int_like m = true -> int_like x = true -> int_like (vmin m x) = true.
Proof. unfold vmin. now destruct (vlt x m). Qed.

Lemma vmax_int_like (m x : pyval) :
  int_like m = true -> int_like x = true -> int_like (vmax m x) = true.
Proof. unfold vmax. now destruct (vlt m x). Qed.

Lemma vmin_infinity (x : pyval) : int_like x = true -> vmin (VFloat infinity) x = x.
Proof. destruct x; try discriminate; reflexivity. Qed.

Lemma vmax_neg_infinity (x : pyval) :
  int_like x = true -> vmax (VFloat neg_infinity) x = x.
Proof. destruct x; try discriminate; reflexivity. Qed.

Section Monotone.

Variable g : Z -> Z.

(** Through a non-decreasing function minima go to minima. *)
Section Increasing.

Hypothesis g_incr : forall x y, x <= y -> g x <= g y.

Lemma vmin_incr (m x : pyval) :
  int_like m = true -> int_like x = true ->
  vmin (on_int g m) (on_int g x) = on_int g (vmin m x).
Proof.
  intros Hm Hx. unfold vmin.
  rewrite (vlt_int_like _ _ (on_int_int_like g x) (on_int_int_like g m)).
  rewrite (vlt_int_like _ _ Hx Hm), !int_of_on_int.
  destruct (Z.ltb_spec (int_of x) (int_of m)) as [H|H];
    destruct (Z.ltb_spec (g (int_of x)) (g (int_of m))) as [H'|H']; try reflexivity.
  - unfold on_int. f_equal. pose proof (g_incr (int_of x) (int_of m)). lia.
  - pose proof (g_incr (int_of m) (int_of x)). lia.
Qed.

Lemma vmax_incr (m x : pyval) :
  int_like m = true -> int_like x = true ->
  vmax (on_int g m) (on_int g x) = on_int g (vmax m x).
Proof.
  intros Hm Hx. unfold vmax.
  rewrite (vlt_int_like _ _ (on_int_int_like g m) (on_int_int_like g x)).
  rewrite (vlt_int_like _ _ Hm Hx), !int_of_on_int.
  destruct (Z.ltb_spec (int_of m) (int_of x)) as [H|H];
    destruct (Z.ltb_spec (g (int_of m)) (g (int_of x))) as [H'|H']; try reflexivity.
  - unfold on_int. f_equal. pose proof (g_incr (int_of m) (int_of x)). lia.
  - pose proof (g_incr (int_of x) (int_of m)). lia.
Qed.

End Increasing.

(** Through a non-increasing function minima go to maxima. *)
Section Decreasing.

Hypothesis g_decr : forall x y, x <= y -> g y <= g x.

Lemma vmin_decr (m x : pyval) :
  int_like m = true -> int_like x = true ->
  vmin (on_int g m) (on_int g x) = on_int g (vmax m x).
Proof.
  intros Hm Hx. unfold vmin, vmax.
  rewrite (vlt_int_like _ _ (on_int_int_like g x) (on_int_int_like g m)).
  rewrite (vlt_int_like _ _ Hm Hx), !int_of_on_int.
  destruct (Z.ltb_spec (int_of m) (int_of x)) as [H|H];
    destruct (Z.ltb_spec (g (int_of x)) (g (int_of m))) as [H'|H']; try reflexivity.
  - unfold on_int. f_equal. pose proof (g_decr (int_of m) (int_of x)). lia.
  - pose proof (g_decr (int_of x) (int_of m)). lia.
Qed.

Lemma vmax_decr (m x : pyval) :
  int_like m = true -> int_like x = true ->
  vmax (on_int g m) (on_int g x) = on_int g (vmin m x).
Proof.
  intros Hm Hx. unfold vmin, vmax.
  rewrite (vlt_int_like _ _ (on_int_int_like g m) (on_int_int_like g x)).
  rewrite (vlt_int_like _ _ Hx Hm), !int_of_on_int.
  destruct (Z.ltb_spec (int_of x) (int_of m)) as [H|H];
    destruct (Z.ltb_spec (g (int_of m)) (g (int_of x))) as [H'|H']; try reflexivity.
  - unfold on_int. f_equal. pose proof (g_decr (int_of x) (int_of m)). lia.
  - pose proof (g_decr (int_of m) (int_of x)). lia.
Qed.

End Decreasing.

End Monotone.

(** A running extremum sent through a map that commutes with the step. *)
Lemma fold_commute (step step' : pyval -> pyval -> pyval) (h : pyval -> pyval) :
  (forall m x, int_like m = true -> int_like x = true ->
               step' (h m) (h x) = h (step m x)) ->
  (forall m x, int_like m = true -> int_like x = true -> int_like (step m x) = true) ->
  forall vs m, forallb int_like vs = true -> int_like m = true ->
    fold_left step' (map h vs) (h m) = h (fold_left step vs m).
Proof.
  intros Hc Hi. induction vs as [|x vs IH]; simpl; intros m Hvs Hm; [reflexivity|].
  apply andb_true_iff in Hvs as [Hx Hvs].
  rewrite Hc by assumption. apply IH; auto.
Qed.

Lemma fold_int_like (step : pyval -> pyval -> pyval) :
  (forall m x, int_like m = true -> int_like x = true -> int_like (step m x) = true) ->
  forall vs m, forallb int_like vs = true -> int_like m = true ->
    int_like (fold_left step vs m) = true.
Proof.
  intros Hi. induction vs as [|x vs IH]; simpl; intros m Hvs Hm; [assumption|].
  apply andb_true_iff in Hvs as [Hx Hvs]. apply IH; auto.
Qed.

(** The extrema of a non-empty integer axis are integers, in order. *)
Lemma int_axis_extrema (vs : list pyval) :
  vs <> [] -> forallb int_like vs = true ->
  int_like (fold_left vmin vs (VFloat infinity)) = true /\
  int_like (fold_left vmax vs (VFloat neg_infinity)) = true /\
  int_of (fold_left vmin vs (VFloat infinity))
    <= int_of (fold_left vmax vs (VFloat neg_infinity)).
Proof.
  intros Hne Hvs.
  assert (Forall (fun v => numeric v = true) vs) as Hnum.
  { apply Forall_forall. intros v Hv. rewrite forallb_forall in Hvs.
    apply int_like_numeric; auto. }
  assert (Forall (fun v => is_nan v = false) vs) as Hnan.
  { apply Forall_forall. intros v Hv. rewrite forallb_forall in Hvs.
    apply int_like_not_nan; auto. }
  destruct (vmin_attained vs Hne Hnum Hnan) as [Hm _].
  destruct (vmax_attained vs Hne Hnum Hnan) as [HM Hle].
  rewrite forallb_forall in Hvs.
  pose proof (Hvs _ Hm) as Im. pose proof (Hvs _ HM) as IM.
  split; [exact Im|]. split; [exact IM|].
  pose proof (vle_not_lt _ _ (Hle _ Hm)) as Hlt.
  rewrite (vlt_int_like _ _ IM Im) in Hlt. apply Z.ltb_ge in Hlt. exact Hlt.
Qed.

Lemma axis_incr (g : Z -> Z) (vs : list pyval) :
  (forall x y, x <= y -> g x <= g y) ->
  vs <> [] -> forallb int_like vs = true ->
  fold_left vmin (map (on_int g) vs) (VFloat infinity)
    = on_int g (fold_left vmin vs (VFloat infinity)) /\
  fold_left vmax (map (on_int g) vs) (VFloat neg_infinity)
    = on_int g (fold_left vmax vs (VFloat neg_infinity)).
Proof.
  intros Hg Hne Hvs. destruct vs as [|x vs]; [congruence|]. simpl in *.
  apply andb_true_iff in Hvs as [Hx Hvs].
  rewrite (vmin_infinity x Hx), (vmax_neg_infinity x Hx).
  rewrite (vmin_infinity _ (on_int_int_like g x)).
  rewrite (vmax_neg_infinity _ (on_int_int_like g x)).
  split; apply fold_commute;
    auto using vmin_incr, vmax_incr, vmin_int_like, vmax_int_like.
Qed.

Lemma axis_decr (g : Z -> Z) (vs : list pyval) :
  (forall x y, x <= y -> g y <= g x) ->
  vs <> [] -> forallb int_like vs = true ->
  fold_left vmin (map (on_int g) vs) (VFloat infinity)
    = on_int g (fold_left vmax vs (VFloat neg_infinity)) /\
  fold_left vmax (map (on_int g) vs) (VFloat neg_infinity)
    = on_int g (fold_left vmin vs (VFloat infinity)).
Proof.
  intros Hg Hne Hvs. destruct vs as [|x vs]; [congruence|]. simpl in *.
  apply andb_true_iff in Hvs as [Hx Hvs].
  rewrite (vmin_infinity x Hx), (vmax_neg_infinity x Hx).
  rewrite (vmin_infinity _ (on_int_int_like g x)).
  rewrite (vmax_neg_infinity _ (on_int_int_like g x)).
  split; apply fold_commute;
    auto using vmin_decr, vmax_decr, vmin_int_like, vmax_int_like.
Qed.

Lemma all_coords_axes (P : pyval -> bool) (o : Path.t) :
  all_coords P o = true ->
  forallb P (x_coords o) = true /\ forallb P (y_coords o) = true.
Proof.
  unfold all_coords, x_coords, y_coords.
  induction (Path.contours o) as [|c cs IH]; simpl; [auto|].
  intros H. apply andb_true_iff in H as [Hc Hcs].
  destruct (IH Hcs) as [IHx IHy]. rewrite !forallb_app, IHx, IHy, !andb_true_r.
  clear -Hc. induction (Contour.points c) as [|p ps IHp]; simpl in *; [auto|].
  apply andb_true_iff in Hc as [Hp Hps]. apply andb_true_iff in Hp as [Hx Hy].
  destruct (IHp Hps) as [-> ->]. now rewrite Hx, Hy.
Qed.

Lemma forallb_int_like_numeric (vs : list pyval) :
  forallb int_like vs = true -> Forall (fun v => numeric v = true) vs.
Proof.
  rewrite forallb_forall, Forall_forall. auto using int_like_numeric.
Qed.

(** The box of a non-empty outline with integer coordinates. *)
Lemma get_bounds_int (o : Path.t) :
  Path.is_empty o = false -> all_coords int_like o = true ->
  Path.get_bounds o =
    Ok (bounding_box
          (fold_left vmin (x_coords o) (VFloat infinity))
          (fold_left vmin (y_coords o) (VFloat infinity))
          (fold_left vmax (x_coords o) (VFloat neg_infinity))
          (fold_left vmax (y_coords o) (VFloat neg_infinity))
          (VInt (int_of (fold_left vmax (x_coords o) (VFloat neg_infinity))
                 - int_of (fold_left vmin (x_coords o) (VFloat infinity))))
          (VInt (int_of (fold_left vmax (y_coords o) (VFloat neg_infinity))
                 - int_of (fold_left vmin (y_coords o) (VFloat infinity))))).
Proof.
  intros He H. destruct (all_coords_axes _ _ H) as [Hx Hy].
  destruct (not_empty_coords o He) as [Ex Ey].
  destruct (int_axis_extrema _ Ex Hx) as (Ix & IX & _).
  destruct (int_axis_extrema _ Ey Hy) as (Iy & IY & _).
  apply get_bounds_numeric; auto using forallb_int_like_numeric, py_sub_int_like.
Qed.

Lemma coords_shift (a b : Z) (o : Path.t) :
  x_coords (shift a b o) = map (on_int (fun z => z + a)) (x_coords o) /\
  y_coords (shift a b o) = map (on_int (fun z => z + b)) (y_coords o).
Proof.
  unfold x_coords, y_coords, shift. simpl.
  induction (Path.contours o) as [|c cs [IHx IHy]]; simpl; [auto|].
  rewrite IHx, IHy, !map_app, !map_map. auto.
Qed.

Lemma coords_stretch (a b : Z) (o : Path.t) :
  x_coords (stretch a b o) = map (on_int (fun z => z * a)) (x_coords o) /\
  y_coords (stretch a b o) = map (on_int (fun z => z * b)) (y_coords o).
Proof.
  unfold x_coords, y_coords, stretch. simpl.
  induction (Path.contours o) as [|c cs [IHx IHy]]; simpl; [auto|].
  rewrite IHx, IHy, !map_app, !map_map. auto.
Qed.

Lemma is_empty_shift (a b : Z) (o : Path.t) :
  Path.is_empty (shift a b o) = Path.is_empty o.
Proof.
  rewrite !is_empty_forallb. unfold shift. simpl.
  induction (Path.contours o) as [|c cs IH]; simpl; [reflexivity|].
  rewrite IH. f_equal. unfold Path.no_points. simpl.
  now destruct (Contour.points c).
Qed.

Lemma is_empty_stretch (a b : Z) (o : Path.t) :
  Path.is_empty (stretch a b o) = Path.is_empty o.
Proof.
  rewrite !is_empty_forallb. unfold stretch. simpl.
  induction (Path.contours o) as [|c cs IH]; simpl; [reflexivity|].
  rewrite IH. f_equal. unfold Path.no_points. simpl.
  now destruct (Contour.points c).
Qed.

Lemma axis_shift (a : Z) (vs : list pyval) :
  vs <> [] -> forallb int_like vs = true ->
  fold_left vmin (map (on_int (fun z => z + a)) vs) (VFloat infinity)
    = VInt (int_of (fold_left vmin vs (VFloat infinity)) + a) /\
  fold_left vmax (map (on_int (fun z => z + a)) vs) (VFloat neg_infinity)
    = VInt (int_of (fold_left vmax vs (VFloat neg_infinity)) + a).
Proof.
  intros Hne Hvs. apply (axis_incr (fun z => z + a)); auto. intros; lia.
Qed.

Lemma axis_stretch (a : Z) (vs : list pyval) :
  vs <> [] -> forallb int_like vs = true ->
  fold_left vmin (map (on_int (fun z => z * a)) vs) (VFloat infinity)
    = VInt (Z.min (int_of (fold_left vmin vs (VFloat infinity)) * a)
                  (int_of (fold_left vmax vs (VFloat neg_infinity)) * a)) /\
  fold_left vmax (map (on_int (fun z => z * a)) vs) (VFloat neg_infinity)
    = VInt (Z.max (int_of (fold_left vmin vs (VFloat infinity)) * a)
                  (int_of (fold_left vmax vs (VFloat neg_infinity)) * a)).
Proof.
  intros Hne Hvs. destruct (int_axis_extrema vs Hne Hvs) as (_ & _ & Hle).
  destruct (Z_le_gt_dec 0 a) as [Ha|Ha].
  - destruct (axis_incr (fun z => z * a) vs) as [-> ->]; auto.
    { intros. nia. }
    unfold on_int. split; f_equal; nia.
  - destruct (axis_decr (fun z => z * a) vs) as [-> ->]; auto.
    { intros. nia. }
    unfold on_int. split; f_equal; nia.
Qed.

(** X10: translation moves the bounding box and keeps its size.  For a
    non-empty outline with integer coordinates and integer offsets
    [(a, b)], the box of the translated outline is the box of the outline
    with [a] added to [xMin] and [xMax] and [b] added to [yMin] and
    [yMax]; [width] and [height] are the same integers. *)
Theorem bounds_of_translated_int :
  forall (o : Path.t) (a b : Z),
    all_coords int_like o = true -> Path.is_empty o = false ->
    exists (o' : Path.t) (xMin yMin xMax yMax : pyval) (width height : Z),
      Path.translate o (NInt a) (NInt b) = Ok o' /\
      Path.get_bounds o =
        Ok (bounding_box xMin yMin xMax yMax (VInt width) (VInt height)) /\
      Path.get_bounds o' =
        Ok (bounding_box (VInt (int_of xMin + a)) (VInt (int_of yMin + b))
                         (VInt (int_of xMax + a)) (VInt (int_of yMax + b))
                         (VInt width) (VInt height)) /\
      int_like xMin = true /\ int_like yMin = true /\
      int_like xMax = true /\ int_like yMax = true /\
      width = int_of xMax - int_of xMin /\ height = int_of yMax - int_of yMin.
Proof.
  intros o a b H He.
  destruct (all_coords_axes _ _ H) as [Hx Hy].
  destruct (not_empty_coords o He) as [Ex Ey].
  destruct (int_axis_extrema _ Ex Hx) as (Ix & IX & _).
  destruct (int_axis_extrema _ Ey Hy) as (Iy & IY & _).
  exists (shift a b o). do 6 eexists.
  split; [now apply translate_int|].
  split; [now apply get_bounds_int|].
  split; [|repeat split; assumption].
  rewrite get_bounds_int
    by (rewrite ?is_empty_shift; auto using shift_int_like).
  destruct (coords_shift a b o) as [-> ->].
  destruct (axis_shift a _ Ex Hx) as [-> ->].
  destruct (axis_shift b _ Ey Hy) as [-> ->].
  rewrite !int_of_VInt.
  set (mx := int_of (fold_left vmin (x_coords o) (VFloat infinity))).
  set (Mx := int_of (fold_left vmax (x_coords o) (VFloat neg_infinity))).
  set (my := int_of (fold_left vmin (y_coords o) (VFloat infinity))).
  set (My := int_of (fold_left vmax (y_coords o) (VFloat neg_infinity))).
  replace (Mx + a - (mx + a)) with (Mx - mx) by lia.
  replace (My + b - (my + b)) with (My - my) by lia.
  reflexivity.
Qed.

Lemma bounds_of_translated_int_witness :
  exists (o' : Path.t) (xMin yMin xMax yMax : pyval) (width height : Z),
    Path.translate square_path (NInt 50) (NInt 25) = Ok o' /\
    Path.get_bounds square_path =
      Ok (bounding_box xMin yMin xMax yMax (VInt width) (VInt height)) /\
    Path.get_bounds o' =
      Ok (bounding_box (VInt (int_of xMin + 50)) (VInt (int_of yMin + 25))
                       (VInt (int_of xMax + 50)) (VInt (int_of yMax + 25))
                       (VInt width) (VInt height)) /\
    int_like xMin = true /\ int_like yMin = true /\
    int_like xMax = true /\ int_like yMax = true /\
    width = int_of xMax - int_of xMin /\ height = int_of yMax - int_of yMin.
Proof.
  exact (bounds_of_translated_int square_path 50 25 eq_refl eq_refl).
Defined.

(** X11: scaling scales the bounding box.  For a non-empty outline with
    integer coordinates and integer factors [(a, b)], the extrema of the
    scaled outline are the extrema of the outline multiplied by the
    factor, exchanged when the factor is negative; [width] is multiplied
    by [|a|] and [height] by [|b|]. *)
Theorem bounds_of_scaled_int :
  forall (o : Path.t) (a b : Z),
    all_coords int_like o = true -> Path.is_empty o = false ->
    exists (o' : Path.t) (xMin yMin xMax yMax : pyval) (width height : Z),
      Path.scale o (NInt a) (NInt b) = Ok o' /\
      Path.get_bounds o =
        Ok (bounding_box xMin yMin xMax yMax (VInt width) (VInt height)) /\
      Path.get_bounds o' =
        Ok (bounding_box
              (VInt (Z.min (int_of xMin * a) (int_of xMax * a)))
              (VInt (Z.min (int_of yMin * b) (int_of yMax * b)))
              (VInt (Z.max (int_of xMin * a) (int_of xMax * a)))
              (VInt (Z.max (int_of yMin * b) (int_of yMax * b)))
              (VInt (width * Z.abs a)) (VInt (height * Z.abs b))) /\
      int_like xMin = true /\ int_like yMin = true /\
      int_like xMax = true /\ int_like yMax = true /\
      width = int_of xMax - int_of xMin /\ height = int_of yMax - int_of yMin /\
      0 <= width /\ 0 <= height.
Proof.
  intros o a b H He.
  destruct (all_coords_axes _ _ H) as [Hx Hy].
  destruct (not_empty_coords o He) as [Ex Ey].
  destruct (int_axis_extrema _ Ex Hx) as (Ix & IX & Lx).
  destruct (int_axis_extrema _ Ey Hy) as (Iy & IY & Ly).
  exists (stretch a b o). do 6 eexists.
  split; [now apply scale_int|].
  split; [now apply get_bounds_int|].
  split; [|repeat split; try assumption; lia].
  rewrite get_bounds_int
    by (rewrite ?is_empty_stretch; auto using stretch_int_like).
  destruct (coords_stretch a b o) as [-> ->].
  destruct (axis_stretch a _ Ex Hx) as [-> ->].
  destruct (axis_stretch b _ Ey Hy) as [-> ->].
  rewrite !int_of_VInt.
  fold (int_of (fold_left vmin (x_coords o) (VFloat infinity))).
  set (mx := int_of (fold_left vmin (x_coords o) (VFloat infinity))) in *.
  set (Mx := int_of (fold_left vmax (x_coords o) (VFloat neg_infinity))) in *.
  set (my := int_of (fold_left vmin (y_coords o) (VFloat infinity))) in *.
  set (My := int_of (fold_left vmax (y_coords o) (VFloat neg_infinity))) in *.
  replace (Z.max (mx * a) (Mx * a) - Z.min (mx * a) (Mx * a))
    with ((Mx - mx) * Z.abs a) by nia.
  replace (Z.max (my * b) (My * b) - Z.min (my * b) (My * b))
    with ((My - my) * Z.abs b) by nia.
  reflexivity.
Qed.

Lemma bounds_of_scaled_int_witness :
  exists (o' : Path.t) (xMin yMin xMax yMax : pyval) (width height : Z),
    Path.scale square_path (NInt (-2)) (NInt 3) = Ok o' /\
    Path.get_bounds square_path =
      Ok (bounding_box xMin yMin xMax yMax (VInt width) (VInt height)) /\
    Path.get_bounds o' =
      Ok (bounding_box
            (VInt (Z.min (int_of xMin * -2) (int_of xMax * -2)))
            (VInt (Z.min (int_of yMin * 3) (int_of yMax * 3)))
            (VInt (Z.max (int_of xMin * -2) (int_of xMax * -2)))
            (VInt (Z.max (int_of yMin * 3) (int_of yMax * 3)))
            (VInt (width * Z.abs (-2))) (VInt (height * Z.abs 3))) /\
    int_like xMin = true /\ int_like yMin = true /\
    int_like xMax = true /\ int_like yMax = true /\
    width = int_of xMax - int_of xMin /\ height = int_of yMax - int_of yMin /\
    0 <= width /\ 0 <= height.
Proof.
  exact (bounds_of_scaled_int square_path (-2) 3 eq_refl eq_refl).
Defined.

(** ** What [get_bounds] can raise *)

Lemma py_min_Raise (m x : pyval) (err : exn) :
  numeric m = true -> py_min m x = Raise err ->
  numeric x = false /\ err = not_comparable x m.
Proof.
  unfold py_min, py_lt, py_cmp, numeric, not_comparable.
  destruct (as_num m); [|discriminate]. intros _.
  destruct (as_num x); simpl; [discriminate|].
  intros H. injection H as <-. auto.
Qed.

Lemma bounds_point_Raise (e0 : Path.extrema) (p : Point.t) (err : exn) :
  numeric_extrema e0 -> Path.bounds_point e0 p = Raise err ->
  exists v m, (v = Point.x p \/ v = Point.y p) /\
              numeric v = false /\ numeric m = true /\ err = not_comparable v m.
Proof.
  intros (H1 & H2 & H3 & H4) H. unfold Path.bounds_point in H.
  apply bind_Raise in H as [H|(a & Ha & H)].
  { apply (py_min_Raise _ _ _ H1) in H as [Hx ->]. eauto 8. }
  apply py_min_Ok in Ha as (-> & _ & Hx).
  rewrite (py_max_numeric _ _ H2 Hx) in H. simpl in H.
  apply bind_Raise in H as [H|(c & Hc & H)].
  { apply (py_min_Raise _ _ _ H3) in H as [Hy ->]. eauto 8. }
  apply py_min_Ok in Hc as (-> & _ & Hy).
  rewrite (py_max_numeric _ _ H4 Hy) in H. discriminate.
Qed.

Lemma bounds_points_Raise (ps : list Point.t) (e0 : Path.extrema) (err : exn) :
  numeric_extrema e0 -> foldM Path.bounds_point ps e0 = Raise err ->
  exists p v m, In p ps /\ (v = Point.x p \/ v = Point.y p) /\
                numeric v = false /\ numeric m = true /\ err = not_comparable v m.
Proof.
  revert e0. induction ps as [|p ps IH]; simpl; intros e0 He H; [discriminate|].
  apply bind_Raise in H as [H|(e1 & H1 & H)].
  - destruct (bounds_point_Raise _ _ _ He H) as (v & m & Hv & Hn & Hm & ->).
    exists p, v, m. auto.
  - apply bounds_point_Ok in H1 as (-> & Hx & Hy).
    destruct (IH _ (proj2 (extrema_step_numeric e0 p He Hx Hy)) H)
      as (q & v & m & Hq & Hv). exists q, v, m. auto.
Qed.

Lemma In_coords (o : Path.t) (c : Contour.t) (p : Point.t) :
  In c (Path.contours o) -> In p (Contour.points c) ->
  In (Point.x p) (x_coords o) /\ In (Point.y p) (y_coords o).
Proof.
  intros Hc Hp. unfold x_coords, y_coords. rewrite !in_flat_map.
  split; exists c; (split; [exact Hc|]); apply in_map; exact Hp.
Qed.

Lemma bounds_contours_Raise (cs : list Contour.t) (e0 : Path.extrema) (err : exn) :
  numeric_extrema e0 -> foldM Path.bounds_contour cs e0 = Raise err ->
  exists v m, In v (x_coords (Path.mk cs) ++ y_coords (Path.mk cs)) /\
              numeric v = false /\ numeric m = true /\ err = not_comparable v m.
Proof.
  revert e0. induction cs as [|c cs IH]; simpl; intros e0 He H; [discriminate|].
  apply bind_Raise in H as [H|(e1 & H1 & H)].
  - destruct (bounds_points_Raise _ _ _ He H) as (p & v & m & Hp & Hv & Hn & Hm & ->).
    exists v, m. split; [|auto].
    destruct (In_coords (Path.mk (c :: cs)) c p (or_introl eq_refl) Hp) as [Ix Iy].
    apply in_or_app. destruct Hv as [-> | ->]; auto.
  - unfold Path.bounds_contour in H1.
    pose proof (bounds_points_Ok _ _ _ H1) as (-> & Hps).
    destruct (bounds_points_numeric _ e0 He Hps) as (_ & He1).
    destruct (IH _ He1 H) as (v & m & Hv & Hr). exists v, m. split; [|exact Hr].
    unfold x_coords, y_coords in *. simpl in *.
    rewrite !in_app_iff in *. tauto.
Qed.

Lemma float_of_int_Raise (z : Z) (err : exn) :
  float_of_int z = Raise err -> err = int_too_large.
Proof.
  unfold float_of_int.
  destruct (binary_normalize prec emax z 0 false); try discriminate.
  now intros H; injection H as <-.
Qed.

Lemma py_sub_Raise (a b : pyval) (err : exn) :
  numeric a = true -> numeric b = true -> py_sub a b = Raise err ->
  err = int_too_large.
Proof.
  unfold numeric, py_sub.
  destruct (as_num a) as [x|]; [|discriminate].
  destruct (as_num b) as [y|]; [|discriminate]. intros _ _.
  destruct x as [x|x], y as [y|y]; simpl; try discriminate.
  - intros H. apply bind_Raise in H as [H|(f & _ & H)]; [|discriminate].
    now apply float_of_int_Raise in H.
  - destruct (float_of_int y) as [f|e'] eqn:E; simpl; [discriminate|].
    intros H. injection H as <-. now apply float_of_int_Raise in E.
Qed.

(** X12: [get_bounds] raises only two exceptions, and never on an empty
    outline.  A coordinate [v] that is not a number makes the comparison
    of [min] fail with the [TypeError]
    ['<' not supported between instances of 'V' and 'M'] ([V] the type of
    [v], [M] the type of the running minimum, a number): [max] is never
    the one to fail.  When all coordinates are numbers the only
    failure is the [OverflowError] [int too large to convert to float],
    raised by [max - min] on an axis that mixes floats with integers
    beyond the float range. *)
Theorem bounds_raises :
  forall (o : Path.t) (e : exn),
    Path.get_bounds o = Raise e ->
    Path.is_empty o = false /\
    ((exists v m,
        In v (x_coords o ++ y_coords o) /\
        numeric v = false /\ numeric m = true /\
        e = TypeError ("'<' not supported between instances of '" ++ type_name v
                       ++ "' and '" ++ type_name m ++ "'")) \/
     (Forall (fun v => numeric v = true) (x_coords o ++ y_coords o) /\
      e = OverflowError "int too large to convert to float")).
Proof.
  intros o e H. unfold Path.get_bounds in H.
  destruct (Path.is_empty o); [discriminate|]. split; [reflexivity|].
  assert (numeric_extrema Path.extrema0) as H0 by (repeat split; reflexivity).
  destruct o as [cs]. simpl in H.
  apply bind_Raise in H as [H|(e1 & H1 & H)].
  { left. exact (bounds_contours_Raise cs _ e H0 H). }
  right. pose proof (bounds_contours_Ok _ _ _ H1) as (-> & Hxs & Hys).
  destruct (bounds_contours_numeric cs _ H0 Hxs Hys) as (_ & N1 & N2 & N3 & N4).
  split; [apply Forall_app; auto|].
  apply bind_Raise in H as [H|(w & _ & H)].
  { exact (py_sub_Raise _ _ _ N2 N1 H). }
  apply bind_Raise in H as [H|(h & _ & H)]; [|discriminate].
  exact (py_sub_Raise _ _ _ N4 N3 H).
Qed.

Lemma bounds_raises_witness :
  Path.get_bounds (single_point (VInt 1) (VStr "2")) =
    Raise (TypeError "'<' not supported between instances of 'str' and 'float'") /\
  Path.is_empty (single_point (VInt 1) (VStr "2")) = false.
Proof.
  assert (Path.get_bounds (single_point (VInt 1) (VStr "2")) =
            Raise (TypeError "'<' not supported between instances of 'str' and 'float'"))
    as H by reflexivity.
  split; [exact H|].
  exact (proj1 (bounds_raises _ _ H)).
Defined.

(** ** Kinds of coordinates accepted and returned *)

Section TransformKinds.

Variable op : pyval -> num -> result pyval.
Variables (a b : num) (P Q : pyval -> bool).
Hypothesis op_a : forall v w, op v a = Ok w -> P v = true /\ Q w = true.
Hypothesis op_b : forall v w, op v b = Ok w -> P v = true /\ Q w = true.

Lemma transform_points_kinds (ps ps' : list Point.t) :
  mapM (transform_point op a b) ps = Ok ps' ->
  forallb (fun p => P (Point.x p) && P (Point.y p)) ps = true /\
  forallb (fun p => Q (Point.x p) && Q (Point.y p)) ps' = true.
Proof.
  intros H. apply mapM_Ok_Forall2 in H.
  induction H as [|p p' ps ps' Hp _ [IH1 IH2]]; simpl; [auto|].
  unfold transform_point in Hp.
  apply bind_Ok in Hp as (x & Hx & Hp). apply bind_Ok in Hp as (y & Hy & Hp).
  injection Hp as <-. simpl.
  destruct (op_a _ _ Hx) as [-> ->]. destruct (op_b _ _ Hy) as [-> ->]. auto.
Qed.

Lemma transform_kinds (cs cs' : list Contour.t) :
  mapM (transform_contour op a b) cs = Ok cs' ->
  all_coords P (Path.mk cs) = true /\ all_coords Q (Path.mk cs') = true.
Proof.
  unfold all_coords. simpl. intros H. apply mapM_Ok_Forall2 in H.
  induction H as [|c c' cs cs' Hc _ [IH1 IH2]]; simpl; [auto|].
  unfold transform_contour in Hc. apply bind_Ok in Hc as (ps' & Hps & Hc).
  injection Hc as <-. simpl.
  destruct (transform_points_kinds _ _ Hps) as [-> ->]. auto.
Qed.

End TransformKinds.

Lemma num_binop_kinds opz opf (x d : num) (w : pyval) :
  num_binop opz opf x d = Ok w ->
  is_number w = true /\ (forall f, d = NFloat f -> is_float w = true).
Proof.
  destruct x as [x|x], d as [d|d]; simpl; intros H.
  - injection H as <-. split; [reflexivity | discriminate].
  - apply bind_Ok in H as (fx & _ & H). injection H as <-. auto.
  - apply bind_Ok in H as (fd & _ & H). injection H as <-.
    split; [reflexivity | discriminate].
  - injection H as <-. auto.
Qed.

Lemma py_add_kinds (v : pyval) (d : num) (w : pyval) :
  py_add v d = Ok w -> numeric v = true /\ is_number w = true.
Proof.
  unfold py_add, numeric. destruct (as_num v) as [x|].
  - intros H. split; [reflexivity|]. now apply num_binop_kinds in H.
  - destruct v; discriminate.
Qed.

Lemma py_mul_float_kinds (v : pyval) (f : float) (w : pyval) :
  py_mul v (NFloat f) = Ok w -> numeric v = true /\ is_float w = true.
Proof.
  unfold py_mul, numeric. destruct (as_num v) as [x|].
  - intros H. split; [reflexivity|].
    apply num_binop_kinds in H as [_ H]. now apply (H f).
  - destruct v; discriminate.
Qed.

Lemma py_mul_int_kinds (v : pyval) (n : Z) (w : pyval) :
  py_mul v (NInt n) = Ok w ->
  (numeric v || is_sequence v) = true /\ (is_number w || is_sequence w) = true.
Proof.
  unfold py_mul, numeric. destruct (as_num v) as [x|].
  - intros H. split; [reflexivity|]. apply num_binop_kinds in H as [-> _]. reflexivity.
  - destruct v; try discriminate; intros H; injection H as <-; auto.
Qed.

(** X13: the kinds of coordinates the transformations accept and return.
    [translate] succeeds only on numeric coordinates and returns [int]s
    and [float]s; [scale] by float factors likewise, returning [float]s
    only.  [scale] by integer factors is laxer: it also goes through on
    text and list coordinates, which Python's [*] repeats, so what it
    returns holds numbers, texts or lists. *)
Theorem transform_coordinate_kinds :
  forall (o o' : Path.t),
    (forall a b, Path.translate o a b = Ok o' ->
       all_coords numeric o = true /\ all_coords is_number o' = true) /\
    (forall f g, Path.scale o (NFloat f) (NFloat g) = Ok o' ->
       all_coords numeric o = true /\ all_coords is_float o' = true) /\
    (forall n m, Path.scale o (NInt n) (NInt m) = Ok o' ->
       all_coords (fun v => numeric v || is_sequence v) o = true /\
       all_coords (fun v => is_number v || is_sequence v) o' = true).
Proof.
  intros [cs] o'.
  assert (forall op a b P Q,
            (forall v w, op v a = Ok w -> P v = true /\ Q w = true) ->
            (forall v w, op v b = Ok w -> P v = true /\ Q w = true) ->
            (cs' <- mapM (transform_contour op a b) cs ;; Ok (Path.mk cs')) = Ok o' ->
            all_coords P (Path.mk cs) = true /\ all_coords Q o' = true) as K.
  { intros op a b P Q Ha Hb H. apply bind_Ok in H as (cs' & Hcs & H).
    injection H as <-. exact (transform_kinds op a b P Q Ha Hb cs cs' Hcs). }
  split; [|split].
  - intros a b. apply (K py_add); intros v w; apply py_add_kinds.
  - intros f g. apply (K py_mul); intros v w; apply py_mul_float_kinds.
  - intros n m. apply (K py_mul); intros v w; apply py_mul_int_kinds.
Qed.

Lemma transform_coordinate_kinds_witness :
  Path.scale (single_point (VStr "ab") (VInt 3)) (NInt 2) (NInt 2)
    = Ok (single_point (VStr "abab") (VInt 6)) /\
  all_coords (fun v => numeric v || is_sequence v)
             (single_point (VStr "ab") (VInt 3)) = true /\
  all_coords (fun v => is_number v || is_sequence v)
             (single_point (VStr "abab") (VInt 6)) = true.
Proof.
  split; [reflexivity|].
  exact (proj2 (proj2 (transform_coordinate_kinds
                         (single_point (VStr "ab") (VInt 3))
                         (single_point (VStr "abab") (VInt 6)))) 2 2 eq_refl).
Defined.

(** ** Neutral offsets and factors *)

Lemma Prim2SF_zero : Prim2SF 0%float = S754_zero false.
Proof. reflexivity. Qed.

Lemma Prim2SF_one : Prim2SF 1%float = S754_finite false 4503599627370496 (-52).
Proof. reflexivity. Qed.

(** Adding a positive zero changes nothing but the sign of a negative zero. *)
Lemma float_add_zero (x : float) :
  Prim2SF x <> S754_zero true -> (x + 0)%float = x.
Proof.
  intros H. apply Prim2SF_inj. rewrite add_spec, Prim2SF_zero.
  unfold SF64add, SFadd.
  destruct (Prim2SF x) as [[|]|[|]| |s m e]; try reflexivity. congruence.
Qed.

Lemma canonical_valid (s : bool) (m : positive) (e : Z) :
  valid_binary (S754_finite s m e) = true ->
  fexp prec emax (Zpos (digits2_pos m) + e) = e /\ e <= emax - prec.
Proof.
  unfold valid_binary, bounded, canonical_mantissa. intros H.
  apply andb_true_iff in H as [H1 H2].
  apply Z.eqb_eq in H1. apply Z.leb_le in H2. auto.
Qed.

Lemma digits2_pos_shift (m : positive) (k : Z) :
  0 <= k -> forall q : positive, Zpos q = Zpos m * 2 ^ k ->
  Zpos (digits2_pos q) = Zpos (digits2_pos m) + k.
Proof.
  intros Hk q Hq. apply digits2_pos_unique. rewrite Hq.
  destruct (digits2_pos_bounds m) as [Hl Hu].
  assert (0 < 2 ^ k) as Hp by (apply Z.pow_pos_nonneg; lia).
  replace (Zpos (digits2_pos m) + k - 1) with ((Zpos (digits2_pos m) - 1) + k) by lia.
  rewrite !Z.pow_add_r by lia. split.
  - apply Z.mul_le_mono_nonneg_r; lia.
  - apply Z.mul_lt_mono_pos_r; lia.
Qed.

(** Rounding the product of a valid mantissa by [2^52], at the exponent
    lowered by 52, gives the float back. *)
Lemma binary_round_aux_one (s : bool) (m : positive) (e : Z) :
  valid_binary (S754_finite s m e) = true ->
  binary_round_aux prec emax s (Zpos (m * 4503599627370496)) (e + -52) loc_Exact
  = S754_finite s m e.
Proof.
  intros Hv. destruct (canonical_valid s m e Hv) as [Hc Hb].
  assert (Zpos (m * 4503599627370496) = Zpos m * 2 ^ 52) as Hq by reflexivity.
  pose proof (digits2_pos_shift m 52 ltac:(lia) _ Hq) as Hd.
  remember (binary_round_aux prec emax s (Zpos (m * 4503599627370496)) (e + -52) loc_Exact)
    as R eqn:ER.
  unfold binary_round_aux in ER.
  unfold shr_fexp at 1 in ER. cbn [Zdigits2 shr_record_of_loc] in ER.
  rewrite Hd in ER.
  replace (Zpos (digits2_pos m) + 52 + (e + -52)) with (Zpos (digits2_pos m) + e) in ER by lia.
  rewrite Hc in ER.
  replace (e - (e + -52)) with 52 in ER by lia. cbn [shr] in ER.
  rewrite iter_pos_iter in ER.
  rewrite (iter_shr_1_exact 52 (Zpos (m * 4503599627370496))) in ER.
  2: lia.
  2:{ rewrite Hq. apply Z.mod_mul. lia. }
  rewrite Hq, Z.div_mul in ER by lia.
  cbn [shr_m loc_of_shr_record shr_r shr_s round_nearest_even] in ER.
  unfold shr_fexp in ER. cbn [Zdigits2 shr_record_of_loc] in ER.
  replace (Zpos (digits2_pos m) + (e + -52 + 52)) with (Zpos (digits2_pos m) + e) in ER by lia.
  rewrite Hc in ER.
  replace (e - (e + -52 + 52)) with 0 in ER by lia. cbn [shr shr_m] in ER.
  replace (e + -52 + 52) with e in ER by lia.
  apply Z.leb_le in Hb. rewrite Hb in ER. exact ER.
Qed.

(** Multiplying by one changes nothing. *)
Lemma float_mul_one (x : float) : (x * 1)%float = x.
Proof.
  apply Prim2SF_inj. rewrite mul_spec, Prim2SF_one.
  unfold SF64mul, SFmul. pose proof (Prim2SF_valid x) as Hv.
  destruct (Prim2SF x) as [s|s| |s m e]; try reflexivity;
    try (destruct s; reflexivity).
  destruct s; now apply binary_round_aux_one.
Qed.

Lemma float_of_int_0 : float_of_int 0 = Ok 0%float.
Proof. reflexivity. Qed.

Lemma float_of_int_1 : float_of_int 1 = Ok 1%float.
Proof. reflexivity. Qed.

Lemma py_mul_one (v : pyval) :
  is_number v = true -> py_mul v (NInt 1) = Ok v /\
  (is_float v = true -> py_mul v (NFloat 1) = Ok v).
Proof.
  destruct v as [| |z|f| | |]; try discriminate; intros _; split;
    try discriminate; intros; unfold py_mul; simpl.
  - now rewrite Z.mul_1_r.
  - now rewrite float_mul_one.
  - now rewrite float_mul_one.
Qed.

Lemma py_add_zero (v : pyval) :
  is_number v && negb (is_neg_zero v) = true -> py_add v (NInt 0) = Ok v /\
  (is_float v = true -> py_add v (NFloat 0) = Ok v).
Proof.
  destruct v as [| |z|f| | |]; try discriminate; simpl; intros H; split;
    try discriminate; intros; unfold py_add; simpl.
  - now rewrite Z.add_0_r.
  - rewrite float_add_zero; [reflexivity|].
    intros E. rewrite E in H. discriminate.
  - rewrite float_add_zero; [reflexivity|].
    intros E. rewrite E in H. discriminate.
Qed.

Lemma transform_id (op : pyval -> num -> result pyval) (a b : num)
      (P : pyval -> bool) (o : Path.t) :
  (forall v, P v = true -> op v a = Ok v) ->
  (forall v, P v = true -> op v b = Ok v) ->
  all_coords P o = true ->
  (cs' <- mapM (transform_contour op a b) (Path.contours o) ;; Ok (Path.mk cs')) = Ok o.
Proof.
  intros Ha Hb H. destruct o as [cs]. unfold all_coords in H. simpl in *.
  rewrite (mapM_total _ (fun c => c)); [simpl; now rewrite map_id|].
  rewrite forallb_forall in H. apply Forall_forall. intros c Hc.
  specialize (H c Hc). destruct c as [ps ic]. unfold transform_contour. simpl in *.
  rewrite (mapM_total _ (fun p => p)); [simpl; now rewrite map_id|].
  rewrite forallb_forall in H. apply Forall_forall. intros p Hp.
  specialize (H p Hp). apply andb_true_iff in H as [Hx Hy].
  destruct p as [x y t s]. unfold transform_point. simpl in *.
  now rewrite (Ha x Hx), (Hb y Hy).
Qed.

(** X14: neutral factors and offsets.  [scale] by [(1, 1)] returns the
    outline itself when its coordinates are [int]s and [float]s, and so
    does [scale] by [(1.0, 1.0)] on float coordinates: multiplying a float
    by one is exact, also for NaN, the infinities and both zeros.
    [translate] by [(0, 0)] or [(0.0, 0.0)] returns the outline itself
    provided no coordinate is the float [-0.0], which addition turns into
    [0.0]. *)
Theorem neutral_transformations :
  forall o : Path.t,
    (all_coords is_number o = true ->
       Path.scale o (NInt 1) (NInt 1) = Ok o) /\
    (all_coords is_float o = true ->
       Path.scale o (NFloat 1) (NFloat 1) = Ok o) /\
    (all_coords (fun v => is_number v && negb (is_neg_zero v)) o = true ->
       Path.translate o (NInt 0) (NInt 0) = Ok o) /\
    (all_coords (fun v => is_float v && negb (is_neg_zero v)) o = true ->
       Path.translate o (NFloat 0) (NFloat 0) = Ok o).
Proof.
  intros o. repeat split; intros H.
  - apply (transform_id py_mul _ _ is_number); auto;
      intros v Hv; now apply py_mul_one.
  - apply (transform_id py_mul _ _ is_float); auto;
      intros v Hv; apply py_mul_one; auto; now destruct v.
  - apply (transform_id py_add _ _ (fun v => is_number v && negb (is_neg_zero v)));
      auto; intros v Hv; now apply py_add_zero.
  - apply (transform_id py_add _ _ (fun v => is_float v && negb (is_neg_zero v)));
      auto; intros v Hv; apply andb_true_iff in Hv as [Hf Hz];
      apply py_add_zero; auto; destruct v; try discriminate; exact Hz.
Qed.

Lemma neutral_transformations_witness :
  Path.scale wide_path (NInt 1) (NInt 1) = Ok wide_path /\
  Path.translate wide_path (NInt 0) (NInt 0) = Ok wide_path /\
  Path.scale (single_point (VFloat neg_zero) (VFloat nan)) (NFloat 1) (NFloat 1)
    = Ok (single_point (VFloat neg_zero) (VFloat nan)) /\
  Path.translate (single_point (VFloat 0.5) (VFloat infinity)) (NFloat 0) (NFloat 0)
    = Ok (single_point (VFloat 0.5) (VFloat infinity)) /\
  Path.translate (single_point (VFloat neg_zero) (VFloat 1)) (NFloat 0) (NFloat 0)
    = Ok (single_point (VFloat 0) (VFloat 1)).
Proof.
  split; [apply (proj1 (neutral_transformations wide_path)); reflexivity|].
  split; [apply (proj1 (proj2 (proj2 (neutral_transformations wide_path))));
          reflexivity|].
  split; [apply (proj1 (proj2 (neutral_transformations
                   (single_point (VFloat neg_zero) (VFloat nan))))); reflexivity|].
  split; [apply (proj2 (proj2 (proj2 (neutral_transformations
                   (single_point (VFloat 0.5) (VFloat infinity)))))); reflexivity|].
  reflexivity.
Defined.

(** ** Integers beyond the range of floats *)

(** The round bit after [k] shifts is the last bit shifted out. *)
Lemma iter_shr_1_r (k : positive) (mrs : shr_record) :
  0 <= shr_m mrs ->
  shr_r (Pos.iter shr_1 mrs k) = Z.odd (shr_m mrs / 2 ^ (Zpos k - 1)).
Proof.
  intros H. destruct (Pos.eq_dec k 1) as [->|Hk].
  - cbn [Pos.iter]. destruct mrs as [m r s]. cbn [shr_m] in *.
    rewrite shr_1_spec by exact H. cbn [shr_r]. change (2 ^ (1 - 1)) with 1.
    now rewrite Z.div_1_r.
  - destruct (Pos.succ_pred_or k) as [->|E]; [congruence|].
    rewrite <- E at 1. rewrite Pos.iter_succ.
    pose proof (iter_shr_1_m (Pos.pred k) mrs H) as Hm.
    assert (0 <= shr_m (Pos.iter shr_1 mrs (Pos.pred k))) as Hk0.
    { rewrite Hm. apply Z.div_pos; [exact H | apply Z.pow_pos_nonneg; lia]. }
    destruct (Pos.iter shr_1 mrs (Pos.pred k)) as [m r s]. cbn [shr_m] in Hm, Hk0.
    rewrite shr_1_spec by exact Hk0. cbn [shr_r]. rewrite Hm.
    do 3 f_equal. lia.
Qed.

Lemma round_up_iff (mrs : shr_record) :
  Z.odd (shr_m mrs) = true ->
  round_nearest_even (shr_m mrs) (loc_of_shr_record mrs)
  = if shr_r mrs then shr_m mrs + 1 else shr_m mrs.
Proof.
  destruct mrs as [m [|] [|]]; cbn [shr_m shr_r loc_of_shr_record round_nearest_even];
    try reflexivity.
  intros H. rewrite <- Z.negb_odd, H. reflexivity.
Qed.

(** Rounding an integer of more than 53 digits overflows according to its
    number [53 + kn] of digits and to whether the mantissa rounds up to
    [2^53]. *)
Lemma binary_round_big_overflow (s : bool) (p kn : positive) :
  Zpos (digits2_pos p) - 53 = Zpos kn ->
  (binary_round prec emax s p 0 = S754_infinity s \/
   exists m e, binary_round prec emax s p 0 = S754_finite s m e) /\
  (binary_round prec emax s p 0 = S754_infinity s <->
   if round_nearest_even
        (shr_m (Pos.iter shr_1 (Build_shr_record (Zpos p) false false) kn))
        (loc_of_shr_record (Pos.iter shr_1 (Build_shr_record (Zpos p) false false) kn))
      <? 2 ^ 53
   then 971 < Zpos kn else 970 < Zpos kn).
Proof.
  intros Hn.
  assert (53 < Zpos (digits2_pos p)) as Hd by lia.
  pose proof (quotient_53 p Hd) as Hq. rewrite Hn in Hq.
  assert (fexp prec emax (Zpos (digits2_pos p) + 0) = Zpos kn) as Hf
      by (unfold fexp, emin, prec, emax; lia).
  remember (binary_round prec emax s p 0) as R eqn:ER.
  unfold binary_round in ER. rewrite Hf in ER.
  change (shl_align p 0 (Zpos kn)) with (p, 0) in ER.
  unfold binary_round_aux in ER.
  unfold shr_fexp at 1 in ER. cbn [Zdigits2 shr_record_of_loc] in ER.
  rewrite Hf in ER.
  change (Zpos kn - 0) with (Zpos kn) in ER. cbn [shr] in ER.
  rewrite iter_pos_iter in ER.
  pose proof (iter_shr_1_m kn (Build_shr_record (Zpos p) false false)) as Hm1.
  cbn [shr_m] in Hm1. specialize (Hm1 ltac:(lia)).
  set (mrs := Pos.iter shr_1 (Build_shr_record (Zpos p) false false) kn) in *.
  pose proof (round_nearest_even_range (shr_m mrs) (loc_of_shr_record mrs)) as Hr.
  set (m2 := round_nearest_even (shr_m mrs) (loc_of_shr_record mrs)) in *.
  rewrite Hm1 in Hr.
  destruct m2 as [|q2|q2] eqn:Em2; [lia| |lia].
  change (0 + Zpos kn) with (Zpos kn) in ER.
  destruct (Z.ltb_spec (Zpos q2) (2 ^ 53)) as [Hlt|Hge].
  - assert (Zpos (digits2_pos q2) = 53) as Hd2
        by (apply digits2_pos_unique; change (53 - 1) with 52; lia).
    unfold shr_fexp in ER. cbn [Zdigits2 shr_record_of_loc] in ER.
    rewrite Hd2, fexp_53 in ER by lia.
    rewrite Z.sub_diag in ER. cbn [shr shr_m] in ER.
    destruct (Z.leb_spec (Zpos kn) (emax - prec)) as [Hb|Hb];
      unfold emax, prec in Hb; subst R.
    + split; [right; eauto|]. split; [discriminate | lia].
    + split; [now left|]. split; [lia | reflexivity].
  - assert (Zpos q2 = 2 ^ 53) as E by lia.
    assert (q2 = 9007199254740992%positive) as Eq
        by (apply Pos2Z.inj; rewrite E; reflexivity).
    subst q2.
    unfold shr_fexp in ER. cbn [Zdigits2 shr_record_of_loc] in ER.
    change (Zpos (digits2_pos 9007199254740992)) with (53 + 1) in ER.
    replace (53 + 1 + Zpos kn) with (53 + (Zpos kn + 1)) in ER by lia.
    rewrite fexp_53 in ER by lia.
    replace (Zpos kn + 1 - Zpos kn) with 1 in ER by lia. cbn [shr iter_pos] in ER.
    change (shr_m (shr_1 (Build_shr_record 9007199254740992 false false)))
      with 4503599627370496 in ER.
    destruct (Z.leb_spec (Zpos kn + 1) (emax - prec)) as [Hb|Hb];
      unfold emax, prec in Hb; subst R.
    + split; [right; eauto|]. split; [discriminate | lia].
    + split; [now left|]. split; [lia | reflexivity].
Qed.

(** An integer converts to a float unless it rounds to [2^1024] or more:
    the threshold is [2^1024 - 2^970], half a unit in the last place above
    the largest float. *)
Lemma binary_round_overflow (s : bool) (p : positive) :
  (binary_round prec emax s p 0 = S754_infinity s \/
   exists m e, binary_round prec emax s p 0 = S754_finite s m e) /\
  (binary_round prec emax s p 0 = S754_infinity s <->
   2 ^ 1024 - 2 ^ 970 <= Zpos p).
Proof.
  destruct (Z_lt_le_dec (Zpos p) (2 ^ 53)) as [Hs|Hb].
  { destruct (binary_round_small s p Hs) as (m & e & HR & _).
    split; [right; eauto|]. rewrite HR. split; [discriminate|].
    intros H. exfalso. assert (2 ^ 53 < 2 ^ 1024 - 2 ^ 970) by (vm_compute; reflexivity).
    lia. }
  pose proof (big_digits p Hb) as Hd.
  assert (Zpos (digits2_pos p) - 53 = Zpos (Z.to_pos (Zpos (digits2_pos p) - 53)))
    as Hn by (rewrite Z2Pos.id; lia).
  set (kn := Z.to_pos (Zpos (digits2_pos p) - 53)) in *.
  destruct (binary_round_big_overflow s p kn Hn) as [Hcases Hinf].
  split; [exact Hcases|]. rewrite Hinf. clear Hinf Hcases.
  destruct (digits2_pos_bounds p) as [Hl Hu].
  pose proof (iter_shr_1_m kn (Build_shr_record (Zpos p) false false)) as Hm1.
  cbn [shr_m] in Hm1. specialize (Hm1 ltac:(lia)).
  pose proof (iter_shr_1_r kn (Build_shr_record (Zpos p) false false)) as Hr1.
  cbn [shr_m] in Hr1. specialize (Hr1 ltac:(lia)).
  pose proof (quotient_53 p Hd) as Hq. rewrite Hn in Hq.
  set (mrs := Pos.iter shr_1 (Build_shr_record (Zpos p) false false) kn) in *.
  pose proof (round_nearest_even_range (shr_m mrs) (loc_of_shr_record mrs)) as Hr.
  assert (2 ^ 1024 - 2 ^ 970 = (2 ^ 54 - 1) * 2 ^ 970) as Eth by (vm_compute; reflexivity).
  assert (2 ^ 1024 = 2 ^ 54 * 2 ^ 970) as E1024 by (vm_compute; reflexivity).
  assert (0 < 2 ^ 970) as P970 by (vm_compute; reflexivity).
  destruct (Z.lt_trichotomy (Zpos kn) 971) as [Hk|[Hk|Hk]].
  - (* at most 1023 digits: no overflow *)
    assert (2 ^ Zpos (digits2_pos p) <= 2 ^ 1023) by (apply Z.pow_le_mono_r; lia).
    assert (2 ^ 1023 < 2 ^ 1024 - 2 ^ 970) by (vm_compute; reflexivity).
    destruct (_ <? _); split; lia.
  - (* 1024 digits: overflow when the mantissa rounds up to 2^53 *)
    assert (Zpos (digits2_pos p) = 1024) as D by lia.
    rewrite D in Hu. rewrite Hk in *.
    change (971 - 1) with 970 in Hr1.
    assert (Zpos p / 2 ^ 971 = (Zpos p / 2 ^ 970) / 2) as Ediv.
    { change (2 ^ 971) with (2 ^ 970 * 2). rewrite Z.div_div; lia. }
    assert (Zpos p / 2 ^ 970 < 2 ^ 54) as Ht
        by (apply Z.div_lt_upper_bound; lia).
    set (t := Zpos p / 2 ^ 970) in *.
    assert (t * 2 ^ 970 <= Zpos p < (t + 1) * 2 ^ 970) as Hp.
    { unfold t. pose proof (Z.div_mod (Zpos p) (2 ^ 970) ltac:(lia)).
      pose proof (Z.mod_pos_bound (Zpos p) (2 ^ 970) P970). lia. }
    destruct (Z.ltb_spec (round_nearest_even (shr_m mrs) (loc_of_shr_record mrs)) (2 ^ 53))
      as [Hlt|Hge].
    + split; [lia|]. intros Hth. exfalso.
      assert (t = 2 ^ 54 - 1) as Et by nia.
      assert (shr_m mrs = 2 ^ 53 - 1) as Em.
      { rewrite Hm1, Ediv, Et. reflexivity. }
      rewrite round_up_iff in Hlt by (rewrite Em; reflexivity).
      rewrite Hr1, Et in Hlt. change (Z.odd (2 ^ 54 - 1)) with true in Hlt. lia.
    + split; [|lia]. intros _.
      assert (shr_m mrs = 2 ^ 53 - 1) as Em by lia.
      rewrite round_up_iff in Hge by (rewrite Em; reflexivity).
      rewrite Hr1 in Hge. destruct (Z.odd t) eqn:Ot; [|lia].
      assert (t / 2 = 2 ^ 53 - 1) as Eh by (rewrite <- Ediv, <- Hm1; exact Em).
      assert (t = 2 ^ 54 - 1) as Et.
      { apply Z.odd_spec in Ot as [k Hk2].
        assert (t / 2 = k) as Ek
            by (symmetry; apply (Z.div_unique t 2 k 1); lia).
        change (2 ^ 54) with (2 * 2 ^ 53). lia. }
      nia.
  - (* 1025 digits or more: overflow *)
    assert (2 ^ 1024 <= 2 ^ (Zpos (digits2_pos p) - 1)) by (apply Z.pow_le_mono_r; lia).
    destruct (_ <? _); split; lia.
Qed.

Lemma float_of_int_range (z : Z) :
  (Z.abs z < 2 ^ 1024 - 2 ^ 970 -> exists f, float_of_int z = Ok f) /\
  (2 ^ 1024 - 2 ^ 970 <= Z.abs z -> float_of_int z = Raise int_too_large).
Proof.
  unfold float_of_int. destruct z as [|p|p]; cbn [binary_normalize].
  - split; [eauto|]. intros H. exfalso.
    assert (0 < 2 ^ 1024 - 2 ^ 970) by (vm_compute; reflexivity). simpl in H. lia.
  - destruct (binary_round_overflow false p) as [[E|(m & e & E)] Hiff]; rewrite E.
    + split; [|reflexivity]. intros H. apply Hiff in E. simpl in H. lia.
    + split; [eauto|]. intros H. apply Hiff in H. congruence.
  - destruct (binary_round_overflow true p) as [[E|(m & e & E)] Hiff]; rewrite E.
    + split; [|reflexivity]. intros H. apply Hiff in E. simpl in H. lia.
    + split; [eauto|]. intros H. apply Hiff in H. congruence.
Qed.

Lemma float_ready_range (v : pyval) : float_ready v = in_float_range v.
Proof.
  unfold float_ready, in_float_range. destruct (as_num v) as [[z|f]|]; try reflexivity.
  cbn [to_float]. destruct (float_of_int_range z) as [H1 H2].
  destruct (Z.ltb_spec (Z.abs z) (2 ^ 1024 - 2 ^ 970)) as [H|H].
  - destruct (H1 H) as (f & ->). reflexivity.
  - now rewrite (H2 H).
Qed.

Lemma num_binop_float_iff opz opf (x : num) (f : float) :
  (exists w, num_binop opz opf x (NFloat f) = Ok w) <->
  (exists g, to_float x = Ok g).
Proof.
  destruct x as [z|g]; simpl.
  - destruct (float_of_int z) as [h|e]; simpl; split; intros (w & H);
      try discriminate; eauto.
  - split; eauto.
Qed.

Lemma py_add_float_iff (v : pyval) (f : float) :
  (exists w, py_add v (NFloat f) = Ok w) <-> in_float_range v = true.
Proof.
  rewrite <- float_ready_range. unfold py_add, float_ready.
  destruct (as_num v) as [x|] eqn:E.
  - rewrite num_binop_float_iff. destruct (to_float x); split; eauto;
      try discriminate. intros (g & H). discriminate.
  - split; [|discriminate]. intros (w & H). destruct v; discriminate.
Qed.

Lemma py_mul_float_iff (v : pyval) (f : float) :
  (exists w, py_mul v (NFloat f) = Ok w) <-> in_float_range v = true.
Proof.
  rewrite <- float_ready_range. unfold py_mul, float_ready.
  destruct (as_num v) as [x|] eqn:E.
  - rewrite num_binop_float_iff. destruct (to_float x); split; eauto;
      try discriminate. intros (g & H). discriminate.
  - split; [|discriminate]. intros (w & H). destruct v; discriminate.
Qed.

Lemma transform_succeeds_iff (op : pyval -> num -> result pyval) (a b : num)
      (P : pyval -> bool) (cs : list Contour.t) :
  (forall v, (exists w, op v a = Ok w) <-> P v = true) ->
  (forall v, (exists w, op v b = Ok w) <-> P v = true) ->
  (exists o', (cs' <- mapM (transform_contour op a b) cs ;; Ok (Path.mk cs')) = Ok o')
  <-> all_coords P (Path.mk cs) = true.
Proof.
  intros Ha Hb. unfold all_coords. simpl.
  assert (forall p, (exists p', transform_point op a b p = Ok p') <->
                    P (Point.x p) && P (Point.y p) = true) as Hp.
  { intros p. unfold transform_point. rewrite andb_true_iff, <- Ha, <- Hb.
    destruct (op (Point.x p) a) as [x|e]; simpl.
    - destruct (op (Point.y p) b) as [y|e]; simpl; split; eauto.
      + intros (p' & H). discriminate.
      + intros [_ (w & H)]. discriminate.
    - split; [intros (p' & H); discriminate | intros [(w & H) _]; discriminate]. }
  assert (forall c, (exists c', transform_contour op a b c = Ok c') <->
                    forallb (fun p => P (Point.x p) && P (Point.y p))
                            (Contour.points c) = true) as Hc.
  { intros c. unfold transform_contour.
    rewrite <- (Forall_forallb _ _ (Contour.points c) Hp), <- mapM_Ok_iff.
    destruct (mapM (transform_point op a b) (Contour.points c)) as [ps|e]; simpl;
      split; eauto; intros (c' & H); discriminate. }
  rewrite <- (Forall_forallb _ _ cs Hc), <- mapM_Ok_iff.
  destruct (mapM (transform_contour op a b) cs) as [cs'|e]; simpl;
    split; eauto; intros (c' & H); discriminate.
Qed.

(** X15: with float offsets or factors, [translate] and [scale] succeed
    exactly on the outlines whose coordinates are floats, or integers (or
    booleans) below [2^1024 - 2^970] in magnitude: an integer converts to
    a float unless it rounds to [2^1024], and from that threshold on the
    conversion raises [OverflowError]. *)
Theorem float_transform_succeeds_iff :
  forall (o : Path.t) (f g : float),
    ((exists o', Path.translate o (NFloat f) (NFloat g) = Ok o') <->
     all_coords in_float_range o = true) /\
    ((exists o', Path.scale o (NFloat f) (NFloat g) = Ok o') <->
     all_coords in_float_range o = true) /\
    (forall z : Z,
       (Z.abs z < 2 ^ 1024 - 2 ^ 970 -> exists h, float_of_int z = Ok h) /\
       (2 ^ 1024 - 2 ^ 970 <= Z.abs z ->
        float_of_int z = Raise (OverflowError "int too large to convert to float"))).
Proof.
  intros [cs] f g. split; [|split].
  - apply (transform_succeeds_iff py_add); intros v; apply py_add_float_iff.
  - apply (transform_succeeds_iff py_mul); intros v; apply py_mul_float_iff.
  - apply float_of_int_range.
Qed.

Lemma float_transform_succeeds_iff_witness :
  float_of_int (2 ^ 1024 - 2 ^ 970) =
    Raise (OverflowError "int too large to convert to float") /\
  exists h, float_of_int (2 ^ 1024 - 2 ^ 970 - 1) = Ok h.
Proof.
  destruct (float_transform_succeeds_iff (Path.mk []) 0%float 0%float) as (_ & _ & K).
  split.
  - apply (proj2 (K (2 ^ 1024 - 2 ^ 970))). apply Z.leb_le. vm_compute. reflexivity.
  - apply (proj1 (K (2 ^ 1024 - 2 ^ 970 - 1))). apply Z.ltb_lt. vm_compute. reflexivity.
Defined.

(** ** What [get_bounds] looks at *)

Lemma foldM_app {A S : Type} (f : S -> A -> result S) (l1 l2 : list A) (s : S) :
  foldM f (l1 ++ l2) s = (s' <- foldM f l1 s ;; foldM f l2 s').
Proof.
  revert s. induction l1 as [|a l1 IH]; simpl; intros s; [reflexivity|].
  destruct (f s a) as [s1|e]; simpl; [apply IH | reflexivity].
Qed.

Lemma foldM_map {A B S : Type} (f : S -> B -> result S) (g : A -> B)
      (l : list A) (s : S) :
  foldM f (map g l) s = foldM (fun s a => f s (g a)) l s.
Proof.
  revert s. induction l as [|a l IH]; simpl; intros s; [reflexivity|].
  destruct (f s (g a)); simpl; [apply IH | reflexivity].
Qed.

(** The loops of [get_bounds] run over the coordinate pairs. *)
Lemma bounds_loop_coords (cs : list Contour.t) (e : Path.extrema) :
  foldM Path.bounds_contour cs e =
  foldM (fun e xy => Path.bounds_point e (Point.mk (fst xy) (snd xy) VNone VNone))
        (coords (Path.mk cs)) e.
Proof.
  unfold coords. simpl. revert e. induction cs as [|c cs IH]; simpl; intros e;
    [reflexivity|].
  rewrite foldM_app, foldM_map. unfold Path.bounds_contour at 1.
  change (fun (s : Path.extrema) (a : Point.t) =>
            Path.bounds_point s (Point.mk (fst (Point.x a, Point.y a))
                                          (snd (Point.x a, Point.y a)) VNone VNone))
    with (fun (s : Path.extrema) (a : Point.t) =>
            Path.bounds_point s (Point.mk (Point.x a) (Point.y a) VNone VNone)).
  assert (forall ps e0,
            foldM Path.bounds_point ps e0 =
            foldM (fun s a => Path.bounds_point s
                                (Point.mk (Point.x a) (Point.y a) VNone VNone)) ps e0)
    as E.
  { induction ps as [|p ps IHp]; simpl; intros e0; [reflexivity|].
    change (Path.bounds_point e0 (Point.mk (Point.x p) (Point.y p) VNone VNone))
      with (Path.bounds_point e0 p).
    destruct (Path.bounds_point e0 p); simpl; [apply IHp | reflexivity]. }
  rewrite E. destruct (foldM _ (Contour.points c) e); simpl; [apply IH | reflexivity].
Qed.

Lemma is_empty_coords (o : Path.t) :
  Path.is_empty o = match coords o with [] => true | _ => false end.
Proof.
  rewrite is_empty_forallb. unfold coords.
  induction (Path.contours o) as [|c cs IH]; simpl; [reflexivity|].
  unfold Path.no_points at 1. destruct (Contour.points c); simpl; [exact IH | reflexivity].
Qed.

(** X16: [get_bounds] looks at the coordinates only.  Two outlines whose
    points have the same coordinates in the same order have the same
    bounds (or fail alike), however the points are grouped into contours
    and whatever their segment types, smooth flags and closed flags. *)
Theorem bounds_ignore_structure :
  forall o1 o2 : Path.t,
    coords o1 = coords o2 -> Path.get_bounds o1 = Path.get_bounds o2.
Proof.
  intros [cs1] [cs2] H. unfold Path.get_bounds.
  rewrite !is_empty_coords, H. simpl.
  now rewrite !bounds_loop_coords, H.
Qed.

Lemma bounds_ignore_structure_witness :
  Path.get_bounds
    (Path.mk [Contour.mk [Point.mk (VInt 0) (VInt 0) (VStr "line") (VBool false)]
                         (VBool false);
              Contour.mk [] (VBool true);
              Contour.mk [Point.mk (VInt 100) (VInt 0) (VStr "curve") (VBool true);
                          Point.mk (VInt 100) (VInt 100) VNone (VBool false);
                          Point.mk (VInt 0) (VInt 100) (VStr "line") (VBool false)]
                         (VBool false)])
  = Path.get_bounds square_path.
Proof. apply bounds_ignore_structure. reflexivity. Defined.

(** ** The order of the points does not matter *)

Lemma is_int_int_like (v : pyval) : is_int v = true -> int_like v = true.
Proof. now destruct v. Qed.

Lemma is_int_eq (a b : pyval) :
  is_int a = true -> is_int b = true -> int_of a = int_of b -> a = b.
Proof.
  destruct a; try discriminate. destruct b; try discriminate.
  unfold int_of. simpl. now intros _ _ ->.
Qed.

Lemma vle_int_like (a b : pyval) :
  int_like a = true -> int_like b = true -> vle a b = true -> int_of a <= int_of b.
Proof.
  intros Ha Hb H. apply vle_not_lt in H.
  rewrite (vlt_int_like _ _ Hb Ha) in H. now apply Z.ltb_ge in H.
Qed.

(** On axes holding the same integers, in any order and number, the
    extrema are the same. *)
Lemma int_axis_same_elements (vs1 vs2 : list pyval) :
  vs1 <> [] -> forallb is_int vs1 = true ->
  (forall v, In v vs1 <-> In v vs2) ->
  fold_left vmin vs1 (VFloat infinity) = fold_left vmin vs2 (VFloat infinity) /\
  fold_left vmax vs1 (VFloat neg_infinity) = fold_left vmax vs2 (VFloat neg_infinity).
Proof.
  intros Hne H1 Hsame.
  assert (forall v, In v vs1 -> is_int v = true) as I1
      by (now apply forallb_forall).
  assert (forall v, In v vs2 -> is_int v = true) as I2
      by (intros v Hv; apply I1, Hsame, Hv).
  assert (vs2 <> []) as Hne2.
  { destruct vs1 as [|x vs1]; [congruence|]. intros ->.
    exact (proj1 (Hsame x) (or_introl eq_refl)). }
  assert (forall vs, (forall v, In v vs -> is_int v = true) ->
                     Forall (fun v => numeric v = true) vs /\
                     Forall (fun v => is_nan v = false) vs) as Hn.
  { intros vs Hvs. split; apply Forall_forall; intros v Hv;
      [apply int_like_numeric | apply int_like_not_nan];
      apply is_int_int_like, Hvs, Hv. }
  destruct (Hn vs1 I1) as [N1 A1]. destruct (Hn vs2 I2) as [N2 A2].
  destruct (vmin_attained vs1 Hne N1 A1) as [Hm1 Lm1].
  destruct (vmin_attained vs2 Hne2 N2 A2) as [Hm2 Lm2].
  destruct (vmax_attained vs1 Hne N1 A1) as [HM1 LM1].
  destruct (vmax_attained vs2 Hne2 N2 A2) as [HM2 LM2].
  split; apply is_int_eq; auto; apply Z.le_antisymm; apply vle_int_like;
    auto using is_int_int_like;
    try (apply Lm1, Hsame, Hm2); try (apply Lm2, Hsame, Hm1);
    try (apply LM1, Hsame, HM2); try (apply LM2, Hsame, HM1).
Qed.

Lemma all_coords_is_int (o : Path.t) :
  forallb is_int (x_coords o) = true -> forallb is_int (y_coords o) = true ->
  all_coords int_like o = true.
Proof.
  unfold all_coords, x_coords, y_coords.
  induction (Path.contours o) as [|c cs IH]; simpl; [auto|].
  rewrite !forallb_app. intros Hx Hy.
  apply andb_true_iff in Hx as [Hx Hxs]. apply andb_true_iff in Hy as [Hy Hys].
  rewrite (IH Hxs Hys), andb_true_r. clear -Hx Hy.
  induction (Contour.points c) as [|p ps IHp]; simpl in *; [reflexivity|].
  apply andb_true_iff in Hx as [Hx Hxs]. apply andb_true_iff in Hy as [Hy Hys].
  now rewrite (is_int_int_like _ Hx), (is_int_int_like _ Hy), (IHp Hxs Hys).
Qed.

Lemma forallb_same_elements {A : Type} (P : A -> bool) (l1 l2 : list A) :
  (forall v, In v l1 <-> In v l2) -> forallb P l1 = true -> forallb P l2 = true.
Proof.
  rewrite !forallb_forall. intros H H1 v Hv. apply H1, H, Hv.
Qed.

(** X17: the bounding box does not depend on the order of the points.
    Two outlines with [int] coordinates whose x coordinates are the same
    integers, in any order and with any repetition, and likewise their y
    coordinates, have the same bounds. *)
Theorem bounds_ignore_order :
  forall o1 o2 : Path.t,
    forallb is_int (x_coords o1) = true -> forallb is_int (y_coords o1) = true ->
    (forall v, In v (x_coords o1) <-> In v (x_coords o2)) ->
    (forall v, In v (y_coords o1) <-> In v (y_coords o2)) ->
    Path.get_bounds o1 = Path.get_bounds o2.
Proof.
  intros o1 o2 Hx Hy Sx Sy.
  pose proof (forallb_same_elements _ _ _ Sx Hx) as Hx2.
  pose proof (forallb_same_elements _ _ _ Sy Hy) as Hy2.
  assert (Path.is_empty o1 = Path.is_empty o2) as He.
  { destruct (Path.is_empty o1) eqn:E1, (Path.is_empty o2) eqn:E2; try reflexivity.
    - destruct (not_empty_coords o2 E2) as [Ne _].
      destruct (x_coords o2) as [|v vs] eqn:E; [congruence|].
      assert (In v (x_coords o1)) as Hin by (apply Sx; now left).
      exfalso. apply is_empty_iff in E1. unfold x_coords in Hin.
      apply in_flat_map in Hin as (c & Hc & Hp).
      rewrite Forall_forall in E1. rewrite (E1 c Hc) in Hp. exact Hp.
    - destruct (not_empty_coords o1 E1) as [Ne _].
      destruct (x_coords o1) as [|v vs] eqn:E; [congruence|].
      assert (In v (x_coords o2)) as Hin by (apply Sx; now left).
      exfalso. apply is_empty_iff in E2. unfold x_coords in Hin.
      apply in_flat_map in Hin as (c & Hc & Hp).
      rewrite Forall_forall in E2. rewrite (E2 c Hc) in Hp. exact Hp. }
  destruct (Path.is_empty o1) eqn:E1.
  - unfold Path.get_bounds. now rewrite E1, <- He.
  - destruct (not_empty_coords o1 E1) as [Nx Ny].
    rewrite !get_bounds_int; auto using all_coords_is_int.
    destruct (int_axis_same_elements _ _ Nx Hx Sx) as [-> ->].
    destruct (int_axis_same_elements _ _ Ny Hy Sy) as [-> ->].
    reflexivity.
Qed.

Lemma bounds_ignore_order_witness :
  Path.get_bounds
    (Path.mk [Contour.mk [Point.mk (VInt 100) (VInt 100) (VStr "line") (VBool false);
                          Point.mk (VInt 0) (VInt 0) (VStr "line") (VBool false);
                          Point.mk (VInt 100) (VInt 0) (VStr "line") (VBool false)]
                         (VBool true)])
  = Path.get_bounds square_path.
Proof.
  apply bounds_ignore_order; try reflexivity; intros v; simpl; tauto.
Defined.

(** ** What [path_validate] checks *)

(** X18: [path_validate] checks the shape only.  On a parsed input [u] it
    succeeds exactly when [u] has the shape decode accepts; coordinates,
    segment types and flags are not examined, so an outline whose
    coordinates are not numbers is reported valid although [path_bounds]
    fails on it. *)
Theorem validate_checks_shape :
  forall (json_loads : string -> result pyval) (v u : pyval),
    parse_input json_loads v = Ok u ->
    ((exists stats,
        path_validate json_loads v =
          VDict [("success", VBool true); ("valid", VBool true); ("stats", stats)])
     <-> accepts_outline u = true) /\
    ((exists msg, path_validate json_loads v = failure msg)
     <-> accepts_outline u = false).
Proof.
  intros json_loads v u Hp. rewrite <- Path_from_dict_iff.
  destruct (Path.from_dict u) as [o|e] eqn:Hd.
  - rewrite (path_validate_decoded _ _ _ _ Hp Hd). split; split.
    + eauto.
    + intros _. exists (statistics o). reflexivity.
    + intros (msg & H). discriminate.
    + intros H. exfalso.
      assert (accepts_outline u = true) as Ha
          by (apply Path_from_dict_iff; rewrite Hd; eauto).
      congruence.
  - assert (path_validate json_loads v = failure (str_exn e)) as ->.
    { apply path_validate_failed. rewrite Hp. exact Hd. }
    split; split.
    + intros (stats & H). discriminate.
    + intros (o & H). discriminate.
    + intros _. destruct (accepts_outline u) eqn:Ha; [|reflexivity].
      apply Path_from_dict_iff in Ha as (o & Ho). rewrite Hd in Ho. discriminate.
    + eauto.
Qed.

Lemma validate_checks_shape_witness :
  (exists stats,
     path_validate loads_reject text_coordinate =
       VDict [("success", VBool true); ("valid", VBool true); ("stats", stats)]) /\
  path_bounds loads_reject text_coordinate =
    failure "'<' not supported between instances of 'str' and 'float'".
Proof.
  split; [|reflexivity].
  apply (proj1 (validate_checks_shape loads_reject text_coordinate text_coordinate
                  eq_refl)).
  reflexivity.
Defined.

(** ** A text is parsed once *)

(** X19: a text input is parsed once and handled as the object it parses
    to.  When the text [s] parses to an object [u] that is not itself a
    text, every method returns on [s] what it returns on [u].  A text
    that parses to another text (JSON encoded twice) is not parsed again:
    every method fails on it with ['str' object has no attribute 'get'],
    even when the inner text is a well-formed outline. *)
Theorem text_is_parsed_once :
  forall (json_loads : string -> result pyval) (s : string) (u : pyval) (a b : num),
    json_loads s = Ok u ->
    ((forall s', u <> VStr s') ->
       path_bounds json_loads (VStr s) = path_bounds json_loads u /\
       path_translate json_loads (VStr s) a b = path_translate json_loads u a b /\
       path_scale json_loads (VStr s) a b = path_scale json_loads u a b /\
       path_validate json_loads (VStr s) = path_validate json_loads u /\
       path_info json_loads (VStr s) = path_info json_loads u) /\
    (forall s', u = VStr s' ->
       path_bounds json_loads (VStr s) =
         failure "'str' object has no attribute 'get'" /\
       path_translate json_loads (VStr s) a b =
         failure "'str' object has no attribute 'get'" /\
       path_scale json_loads (VStr s) a b =
         failure "'str' object has no attribute 'get'" /\
       path_validate json_loads (VStr s) =
         failure "'str' object has no attribute 'get'" /\
       path_info json_loads (VStr s) =
         failure "'str' object has no attribute 'get'").
Proof.
  intros json_loads s u a b Hs. split.
  - intros Hu. pose proof (parse_input_not_str json_loads u Hu) as Hp.
    unfold path_bounds, path_translate, path_scale, path_validate, path_info.
    rewrite Hp. simpl. rewrite Hs. auto.
  - intros s' ->.
    unfold path_bounds, path_translate, path_scale, path_validate, path_info.
    simpl. rewrite Hs. simpl. auto.
Qed.

Lemma text_is_parsed_once_witness :
  path_validate (loads_table [("q", VStr "{}"); ("{}", VDict [])]) (VStr "q") =
    failure "'str' object has no attribute 'get'" /\
  path_validate (loads_table [("q", VStr "{}"); ("{}", VDict [])]) (VStr "{}") =
    path_validate (loads_table [("q", VStr "{}"); ("{}", VDict [])]) (VDict []).
Proof.
  split.
  - exact (proj1 (proj2 (proj2 (proj2 (proj2
             (text_is_parsed_once (loads_table [("q", VStr "{}"); ("{}", VDict [])])
                "q" (VStr "{}") (NInt 0) (NInt 0) eq_refl) "{}" eq_refl))))).
  - refine (proj1 (proj2 (proj2 (proj2 (proj1
             (text_is_parsed_once (loads_table [("q", VStr "{}"); ("{}", VDict [])])
                "{}" (VDict []) (NInt 0) (NInt 0) eq_refl) _))))).
    intros s'. discriminate.
Defined.

(** ** Error messages are never empty *)










